(** * The 3D model viewer lifecycle manager (js/model-viewer.js)

    A shallow embedding of the [ModelViewer] class, of the process-wide
    [viewers] registry and of the global click handlers, followed by the
    properties of the specification that were checked against it.

    The repository holds three revisions of the file; they differ in a few
    guards only, so the embedding is written once and branches on the
    revision exactly where the sources differ.

    Three.js, the DOM and the browser's scheduler are external: they are
    modelled at their interface (the objects the viewer reads and writes,
    and the ordered log of the calls it makes on them). *)

From Stdlib Require Import ZArith List Ascii String Floats Bool Lia.
From stdpp Require Import base option list gmap strings.
Import ListNotations.

Set Warnings "-inexact-float".

(** ** Revisions of the source *)

Inductive revision :=
| js_model_viewer   (* src/js/model-viewer.js *)
| part_000_first    (* src/unnamed/part_000, first document (lines 1-505) *)
| part_000_second.  (* src/unnamed/part_000, second document, "with Debugging" *)

(** The two documents of part_000 measure the parent container, guard the
    divisions and catch a failing renderer construction. *)
Definition guarded (rev : revision) : bool :=
  match rev with js_model_viewer => false | _ => true end.

(** Only the second document of part_000 has the test cube and the logging. *)
Definition debugging (rev : revision) : bool :=
  match rev with part_000_second => true | _ => false end.

(** ** JavaScript numbers

    A JS number is an IEEE 754 binary64 value, which is what Rocq's primitive
    [float] is: [2 / 0] is [infinity] and [0 / 0] is [nan] here as there. *)

Definition number_of_Z (z : Z) : float :=
  if (z <? 0)%Z then (- PrimFloat.of_uint63 (Uint63.of_Z (- z)))%float
  else PrimFloat.of_uint63 (Uint63.of_Z z).

Module Math.

Definition is_negative_zero (a : float) : bool :=
  match PrimFloat.classify a with NZero => true | _ => false end.

(* Math.max of two arguments: NaN if either is NaN, and +0 above -0. *)
Definition max2 (a b : float) : float :=
  if PrimFloat.is_nan a || PrimFloat.is_nan b then nan
  else if (a <? b)%float then b
  else if (b <? a)%float then a
  else if is_negative_zero a then b else a.

(* Math.max(a, b, c) *)
Definition max (a b c : float) : float := max2 (max2 a b) c.

(* Math.min(a, b) *)
Definition min (a b : float) : float :=
  if PrimFloat.is_nan a || PrimFloat.is_nan b then nan
  else if (a <? b)%float then a
  else if (b <? a)%float then b
  else if is_negative_zero a then a else b.

Definition sqrt (a : float) : float := PrimFloat.sqrt a.

(* Math.round: the nearest integer, ties towards +Infinity; NaN, the
   infinities and the zeros are returned as they are, and a negative
   argument that rounds to zero gives -0. *)
Definition round (a : float) : float :=
  match Prim2SF a with
  | S754_finite s m e =>
      if (0 <=? e)%Z then a
      else
        let d := (2 ^ (- e))%Z in
        let n := if s then Z.neg m else Z.pos m in
        let r := ((2 * n + d) / (2 * d))%Z in
        if (r =? 0)%Z then (if s then (-0)%float else 0%float)
        else number_of_Z r
  | _ => a
  end.

End Math.

(** ** Three.js objects, as far as the viewer touches them *)

Module Vector3.

Record t := mk { x : float; y : float; z : float }.

Definition set (_ : t) (a b c : float) : t := mk a b c.

Definition multiplyScalar (v : t) (s : float) : t :=
  mk (x v * s)%float (y v * s)%float (z v * s)%float.

Definition sub (v w : t) : t :=
  mk (x v - x w)%float (y v - y w)%float (z v - z w)%float.

Definition length (v : t) : float :=
  Math.sqrt (x v * x v + y v * y v + z v * z v)%float.

End Vector3.

(** Object identities.  Textures, geometries and materials are objects of
    the backend; two references are the same object iff the ids agree. *)
Definition texture := nat.
Definition geometry := nat.
Definition material_id := nat.
Definition addr := nat.          (* identity of a ModelViewer instance *)

(** The values that can stand in a [map] slot: [null], a texture, or, when
    [child.material] is an Array, the inherited [Array.prototype.map]. *)
Inductive jsval :=
| js_null
| js_texture (t : texture)
| js_Array_prototype_map.

Definition truthy (v : jsval) : bool :=
  match v with js_null => false | _ => true end.

Module Material.

Record t := mk {
  map : jsval;
  normalMap : option texture;
  roughnessMap : option texture;
  metalnessMap : option texture;
  wireframe : bool;
  color : Z;
  needsUpdate : bool
}.

Definition set_map (v : jsval) (m : t) : t :=
  mk v (normalMap m) (roughnessMap m) (metalnessMap m)
     (wireframe m) (color m) (needsUpdate m).
Definition set_wireframe (b : bool) (m : t) : t :=
  mk (map m) (normalMap m) (roughnessMap m) (metalnessMap m)
     b (color m) (needsUpdate m).
Definition set_color (c : Z) (m : t) : t :=
  mk (map m) (normalMap m) (roughnessMap m) (metalnessMap m)
     (wireframe m) c (needsUpdate m).
Definition set_needsUpdate (b : bool) (m : t) : t :=
  mk (map m) (normalMap m) (roughnessMap m) (metalnessMap m)
     (wireframe m) (color m) b.

End Material.

(** An Array of materials: its elements, and the properties the viewer
    happens to assign on the array object itself ([None] while the property
    is not an own property of the array). *)
Module MaterialArray.

Record t := mk {
  elements : list material_id;
  own_map : option jsval;
  own_wireframe : option bool;
  own_color : option Z;
  own_needsUpdate : option bool
}.

(* Reading [array.map]: the own property if one was assigned, otherwise
   the method inherited from Array.prototype. *)
Definition map (a : t) : jsval :=
  match own_map a with Some v => v | None => js_Array_prototype_map end.

Definition set_map (v : jsval) (a : t) : t :=
  mk (elements a) (Some v) (own_wireframe a) (own_color a) (own_needsUpdate a).
Definition set_wireframe (b : bool) (a : t) : t :=
  mk (elements a) (own_map a) (Some b) (own_color a) (own_needsUpdate a).
Definition set_color (c : Z) (a : t) : t :=
  mk (elements a) (own_map a) (own_wireframe a) (Some c) (own_needsUpdate a).
Definition set_needsUpdate (b : bool) (a : t) : t :=
  mk (elements a) (own_map a) (own_wireframe a) (own_color a) (Some b).

End MaterialArray.

(** What [child.material] holds. *)
Inductive material_ref :=
| no_material                          (* undefined *)
| single (m : material_id)             (* a Material, possibly shared *)
| multi (a : MaterialArray.t).         (* an Array of Materials *)

(** One node of the scene graph of a loaded model. *)
Module Object3D.

Record t := mk {
  isMesh : bool;
  geometry : option geometry;
  material : material_ref;
  castShadow : bool;
  receiveShadow : bool;
  userData_originalMap : option jsval    (* child.userData.originalMap *)
}.

Definition set_material (r : material_ref) (o : t) : t :=
  mk (isMesh o) (geometry o) r (castShadow o) (receiveShadow o)
     (userData_originalMap o).
Definition set_shadows (c r : bool) (o : t) : t :=
  mk (isMesh o) (geometry o) (material o) c r (userData_originalMap o).
Definition set_originalMap (v : jsval) (o : t) : t :=
  mk (isMesh o) (geometry o) (material o) (castShadow o) (receiveShadow o)
     (Some v).

End Object3D.

Abbreviation material_store := (gmap material_id Material.t).

(** A loaded model ([gltf.scene]).  The viewer reaches the nodes of a model
    through [traverse] only, so the scene graph is kept as the sequence of
    its nodes in traversal (pre-)order.  [materials] holds the Material
    objects the nodes refer to; an id without an entry stands for no object.
    [box_center] and [box_size] are what the backend's
    [new THREE.Box3().setFromObject(model)] measures. *)
Module Model.

Record t := mk {
  id : nat;
  scale : Vector3.t;
  position : Vector3.t;
  box_center : Vector3.t;
  box_size : Vector3.t;
  nodes : list Object3D.t;
  materials : gmap material_id Material.t
}.

Definition set_scale (v : Vector3.t) (m : t) : t :=
  mk (id m) v (position m) (box_center m) (box_size m) (nodes m) (materials m).
Definition set_position (v : Vector3.t) (m : t) : t :=
  mk (id m) (scale m) v (box_center m) (box_size m) (nodes m) (materials m).
Definition set_nodes (l : list Object3D.t) (m : t) : t :=
  mk (id m) (scale m) (position m) (box_center m) (box_size m) l (materials m).
Definition set_materials (s : gmap material_id Material.t) (m : t) : t :=
  mk (id m) (scale m) (position m) (box_center m) (box_size m) (nodes m) s.

End Model.

Module Light.
Record t := mk {
  name : string;
  color : Z;
  intensity : float;
  position : option Vector3.t;
  castShadow : bool;
  shadow_mapSize : option Z
}.
End Light.

Module Scene.

(* The objects the viewer adds to its scene.  A model is stood for by its
   identity: the object itself is the one [this.model] points to. *)
Inductive child :=
| light (l : Light.t)
| test_cube
| model (id : nat).

Definition is_model (c : child) : bool :=
  match c with model _ => true | _ => false end.

Definition same_object (a b : child) : bool :=
  match a, b with
  | model i, model j => Nat.eqb i j
  | test_cube, test_cube => true
  | _, _ => false      (* every light is an object of its own *)
  end.

Record t := mk { background : Z; children : list child }.

(* Object3D.remove *)
Definition remove (o : child) (s : t) : t :=
  mk (background s) (List.filter (fun c => negb (same_object o c)) (children s)).

(* Object3D.add: an object that already has a parent is removed from it
   first, then appended. *)
Definition add (o : child) (s : t) : t :=
  mk (background s)
     (List.filter (fun c => negb (same_object o c)) (children s) ++ [o]).

End Scene.

Module Camera.
Record t := mk {
  fov : float; aspect : float; near : float; far : float;
  position : Vector3.t
}.
Definition set_aspect (a : float) (c : t) : t :=
  mk (fov c) a (near c) (far c) (position c).
Definition set_position (p : Vector3.t) (c : t) : t :=
  mk (fov c) (aspect c) (near c) (far c) p.
End Camera.

Module Renderer.
Record t := mk {
  size : option (Z * Z);              (* the last setSize(width, height) *)
  pixelRatio : float;
  antialias : bool;
  powerPreference : string;
  shadowMap_enabled : bool;
  toneMappingExposure : float
}.
Definition setSize (w h : Z) (r : t) : t :=
  mk (Some (w, h)) (pixelRatio r) (antialias r) (powerPreference r)
     (shadowMap_enabled r) (toneMappingExposure r).
End Renderer.

Module Controls.
Record t := mk {
  enableDamping : bool;
  dampingFactor : float;
  minDistance : float;
  maxDistance : float;
  enablePan : bool;
  autoRotate : bool;
  autoRotateSpeed : float;
  rotateSpeed : float;
  zoomSpeed : float
}.
Definition set_autoRotate (b : bool) (c : t) : t :=
  mk (enableDamping c) (dampingFactor c) (minDistance c) (maxDistance c)
     (enablePan c) b (autoRotateSpeed c) (rotateSpeed c) (zoomSpeed c).
End Controls.

(** ** The document *)

(** The parent element of a canvas, with the overlay elements the viewer
    creates in it.  [loading = Some p] is a [.model-loading] overlay whose
    [.loading-progress] text is the number [p] followed by a percent sign;
    [placeholder = Some h] is a [.model-placeholder] element, [h] telling
    whether it carries the class [hidden]. *)
Module Container.
Record t := mk {
  clientWidth : Z; clientHeight : Z;
  offsetWidth : Z; offsetHeight : Z;
  loading : option float;
  error : option string;
  placeholder : option bool
}.
Definition set_loading (l : option float) (c : t) : t :=
  mk (clientWidth c) (clientHeight c) (offsetWidth c) (offsetHeight c)
     l (error c) (placeholder c).
Definition set_error (e : option string) (c : t) : t :=
  mk (clientWidth c) (clientHeight c) (offsetWidth c) (offsetHeight c)
     (loading c) e (placeholder c).
Definition set_placeholder (p : option bool) (c : t) : t :=
  mk (clientWidth c) (clientHeight c) (offsetWidth c) (offsetHeight c)
     (loading c) (error c) p.
End Container.

Module Canvas.
Record t := mk {
  clientWidth : Z; clientHeight : Z;
  style_width : option Z; style_height : option Z;   (* in px *)
  active : bool;                                     (* class "active" *)
  parentElement : option Container.t
}.
Definition set_style (w h : Z) (c : t) : t :=
  mk (clientWidth c) (clientHeight c) (Some w) (Some h) (active c)
     (parentElement c).
Definition set_active (b : bool) (c : t) : t :=
  mk (clientWidth c) (clientHeight c) (style_width c) (style_height c) b
     (parentElement c).
Definition set_parentElement (p : option Container.t) (c : t) : t :=
  mk (clientWidth c) (clientHeight c) (style_width c) (style_height c)
     (active c) p.
End Canvas.

(** ** The browser and the backend *)

(** Function objects handed to [addEventListener].  [this.handleResize] is
    the prototype's method until [init] replaces it by a bound copy; every
    [bind] and every arrow function is a new object ([k] tells them apart). *)
Inductive fnref :=
| method (name : string)
| bound (name : string) (this : addr) (k : nat)
| arrow (name : string) (this : addr) (k : nat).

Definition fnref_eqb (f g : fnref) : bool :=
  match f, g with
  | method n, method n' => String.eqb n n'
  | bound n a k, bound n' a' k' => String.eqb n n' && Nat.eqb a a' && Nat.eqb k k'
  | arrow n a k, arrow n' a' k' => String.eqb n n' && Nat.eqb a a' && Nat.eqb k k'
  | _, _ => false
  end.

Record listener := mk_listener {
  target : string;      (* "window", "document", or the id of a canvas *)
  type : string;
  callback : fnref
}.

Definition listener_eqb (l l' : listener) : bool :=
  String.eqb (target l) (target l') && String.eqb (type l) (type l')
  && fnref_eqb (callback l) (callback l').

(** The calls the viewer makes on the backend and on the browser, in the
    order in which it makes them. *)
Inductive call :=
| new_Scene (this : addr)
| new_PerspectiveCamera (this : addr)
| new_WebGLRenderer (this : addr)
| new_OrbitControls (this : addr)
| scene_add (this : addr) (o : Scene.child)
| scene_remove (this : addr) (o : Scene.child)
| renderer_setSize (this : addr) (w h : Z)
| renderer_render (this : addr)
| renderer_dispose (this : addr)
| controls_update (this : addr)
| controls_dispose (this : addr)
| GLTFLoader_load (this : addr) (path : string)
| geometry_dispose (g : geometry)
| texture_dispose (t : texture)
| material_dispose (m : material_id)
| addEventListener (l : listener)
| removeEventListener (l : listener)
| requestAnimationFrame (this : addr) (handle : positive)
| cancelAnimationFrame (handle : positive)
| setTimeout (what : string) (ms : Z)
| console (msg : string)    (* console.error; the console.log tracing of the
                               second document of part_000 is not recorded *)
| alert (msg : string)
| hide_button               (* buttonElement.style.display = 'none' *)
| select_button.            (* the 'active' class moves to buttonElement *)

Module Env.

Record t := mk {
  (* what is loaded and available *)
  THREE : bool;                 (* typeof THREE !== 'undefined' *)
  GLTFLoader : bool;            (* THREE.GLTFLoader *)
  OrbitControls : bool;         (* THREE.OrbitControls *)
  WebGL : bool;                 (* new THREE.WebGLRenderer succeeds *)
  mobile : bool;                (* the userAgent test of the constructor *)
  devicePixelRatio : float;
  (* the page *)
  hidden : bool;                (* document.hidden *)
  document : gmap string Canvas.t;          (* getElementById *)
  listeners : list listener;
  next_function : nat;
  (* the scheduled animation frame callbacks: handle, and the viewer whose
     [animate] the callback calls *)
  frames : list (positive * addr);
  next_frame : positive;
  (* the log *)
  trace : list call
}.

Definition set_hidden (b : bool) (e : t) : t :=
  mk (THREE e) (GLTFLoader e) (OrbitControls e) (WebGL e) (mobile e)
     (devicePixelRatio e) b (document e) (listeners e) (next_function e)
     (frames e) (next_frame e) (trace e).
Definition set_document (d : gmap string Canvas.t) (e : t) : t :=
  mk (THREE e) (GLTFLoader e) (OrbitControls e) (WebGL e) (mobile e)
     (devicePixelRatio e) (hidden e) d (listeners e) (next_function e)
     (frames e) (next_frame e) (trace e).
Definition set_listeners (l : list listener) (e : t) : t :=
  mk (THREE e) (GLTFLoader e) (OrbitControls e) (WebGL e) (mobile e)
     (devicePixelRatio e) (hidden e) (document e) l (next_function e)
     (frames e) (next_frame e) (trace e).
Definition set_next_function (n : nat) (e : t) : t :=
  mk (THREE e) (GLTFLoader e) (OrbitControls e) (WebGL e) (mobile e)
     (devicePixelRatio e) (hidden e) (document e) (listeners e) n
     (frames e) (next_frame e) (trace e).
Definition set_frames (f : list (positive * addr)) (e : t) : t :=
  mk (THREE e) (GLTFLoader e) (OrbitControls e) (WebGL e) (mobile e)
     (devicePixelRatio e) (hidden e) (document e) (listeners e)
     (next_function e) f (next_frame e) (trace e).
Definition set_next_frame (h : positive) (e : t) : t :=
  mk (THREE e) (GLTFLoader e) (OrbitControls e) (WebGL e) (mobile e)
     (devicePixelRatio e) (hidden e) (document e) (listeners e)
     (next_function e) (frames e) h (trace e).
Definition set_trace (l : list call) (e : t) : t :=
  mk (THREE e) (GLTFLoader e) (OrbitControls e) (WebGL e) (mobile e)
     (devicePixelRatio e) (hidden e) (document e) (listeners e)
     (next_function e) (frames e) (next_frame e) l.

Definition log (c : call) (e : t) : t := set_trace (trace e ++ [c]) e.

End Env.

(** ** Outcomes: a handler returns, or throws with the state it reached *)

Inductive outcome (S A : Type) :=
| Return (a : A) (s : S)
| Throw (error : string) (s : S).
Arguments Return {S A} a s.
Arguments Throw {S A} error s.

Definition state_of {S A} (r : outcome S A) : S :=
  match r with Return _ s => s | Throw _ s => s end.

Definition returns {S A} (r : outcome S A) : bool :=
  match r with Return _ _ => true | Throw _ _ => false end.

Definition M (S A : Type) : Type := S -> outcome S A.

Definition ret {S A} (a : A) : M S A := fun s => Return a s.
Definition throw {S A} (error : string) : M S A := fun s => Throw error s.
Definition bind {S A B} (m : M S A) (k : A -> M S B) : M S B :=
  fun s => match m s with
           | Return a s' => k a s'
           | Throw e s' => Throw e s'
           end.
Definition get {S} : M S S := fun s => Return s s.
Definition modify {S} (f : S -> S) : M S unit := fun s => Return tt (f s).
(* try { m } catch (error) { handler } *)
Definition try_catch {S A} (m : M S A) (handler : M S A) : M S A :=
  fun s => match m s with
           | Return a s' => Return a s'
           | Throw _ s' => handler s'
           end.
Definition when {S} (b : bool) (m : M S unit) : M S unit :=
  if b then m else ret tt.

Notation "x <- m ;; k" := (bind m (fun x => k))
  (at level 20, m at level 99, k at level 200, only parsing).
Notation "m ;; k" := (bind m (fun _ => k))
  (at level 100, k at level 200, right associativity, only parsing).

(** ** The ModelViewer class *)

Module ModelViewer.

Record t := mk {
  canvasId : string;
  canvas : option string;   (* the element with that id, or null *)
  scene : option Scene.t;
  camera : option Camera.t;
  renderer : option Renderer.t;
  controls : option Controls.t;
  model : option Model.t;
  animationId : option positive;
  viewMode : string;
  isInitialized : bool;
  touchStartX : float;
  touchStartY : float;
  touchStartDistance : float;
  isTouch : bool;
  isMobile : bool;
  pixelRatio : float;
  handleResize_fn : fnref;   (* this.handleResize: the prototype's method, or the bound copy made by init *)
  handleVisibilityChange_fn : fnref;
  testCube : bool   (* this.testCube is an object (second document of part_000 only) *)
}.

Definition set_scene (a : option Scene.t) (v : t) : t :=
  mk (canvasId v) (canvas v) a (camera v) (renderer v) (controls v) (model
     v) (animationId v) (viewMode v) (isInitialized v) (touchStartX v)
     (touchStartY v) (touchStartDistance v) (isTouch v) (isMobile v)
     (pixelRatio v) (handleResize_fn v) (handleVisibilityChange_fn v) (testCube v).
Definition set_camera (a : option Camera.t) (v : t) : t :=
  mk (canvasId v) (canvas v) (scene v) a (renderer v) (controls v) (model v)
     (animationId v) (viewMode v) (isInitialized v) (touchStartX v)
     (touchStartY v) (touchStartDistance v) (isTouch v) (isMobile v)
     (pixelRatio v) (handleResize_fn v) (handleVisibilityChange_fn v) (testCube v).
Definition set_renderer (a : option Renderer.t) (v : t) : t :=
  mk (canvasId v) (canvas v) (scene v) (camera v) a (controls v) (model v)
     (animationId v) (viewMode v) (isInitialized v) (touchStartX v)
     (touchStartY v) (touchStartDistance v) (isTouch v) (isMobile v)
     (pixelRatio v) (handleResize_fn v) (handleVisibilityChange_fn v) (testCube v).
Definition set_controls (a : option Controls.t) (v : t) : t :=
  mk (canvasId v) (canvas v) (scene v) (camera v) (renderer v) a (model v)
     (animationId v) (viewMode v) (isInitialized v) (touchStartX v)
     (touchStartY v) (touchStartDistance v) (isTouch v) (isMobile v)
     (pixelRatio v) (handleResize_fn v) (handleVisibilityChange_fn v) (testCube v).
Definition set_model (a : option Model.t) (v : t) : t :=
  mk (canvasId v) (canvas v) (scene v) (camera v) (renderer v) (controls v)
     a (animationId v) (viewMode v) (isInitialized v) (touchStartX v)
     (touchStartY v) (touchStartDistance v) (isTouch v) (isMobile v)
     (pixelRatio v) (handleResize_fn v) (handleVisibilityChange_fn v) (testCube v).
Definition set_animationId (a : option positive) (v : t) : t :=
  mk (canvasId v) (canvas v) (scene v) (camera v) (renderer v) (controls v)
     (model v) a (viewMode v) (isInitialized v) (touchStartX v) (touchStartY
     v) (touchStartDistance v) (isTouch v) (isMobile v) (pixelRatio v)
     (handleResize_fn v) (handleVisibilityChange_fn v) (testCube v).
Definition set_viewMode (a : string) (v : t) : t :=
  mk (canvasId v) (canvas v) (scene v) (camera v) (renderer v) (controls v)
     (model v) (animationId v) a (isInitialized v) (touchStartX v)
     (touchStartY v) (touchStartDistance v) (isTouch v) (isMobile v)
     (pixelRatio v) (handleResize_fn v) (handleVisibilityChange_fn v) (testCube v).
Definition set_isInitialized (a : bool) (v : t) : t :=
  mk (canvasId v) (canvas v) (scene v) (camera v) (renderer v) (controls v)
     (model v) (animationId v) (viewMode v) a (touchStartX v) (touchStartY
     v) (touchStartDistance v) (isTouch v) (isMobile v) (pixelRatio v)
     (handleResize_fn v) (handleVisibilityChange_fn v) (testCube v).
Definition set_touchStartX (a : float) (v : t) : t :=
  mk (canvasId v) (canvas v) (scene v) (camera v) (renderer v) (controls v)
     (model v) (animationId v) (viewMode v) (isInitialized v) a (touchStartY
     v) (touchStartDistance v) (isTouch v) (isMobile v) (pixelRatio v)
     (handleResize_fn v) (handleVisibilityChange_fn v) (testCube v).
Definition set_touchStartY (a : float) (v : t) : t :=
  mk (canvasId v) (canvas v) (scene v) (camera v) (renderer v) (controls v)
     (model v) (animationId v) (viewMode v) (isInitialized v) (touchStartX
     v) a (touchStartDistance v) (isTouch v) (isMobile v) (pixelRatio v)
     (handleResize_fn v) (handleVisibilityChange_fn v) (testCube v).
Definition set_touchStartDistance (a : float) (v : t) : t :=
  mk (canvasId v) (canvas v) (scene v) (camera v) (renderer v) (controls v)
     (model v) (animationId v) (viewMode v) (isInitialized v) (touchStartX
     v) (touchStartY v) a (isTouch v) (isMobile v) (pixelRatio v)
     (handleResize_fn v) (handleVisibilityChange_fn v) (testCube v).
Definition set_isTouch (a : bool) (v : t) : t :=
  mk (canvasId v) (canvas v) (scene v) (camera v) (renderer v) (controls v)
     (model v) (animationId v) (viewMode v) (isInitialized v) (touchStartX
     v) (touchStartY v) (touchStartDistance v) a (isMobile v) (pixelRatio v)
     (handleResize_fn v) (handleVisibilityChange_fn v) (testCube v).
Definition set_handleResize_fn (a : fnref) (v : t) : t :=
  mk (canvasId v) (canvas v) (scene v) (camera v) (renderer v) (controls v)
     (model v) (animationId v) (viewMode v) (isInitialized v) (touchStartX
     v) (touchStartY v) (touchStartDistance v) (isTouch v) (isMobile v)
     (pixelRatio v) a (handleVisibilityChange_fn v) (testCube v).
Definition set_handleVisibilityChange_fn (a : fnref) (v : t) : t :=
  mk (canvasId v) (canvas v) (scene v) (camera v) (renderer v) (controls v)
     (model v) (animationId v) (viewMode v) (isInitialized v) (touchStartX
     v) (touchStartY v) (touchStartDistance v) (isTouch v) (isMobile v)
     (pixelRatio v) (handleResize_fn v) a (testCube v).
Definition set_testCube (a : bool) (v : t) : t :=
  mk (canvasId v) (canvas v) (scene v) (camera v) (renderer v) (controls v)
     (model v) (animationId v) (viewMode v) (isInitialized v) (touchStartX
     v) (touchStartY v) (touchStartDistance v) (isTouch v) (isMobile v)
     (pixelRatio v) (handleResize_fn v) (handleVisibilityChange_fn v) a.

(** A method runs on [this] and on the environment. *)
Definition state : Type := t * Env.t.

Definition this : M state t := fun s => Return (fst s) s.
Definition env : M state Env.t := fun s => Return (snd s) s.
Definition update (f : t -> t) : M state unit :=
  modify (fun s => (f (fst s), snd s)).
Definition update_env (f : Env.t -> Env.t) : M state unit :=
  modify (fun s => (fst s, f (snd s))).
Definition log (c : call) : M state unit := update_env (Env.log c).

(** constructor(canvasId) *)
Definition new (canvasId : string) (e : Env.t) : t :=
  {| canvasId := canvasId;
     canvas := match Env.document e !! canvasId with
               | Some _ => Some canvasId
               | None => None
               end;
     scene := None; camera := None; renderer := None; controls := None;
     model := None; animationId := None;
     viewMode := "textured"; isInitialized := false;
     touchStartX := 0; touchStartY := 0; touchStartDistance := 0;
     isTouch := false;
     isMobile := Env.mobile e;
     pixelRatio := if Env.mobile e then Math.min (Env.devicePixelRatio e) 2
                   else Env.devicePixelRatio e;
     handleResize_fn := method "handleResize";
     handleVisibilityChange_fn := method "handleVisibilityChange";
     testCube := false |}.

(** *** Reading the document through [this.canvas] *)

(* [this.canvas.<property>]: a TypeError when this.canvas is null. *)
Definition the_canvas : M state (string * Canvas.t) :=
  v <- this;; e <- env;;
  match canvas v with
  | Some id =>
      match Env.document e !! id with
      | Some c => ret (id, c)
      | None => throw "TypeError: this.canvas is null"
      end
  | None => throw "TypeError: this.canvas is null"
  end.

(* [const container = this.canvas.parentElement; container.<property>]:
   a TypeError when the canvas or its parent is null. *)
Definition the_container : M state Container.t :=
  ic <- the_canvas;;
  match Canvas.parentElement (snd ic) with
  | Some c => ret c
  | None => throw "TypeError: container is null"
  end.

Definition update_canvas (f : Canvas.t -> Canvas.t) : M state unit :=
  ic <- the_canvas;;
  update_env (fun e =>
    Env.set_document (<[fst ic := f (snd ic)]> (Env.document e)) e).

Definition update_container (f : Container.t -> Container.t) : M state unit :=
  c <- the_container;;
  update_canvas (Canvas.set_parentElement (Some (f c))).

(* a || b on integers: the first operand unless it is 0 *)
Definition or_else (a b : Z) : Z := if (a =? 0)%Z then b else a.

(* const width = container.clientWidth || container.offsetWidth || 400;
   const height = container.clientHeight || container.offsetHeight || 400; *)
Definition measure_container : M state (Z * Z) :=
  c <- the_container;;
  ret (or_else (or_else (Container.clientWidth c) (Container.offsetWidth c)) 400,
       or_else (or_else (Container.clientHeight c) (Container.offsetHeight c)) 400).

(** *** Overlays *)

Definition showLoading (show : bool) : M state unit :=
  c <- the_container;;
  if show then
    match Container.loading c with
    | None => update_container (Container.set_loading (Some 0%float))
    | Some _ => ret tt
    end
  else
    match Container.loading c with
    | Some _ => update_container (Container.set_loading None)
    | None => ret tt
    end.

Definition updateLoadingProgress (percent : float) : M state unit :=
  c <- the_container;;
  match Container.loading c with
  | Some _ => update_container (Container.set_loading (Some (Math.round percent)))
  | None => ret tt
  end.

Definition showError (message : string) : M state unit :=
  c <- the_container;;
  match Container.error c with
  | None =>
      update_container (Container.set_error (Some message));;
      log (setTimeout "errorEl.remove()" 5000)
  | Some _ => ret tt
  end.

(** *** Scene, render loop and resize *)

(* this.scene.add(o) and this.scene.remove(o): a TypeError when
   this.scene is null. *)
Definition scene_add_ (a : addr) (o : Scene.child) : M state unit :=
  v <- this;;
  match scene v with
  | Some s => update (set_scene (Some (Scene.add o s)));; log (scene_add a o)
  | None => throw "TypeError: this.scene is null"
  end.

Definition scene_remove_ (a : addr) (o : Scene.child) : M state unit :=
  v <- this;;
  match scene v with
  | Some s => update (set_scene (Some (Scene.remove o s)));; log (scene_remove a o)
  | None => throw "TypeError: this.scene is null"
  end.

(* requestAnimationFrame(() => this.animate()): the browser hands out the
   next handle and queues the callback. *)
Definition request_frame (a : addr) : M state positive :=
  e <- env;;
  let h := Env.next_frame e in
  update_env (fun e =>
    Env.log (requestAnimationFrame a h)
      (Env.set_next_frame (Pos.succ h)
         (Env.set_frames (Env.frames e ++ [(h, a)]) e)));;
  ret h.

(* cancelAnimationFrame(h): nothing happens when no such callback is queued. *)
Definition unqueue (h : positive) (fs : list (positive * addr)) :
    list (positive * addr) :=
  List.filter (fun f => negb (Pos.eqb (fst f) h)) fs.

Definition cancel_frame (h : positive) : M state unit :=
  update_env (fun e =>
    Env.log (cancelAnimationFrame h)
      (Env.set_frames (unqueue h (Env.frames e)) e)).

Definition animate (a : addr) : M state unit :=
  h <- request_frame a;;
  update (set_animationId (Some h));;
  e <- env;;
  if Env.hidden e then ret tt
  else
    v <- this;;
    (match controls v with
     | Some _ => log (controls_update a)
     | None => ret tt
     end);;
    match renderer v, scene v, camera v with
    | Some _, Some _, Some _ => log (renderer_render a)
    | _, _, _ => ret tt
    end.

Definition handleResize (rev : revision) (a : addr) : M state unit :=
  v <- this;;
  match camera v, renderer v, canvas v with
  | Some cam, Some r, Some _ =>
      wh <- (if guarded rev then
               wh <- measure_container;;
               update_canvas (Canvas.set_style (fst wh) (snd wh));;
               ret wh
             else
               ic <- the_canvas;;
               ret (Canvas.clientWidth (snd ic), Canvas.clientHeight (snd ic)));;
      update (set_camera (Some (Camera.set_aspect
                (number_of_Z (fst wh) / number_of_Z (snd wh))%float cam)));;
      update (set_renderer (Some (Renderer.setSize (fst wh) (snd wh) r)));;
      log (renderer_setSize a (fst wh) (snd wh))
  | _, _, _ => ret tt
  end.

Definition handleVisibilityChange (a : addr) : M state unit :=
  v <- this;; e <- env;;
  match Env.hidden e, animationId v, model v with
  | true, Some h, _ =>
      cancel_frame h;;
      update (set_animationId None)
  | false, None, Some _ => animate a
  | _, _, _ => ret tt
  end.

(** *** Setting up *)

Definition setupLighting (rev : revision) (a : addr) : M state unit :=
  v <- this;;
  scene_add_ a (Scene.light
    (Light.mk "ambientLight" 0xffffff 0.6 None false None));;
  scene_add_ a (Scene.light
    (Light.mk "dirLight" 0xffffff 0.8 (Some (Vector3.mk 5 10 5))
       (negb (isMobile v))
       (if isMobile v then None else Some 2048%Z)));;
  scene_add_ a (Scene.light
    (Light.mk "fillLight" 0x667eea 0.3 (Some (Vector3.mk (-5) 5 (-5))) false None));;
  if debugging rev then ret tt
  else scene_add_ a (Scene.light
    (Light.mk "rimLight" 0x764ba2 0.2 (Some (Vector3.mk 0 (-5) (-10))) false None)).

Definition setupControls (rev : revision) (a : addr) : M state unit :=
  v <- this;; e <- env;;
  if Env.OrbitControls e then
    update (set_controls (Some
      {| Controls.enableDamping := true;
         Controls.dampingFactor := 0.05;
         Controls.minDistance := 1;
         Controls.maxDistance := 10;
         Controls.enablePan := negb (isMobile v);
         Controls.autoRotate := false;
         Controls.autoRotateSpeed := 2;
         Controls.rotateSpeed := if isMobile v then 0.5 else 1;
         Controls.zoomSpeed := if isMobile v then 0.8 else 1 |}));;
    log (new_OrbitControls a)
  else if guarded rev then log (console "OrbitControls not loaded!")
  else throw "TypeError: THREE.OrbitControls is not a constructor".

Definition fresh_function : M state nat :=
  e <- env;;
  update_env (Env.set_next_function (S (Env.next_function e)));;
  ret (Env.next_function e).

(* target.addEventListener(type, callback): a listener that is already
   registered is not registered again. *)
Definition add_listener (l : listener) (ls : list listener) : list listener :=
  if existsb (listener_eqb l) ls then ls else ls ++ [l].

Definition listen (l : listener) : M state unit :=
  update_env (fun e =>
    Env.log (addEventListener l)
      (Env.set_listeners (add_listener l (Env.listeners e)) e)).

(* target.removeEventListener(type, callback) *)
Definition unlisten (l : listener) : M state unit :=
  update_env (fun e =>
    Env.log (removeEventListener l)
      (Env.set_listeners
         (List.filter (fun l' => negb (listener_eqb l l')) (Env.listeners e)) e)).

Definition setupTouchHandlers (a : addr) : M state unit :=
  v <- this;;
  if negb (isMobile v) then ret tt
  else
    ic <- the_canvas;;
    k1 <- fresh_function;;
    listen (mk_listener (fst ic) "touchstart" (arrow "touchstart" a k1));;
    k2 <- fresh_function;;
    listen (mk_listener (fst ic) "touchmove" (arrow "touchmove" a k2));;
    k3 <- fresh_function;;
    listen (mk_listener (fst ic) "touchend" (arrow "touchend" a k3)).

(* second document of part_000 only *)
Definition addTestCube (a : addr) : M state unit :=
  scene_add_ a Scene.test_cube;;
  update (set_testCube true).

(** *** Walking a model

    [model.traverse(callback)] calls the callback on every node in order.
    A callback may change the node and the state it works on; when it
    throws, the walk stops there, and what was changed stays changed. *)
Fixpoint traverse {S : Type} (callback : Object3D.t -> M S Object3D.t)
    (nodes : list Object3D.t) (s : S) : list Object3D.t * outcome S unit :=
  match nodes with
  | [] => ([], Return tt s)
  | child :: rest =>
      match callback child s with
      | Return child' s' =>
          let r := traverse callback rest s' in (child' :: fst r, snd r)
      | Throw e s' => (child :: rest, Throw e s')
      end
  end.

Fixpoint forEach {S A : Type} (f : A -> M S unit) (l : list A) : M S unit :=
  match l with
  | [] => ret tt
  | a :: l' => f a;; forEach f l'
  end.

(* the value of [child.material && child.material.map] *)
Definition material_map (store : material_store) (r : material_ref) : jsval :=
  match r with
  | no_material => js_null
  | single m =>
      match store !! m with
      | Some mat => Material.map mat
      | None => js_null
      end
  | multi arr => MaterialArray.map arr
  end.

(* [child.material.<property> = value]: on the Material the node refers
   to, or on the Array itself; a TypeError when there is no material. *)
Definition assign (on_material : Material.t -> Material.t)
    (on_array : MaterialArray.t -> MaterialArray.t)
    (child : Object3D.t) : M material_store Object3D.t :=
  match Object3D.material child with
  | no_material => throw "TypeError: child.material is undefined"
  | single m => modify (alter on_material m);; ret child
  | multi arr => ret (Object3D.set_material (multi (on_array arr)) child)
  end.

(** *** View modes *)

Definition setViewMode_child (mode : string) (child : Object3D.t) :
    M material_store Object3D.t :=
  if negb (Object3D.isMesh child) then ret child
  else if String.eqb mode "wireframe" then
    assign (Material.set_wireframe true) (MaterialArray.set_wireframe true) child
  else if String.eqb mode "solid" then
    child <- assign (Material.set_wireframe false)
                    (MaterialArray.set_wireframe false) child;;
    store <- get;;
    if truthy (material_map store (Object3D.material child)) then
      child <- assign (Material.set_map js_null)
                      (MaterialArray.set_map js_null) child;;
      child <- assign (Material.set_color 0x808080)
                      (MaterialArray.set_color 0x808080) child;;
      assign (Material.set_needsUpdate true)
             (MaterialArray.set_needsUpdate true) child
    else ret child
  else (* case 'textured': default: *)
    child <- assign (Material.set_wireframe false)
                    (MaterialArray.set_wireframe false) child;;
    match Object3D.userData_originalMap child with
    | Some original =>
        if truthy original then
          child <- assign (Material.set_map original)
                          (MaterialArray.set_map original) child;;
          assign (Material.set_needsUpdate true)
                 (MaterialArray.set_needsUpdate true) child
        else ret child
    | None => ret child
    end.

(* the traversal of setViewMode, on the model itself *)
Definition applyViewMode (mode : string) (m : Model.t) :
    Model.t * outcome material_store unit :=
  let r := traverse (setViewMode_child mode) (Model.nodes m) (Model.materials m) in
  (Model.set_nodes (fst r) (Model.set_materials (state_of (snd r)) m), snd r).

Definition setViewMode (mode : string) : M state unit :=
  update (set_viewMode mode);;
  v <- this;;
  match model v with
  | None => ret tt
  | Some m =>
      let r := applyViewMode mode m in
      update (set_model (Some (fst r)));;
      match snd r with
      | Return _ _ => ret tt
      | Throw e _ => throw e
      end
  end.

(** *** Releasing *)

Definition dispose_texture (slot : option texture) : M state unit :=
  match slot with
  | Some t => log (texture_dispose t)
  | None => ret tt
  end.

Definition disposeMaterial (id : material_id) (material : Material.t) :
    M state unit :=
  (match Material.map material with
   | js_null => ret tt
   | js_texture t => log (texture_dispose t)
   | js_Array_prototype_map =>
       throw "TypeError: material.map.dispose is not a function"
   end);;
  dispose_texture (Material.normalMap material);;
  dispose_texture (Material.roughnessMap material);;
  dispose_texture (Material.metalnessMap material);;
  log (material_dispose id).

Definition disposeMaterial_at (store : material_store) (id : material_id) :
    M state unit :=
  match store !! id with
  | Some material => disposeMaterial id material
  | None => ret tt
  end.

Definition disposeModel_child (store : material_store) (child : Object3D.t) :
    M state Object3D.t :=
  (match Object3D.geometry child with
   | Some g => log (geometry_dispose g)
   | None => ret tt
   end);;
  (match Object3D.material child with
   | no_material => ret tt
   | multi arr => forEach (disposeMaterial_at store) (MaterialArray.elements arr)
   | single m => disposeMaterial_at store m
   end);;
  ret child.

Definition disposeModel (m : Model.t) : M state unit :=
  fun s => snd (traverse (disposeModel_child (Model.materials m)) (Model.nodes m) s).

Definition dispose (a : addr) : M state unit :=
  v <- this;;
  (match animationId v with
   | Some h => cancel_frame h
   | None => ret tt
   end);;
  unlisten (mk_listener "window" "resize" (handleResize_fn v));;
  unlisten (mk_listener "document" "visibilitychange" (handleVisibilityChange_fn v));;
  (match model v with
   | Some m => disposeModel m
   | None => ret tt
   end);;
  (match renderer v with
   | Some _ => log (renderer_dispose a)
   | None => ret tt
   end);;
  (match controls v with
   | Some _ => log (controls_dispose a)
   | None => ret tt
   end);;
  update (fun v =>
    set_model None (set_controls None (set_renderer None
      (set_camera None (set_scene None v))))).

(** *** init *)

(* this.renderer = new THREE.WebGLRenderer({...}), with the settings that
   follow it; the constructor throws when WebGL is not available. *)
Definition new_renderer (a : addr) : M state unit :=
  v <- this;; e <- env;;
  if Env.WebGL e then
    update (set_renderer (Some
      {| Renderer.size := None;
         Renderer.pixelRatio := pixelRatio v;
         Renderer.antialias := negb (isMobile v);
         Renderer.powerPreference :=
           if isMobile v then "low-power" else "high-performance";
         Renderer.shadowMap_enabled := negb (isMobile v);
         Renderer.toneMappingExposure := 1.2 |}));;
    log (new_WebGLRenderer a)
  else throw "Error creating WebGL context".

(* this.renderer.setSize(width, height) *)
Definition setSize (a : addr) (wh : Z * Z) : M state unit :=
  v <- this;;
  match renderer v with
  | Some r =>
      update (set_renderer (Some (Renderer.setSize (fst wh) (snd wh) r)));;
      log (renderer_setSize a (fst wh) (snd wh))
  | None => throw "TypeError: this.renderer is null"
  end.

Definition canvas_size : M state (Z * Z) :=
  ic <- the_canvas;;
  ret (Canvas.clientWidth (snd ic), Canvas.clientHeight (snd ic)).

(* the catch block of the two documents of part_000 *)
Definition renderer_failed : M state bool :=
  log (console "Failed to create WebGL renderer:");;
  showError "WebGL not supported";;
  ret false.

Definition init (rev : revision) (a : addr) : M state unit :=
  v <- this;;
  if isInitialized v then ret tt
  else
    e <- env;;
    if negb (Env.THREE e) then throw "ReferenceError: THREE is not defined"
    else
      update (set_scene (Some (Scene.mk 0x0a0e27 [])));;
      log (new_Scene a);;
      (* the numbers the aspect ratio is computed from *)
      wh <- (match rev with
             | part_000_first => measure_container
             | _ => canvas_size
             end);;
      update (set_camera (Some
        {| Camera.fov := 50;
           Camera.aspect := (number_of_Z (fst wh) / number_of_Z (snd wh))%float;
           Camera.near := 0.1;
           Camera.far := 1000;
           Camera.position := Vector3.mk 0 1 3 |}));;
      log (new_PerspectiveCamera a);;
      created <-
        (match rev with
         | js_model_viewer =>
             new_renderer a;;
             setSize a wh;;
             ret true
         | part_000_first =>
             try_catch
               (new_renderer a;;
                setSize a wh;;
                update_canvas (Canvas.set_style (fst wh) (snd wh));;
                ret true)
               renderer_failed
         | part_000_second =>
             try_catch
               (new_renderer a;;
                wh' <- measure_container;;
                setSize a wh';;
                update_canvas (Canvas.set_style (fst wh') (snd wh'));;
                ret true)
               renderer_failed
         end);;
      if negb created then ret tt
      else
        setupLighting rev a;;
        setupControls rev a;;
        setupTouchHandlers a;;
        when (debugging rev) (addTestCube a;; animate a);;
        k <- fresh_function;;
        update (set_handleResize_fn (bound "handleResize" a k));;
        listen (mk_listener "window" "resize" (bound "handleResize" a k));;
        k' <- fresh_function;;
        update (set_handleVisibilityChange_fn (bound "handleVisibilityChange" a k'));;
        listen (mk_listener "document" "visibilitychange"
                  (bound "handleVisibilityChange" a k'));;
        update (set_isInitialized true).

(** *** loadModel and the three callbacks it hands to the loader *)

Definition loadModel (rev : revision) (a : addr) (modelPath : string) :
    M state unit :=
  v <- this;;
  when (debugging rev && testCube v)
    (scene_remove_ a Scene.test_cube;; update (set_testCube false));;
  showLoading true;;
  e <- env;;
  if Env.GLTFLoader e then log (GLTFLoader_load a modelPath)
  else if guarded rev then
    log (console "GLTFLoader is not available!");;
    showError "3D loader not available";;
    showLoading false
  else throw "TypeError: THREE.GLTFLoader is not a constructor".

(* const scale = 2 / maxDim;                      (js/model-viewer.js)
   const scale = maxDim > 0 ? 2 / maxDim : 1;     (part_000) *)
Definition normalization_scale (rev : revision) (maxDim : float) : float :=
  if guarded rev then
    if (0 <? maxDim)%float then (2 / maxDim)%float else 1%float
  else (2 / maxDim)%float.

(* Center and scale model *)
Definition normalize (rev : revision) (m : Model.t) : Model.t :=
  let center := Model.box_center m in
  let size := Model.box_size m in
  let maxDim := Math.max (Vector3.x size) (Vector3.y size) (Vector3.z size) in
  let scale := normalization_scale rev maxDim in
  Model.set_position
    (Vector3.sub (Model.position m) (Vector3.multiplyScalar center scale))
    (Model.set_scale (Vector3.multiplyScalar (Model.scale m) scale) m).

(* the traverse callback of the success handler; the mobile-only tuning of
   envMapIntensity and roughness touches nothing that is read again and
   is left out *)
Definition setup_child (mobile : bool) (store : material_store)
    (child : Object3D.t) : Object3D.t :=
  if Object3D.isMesh child then
    let child := Object3D.set_shadows (negb mobile) (negb mobile) child in
    let map := material_map store (Object3D.material child) in
    if truthy map then Object3D.set_originalMap map child else child
  else child.

Definition setup_materials (mobile : bool) (m : Model.t) : Model.t :=
  Model.set_nodes (List.map (setup_child mobile (Model.materials m)) (Model.nodes m)) m.

Definition onLoad (rev : revision) (a : addr) (gltf_scene : Model.t) :
    M state unit :=
  v <- this;;
  (match model v with
   | Some old =>
       scene_remove_ a (Scene.model (Model.id old));;
       disposeModel old
   | None => ret tt
   end);;
  update (set_model (Some
    (setup_materials (isMobile v) (normalize rev gltf_scene))));;
  scene_add_ a (Scene.model (Model.id gltf_scene));;
  (match rev with
   | js_model_viewer => showLoading false
   | part_000_first => showLoading false;; handleResize rev a
   | part_000_second => handleResize rev a;; showLoading false
   end);;
  v <- this;;
  (match animationId v with
   | None => animate a
   | Some _ => ret tt
   end);;
  v <- this;;
  match controls v with
  | Some c =>
      update (set_controls (Some (Controls.set_autoRotate true c)));;
      log (setTimeout "this.controls.autoRotate = false" 2000)
  | None => throw "TypeError: this.controls is null"
  end.

(* const percent = (progress.loaded / progress.total) * 100;  (js/model-viewer.js)
   const percent = progress.total > 0
                     ? (progress.loaded / progress.total) * 100 : 0;  (part_000) *)
Definition percent (rev : revision) (loaded total : float) : float :=
  if guarded rev then
    if (0 <? total)%float then (loaded / total * 100)%float else 0%float
  else (loaded / total * 100)%float.

Definition onProgress (rev : revision) (loaded total : float) : M state unit :=
  updateLoadingProgress (percent rev loaded total).

Definition onError (rev : revision) : M state unit :=
  log (console "Error loading model:");;
  when (debugging rev) (log (console "Failed path:"));;
  showError (if debugging rev
             then "Failed to load 3D model: Check console for details"
             else "Failed to load 3D model");;
  showLoading false.

(** *** Touch handlers (the arrow functions of setupTouchHandlers) *)

Definition touch : Type := float * float.      (* clientX, clientY *)

Definition pinch (t0 t1 : touch) : float :=
  let dx := (fst t0 - fst t1)%float in
  let dy := (snd t0 - snd t1)%float in
  Math.sqrt (dx * dx + dy * dy)%float.

Definition touchstart (touches : list touch) : M state unit :=
  update (set_isTouch true);;
  match touches with
  | [t] => update (fun v => set_touchStartY (snd t) (set_touchStartX (fst t) v))
  | [t0; t1] => update (set_touchStartDistance (pinch t0 t1))
  | _ => ret tt
  end.

Definition touchmove (touches : list touch) : M state unit :=
  v <- this;;
  if negb (isTouch v) then ret tt
  else
    match touches with
    | [t0; t1] =>
        if (0 <? touchStartDistance v)%float then
          let distance := pinch t0 t1 in
          let scale := (distance / touchStartDistance v)%float in
          match camera v with
          | None => throw "TypeError: this.camera is null"
          | Some cam =>
              let newDistance :=
                (Vector3.length (Camera.position cam) / scale)%float in
              match controls v with
              | None => throw "TypeError: this.controls is null"
              | Some c =>
                  if (Controls.minDistance c <? newDistance)%float
                     && (newDistance <? Controls.maxDistance c)%float
                  then
                    update (set_camera (Some (Camera.set_position
                      (Vector3.multiplyScalar (Camera.position cam) (1 / scale))
                      cam)));;
                    update (set_touchStartDistance distance)
                  else ret tt
              end
          end
        else ret tt
    | _ => ret tt
    end.

Definition touchend : M state unit :=
  update (fun v => set_touchStartDistance 0 (set_isTouch false v)).

End ModelViewer.

(** ** What happens to one viewer

    The page makes a viewer and calls its [init] in one go, once
    ([load3DModel]); after that come the calls made on the viewer and the
    callbacks the browser and the loader run for it.  A listener runs only
    while it is registered, an animation frame callback only while it is
    queued; a handler that throws ends there, and the page goes on with the
    state it reached. *)

Inductive event :=
| call_loadModel (modelPath : string)
| call_setViewMode (mode : string)
| call_dispose
| loaded (gltf_scene : Model.t)                 (* the loader's success callback *)
| progress (loaded total : float)               (* its progress callback *)
| failed                                        (* its error callback *)
| resize
| visibilitychange (hidden : bool)
| animation_frame (handle : positive)
| touch_start (touches : list ModelViewer.touch)
| touch_move (touches : list ModelViewer.touch)
| touch_end.

Definition listens (a : addr) (ty name : string) (l : listener) : bool :=
  String.eqb (type l) ty &&
  match callback l with
  | bound n a' _ | arrow n a' _ => String.eqb n name && Nat.eqb a' a
  | method _ => false
  end.

(* run [handler] once for every registered listener of that type that calls
   the method [name] of viewer [a] *)
Definition dispatch (a : addr) (ty name : string)
    (handler : M ModelViewer.state unit) : M ModelViewer.state unit :=
  e <- ModelViewer.env;;
  ModelViewer.forEach (fun _ => handler)
    (List.filter (listens a ty name) (Env.listeners e)).

Definition queued (h : positive) (a : addr) (f : positive * addr) : bool :=
  Pos.eqb (fst f) h && Nat.eqb (snd f) a.

Definition step (rev : revision) (a : addr) (ev : event) :
    M ModelViewer.state unit :=
  match ev with
  | call_loadModel modelPath => ModelViewer.loadModel rev a modelPath
  | call_setViewMode mode => ModelViewer.setViewMode mode
  | call_dispose => ModelViewer.dispose a
  | loaded gltf_scene => ModelViewer.onLoad rev a gltf_scene
  | progress l t => ModelViewer.onProgress rev l t
  | failed => ModelViewer.onError rev
  | resize =>
      dispatch a "resize" "handleResize" (ModelViewer.handleResize rev a)
  | visibilitychange h =>
      ModelViewer.update_env (Env.set_hidden h);;
      dispatch a "visibilitychange" "handleVisibilityChange"
        (ModelViewer.handleVisibilityChange a)
  | animation_frame h =>
      e <- ModelViewer.env;;
      if existsb (queued h a) (Env.frames e) then
        ModelViewer.update_env (fun e =>
          Env.set_frames (ModelViewer.unqueue h (Env.frames e)) e);;
        ModelViewer.animate a
      else ret tt
  | touch_start ts => dispatch a "touchstart" "touchstart" (ModelViewer.touchstart ts)
  | touch_move ts => dispatch a "touchmove" "touchmove" (ModelViewer.touchmove ts)
  | touch_end => dispatch a "touchend" "touchend" ModelViewer.touchend
  end.

(* viewers[canvasId] = new ModelViewer(canvasId); viewers[canvasId].init(); *)
Definition start (rev : revision) (a : addr) (canvasId : string) (e : Env.t) :
    ModelViewer.state :=
  state_of (ModelViewer.init rev a (ModelViewer.new canvasId e, e)).

Definition run (rev : revision) (a : addr) (evs : list event)
    (s : ModelViewer.state) : ModelViewer.state :=
  fold_left (fun s ev => state_of (step rev a ev s)) evs s.

(** ** The registry and the global functions *)

(** *** Property names

    [viewers] is a plain object, [{}]: reading [viewers[canvasId]] finds an
    own property, or else the member of that name that every object inherits
    from [Object.prototype]; and [Object.values] walks the own properties in
    the order of the language: names that are array indices first, by their
    numeric value, then the other names in the order of their creation. *)

Definition Object_prototype : list string :=
  ["constructor"; "hasOwnProperty"; "isPrototypeOf"; "propertyIsEnumerable";
   "toLocaleString"; "toString"; "valueOf"; "__proto__"; "__defineGetter__";
   "__defineSetter__"; "__lookupGetter__"; "__lookupSetter__"].

Definition inherited (name : string) : bool :=
  existsb (String.eqb name) Object_prototype.

Definition digit (c : Ascii.ascii) : option N :=
  let n := N_of_ascii c in
  if ((48 <=? n) && (n <=? 57))%N then Some (n - 48)%N else None.

Fixpoint digits (s : string) (acc : N) : option N :=
  match s with
  | EmptyString => Some acc
  | String c s' =>
      match digit c with
      | Some d => digits s' (10 * acc + d)%N
      | None => None
      end
  end.

(* An array index: the canonical decimal numeral (no sign, no leading zero)
   of an integer from 0 to 2^32 - 2. *)
Definition array_index (name : string) : option N :=
  match name with
  | EmptyString => None
  | String c rest =>
      if Ascii.eqb c "0"%char && negb (String.eqb rest "") then None
      else
        match digits name 0 with
        | Some n => if (n <=? 4294967294)%N then Some n else None
        | None => None
        end
  end.

Fixpoint insert_by {A : Type} (le : A -> A -> bool) (x : A) (l : list A) :
    list A :=
  match l with
  | [] => [x]
  | y :: l' => if le x y then x :: l else y :: insert_by le x l'
  end.

Definition sort_by {A : Type} (le : A -> A -> bool) (l : list A) : list A :=
  fold_right (insert_by le) [] l.

(** [const viewers = {}] maps a canvas id to a ModelViewer object; the
    objects themselves live in [objects], under their identity. *)
Module Page.

Record t := mk {
  viewers : gmap string addr;
  objects : gmap addr ModelViewer.t;
  next_object : addr;
  env : Env.t
}.

Definition update_env (f : Env.t -> Env.t) : M t unit :=
  modify (fun p => mk (viewers p) (objects p) (next_object p) (f (env p))).
Definition log (c : call) : M t unit := update_env (Env.log c).

(* what the expression viewers[canvasId] evaluates to *)
Inductive property :=
| viewer (a : addr)       (* an own property: the registered ModelViewer *)
| prototype_member        (* a function or object of Object.prototype: truthy,
                             and without loadModel, setViewMode or dispose *)
| undefined.

Definition read (p : t) (canvasId : string) : property :=
  match viewers p !! canvasId with
  | Some a => viewer a
  | None => if inherited canvasId then prototype_member else undefined
  end.

(* viewer.method(...) on the object at [a] *)
Definition invoke {A} (a : addr) (m : M ModelViewer.state A) : M t A :=
  fun p =>
    match objects p !! a with
    | None => Throw "TypeError: not an object" p
    | Some v =>
        let write s :=
          mk (viewers p) (<[a := fst s]> (objects p)) (next_object p) (snd s) in
        match m (v, env p) with
        | Return x s => Return x (write s)
        | Throw e s => Throw e (write s)
        end
    end.

(* viewers[canvasId] = new ModelViewer(canvasId) *)
Definition register (canvasId : string) : M t addr :=
  p <- get;;
  let a := next_object p in
  modify (fun p =>
    mk (<[canvasId := a]> (viewers p))
       (<[a := ModelViewer.new canvasId (env p)]> (objects p))
       (S a) (env p));;
  ret a.

(* canvas.classList.add('active');
   if (placeholder) placeholder.classList.add('hidden'); *)
Definition show_canvas (canvasId : string) : M t unit :=
  p <- get;;
  match Env.document (env p) !! canvasId with
  | None => throw "TypeError: canvas is null"
  | Some canvas =>
      match Canvas.parentElement canvas with
      | None => throw "TypeError: container is null"
      | Some container =>
          let container' :=
            match Container.placeholder container with
            | Some _ => Container.set_placeholder (Some true) container
            | None => container
            end in
          update_env (fun e => Env.set_document
            (<[canvasId := Canvas.set_active true
                 (Canvas.set_parentElement (Some container') canvas)]>
               (Env.document e)) e)
      end
  end.

(* [buttonElement] tells whether the caller passed a button (an element of
   the page, inside its container). *)
Definition load3DModel (rev : revision) (canvasId modelPath : string)
    (buttonElement : bool) : M t unit :=
  p <- get;;
  if negb (Env.THREE (env p)) then
    log (console "Three.js is not loaded");;
    when (guarded rev) (log (alert "Three.js library is not loaded"))
  else if guarded rev && negb (Env.GLTFLoader (env p)) then
    log (console "GLTFLoader is not loaded");;
    log (alert "GLTF Loader is not available")
  else
    (* if (!viewers[canvasId]) { ... } *)
    (match read p canvasId with
     | undefined =>
         a <- register canvasId;;
         invoke a (ModelViewer.init rev a)
     | _ => ret tt
     end);;
    show_canvas canvasId;;
    (* viewers[canvasId].loadModel(modelPath) *)
    p <- get;;
    (match read p canvasId with
     | viewer a => invoke a (ModelViewer.loadModel rev a modelPath)
     | prototype_member =>
         throw "TypeError: viewers[canvasId].loadModel is not a function"
     | undefined => throw "TypeError: viewers[canvasId] is undefined"
     end);;
    when buttonElement (log hide_button).

(* the global setViewMode(canvasId, mode, buttonElement); without a button,
   reading buttonElement.parentElement throws *)
Definition setViewMode (rev : revision) (canvasId mode : string)
    (buttonElement : bool) : M t unit :=
  p <- get;;
  match read p canvasId with
  | undefined =>
      when (debugging rev) (log (console "No viewer found for canvas:"))
  | prototype_member =>
      throw "TypeError: viewers[canvasId].setViewMode is not a function"
  | viewer a =>
      invoke a (ModelViewer.setViewMode mode);;
      if buttonElement then log select_button
      else throw "TypeError: buttonElement is undefined"
  end.

(* Object.values(viewers).  An id is created together with its viewer
   object (register), and objects are numbered as they are created, so the
   order in which the ids were created is the order of the addresses. *)
Definition before (x y : string * addr) : bool :=
  match array_index (fst x), array_index (fst y) with
  | Some i, Some j => (i <=? j)%N
  | Some _, None => true
  | None, Some _ => false
  | None, None => Nat.leb (snd x) (snd y)
  end.

Definition values (p : t) : list addr :=
  List.map snd (sort_by before (map_to_list (viewers p))).

(* window.addEventListener('beforeunload', () => {
     Object.values(viewers).forEach(viewer => viewer.dispose()); }) *)
Definition beforeunload : M t unit :=
  p <- get;;
  ModelViewer.forEach (fun a => invoke a (ModelViewer.dispose a)) (values p).

End Page.

(** ** Notions in which the properties are stated *)

(** The handles of the animation frame callbacks queued for viewer [a]. *)
Definition scheduled (a : addr) (e : Env.t) : list positive :=
  List.map fst (List.filter (fun f => Nat.eqb (snd f) a) (Env.frames e)).

(** The models among the children of a scene, by identity. *)
Definition models_in (children : list Scene.child) : list nat :=
  flat_map (fun c => match c with Scene.model i => [i] | _ => [] end) children.

(** The models attached to the viewer's scene. *)
Definition attached (v : ModelViewer.t) : list nat :=
  match ModelViewer.scene v with
  | Some s => models_in (Scene.children s)
  | None => []
  end.

(** The textures a material holds in its four map slots. *)
Definition textures (m : Material.t) : list texture :=
  match Material.map m with js_texture t => [t] | _ => [] end
  ++ option_list (Material.normalMap m)
  ++ option_list (Material.roughnessMap m)
  ++ option_list (Material.metalnessMap m).

(** The materials of a node: the one it refers to, or the elements of its
    array. *)
Definition material_ids (r : material_ref) : list material_id :=
  match r with
  | no_material => []
  | single m => [m]
  | multi arr => MaterialArray.elements arr
  end.

(** [calls] releases the model [m]: the geometry of every node is disposed
    of, and every material of every node is disposed of at a point before
    which each texture in its four map slots has been disposed of. *)
Definition releases (m : Model.t) (calls : list call) : Prop :=
  (forall child g, In child (Model.nodes m) ->
     Object3D.geometry child = Some g -> In (geometry_dispose g) calls)
  /\
  (forall child id material, In child (Model.nodes m) ->
     In id (material_ids (Object3D.material child)) ->
     Model.materials m !! id = Some material ->
     exists before after,
       calls = before ++ material_dispose id :: after /\
       forall t, In t (textures material) -> In (texture_dispose t) before).

(** What the backend guarantees of the objects it hands out: the [map] slot
    of a Material is null or a texture, and a node that refers to a Material
    carries no foreign [userData.originalMap]. *)
Definition is_function (v : jsval) : bool :=
  match v with js_Array_prototype_map => true | _ => false end.

Definition well_typed_child (child : Object3D.t) : bool :=
  match Object3D.material child, Object3D.userData_originalMap child with
  | single _, Some v => negb (is_function v)
  | _, _ => true
  end.

Definition well_typed (m : Model.t) : bool :=
  forallb (fun kv => negb (is_function (Material.map (snd kv))))
          (map_to_list (Model.materials m))
  && forallb well_typed_child (Model.nodes m).

(** Every Mesh has a material (the Mesh constructor sees to it). *)
Definition meshes_have_material (m : Model.t) : bool :=
  forallb (fun child =>
             negb (Object3D.isMesh child) ||
             match Object3D.material child with
             | no_material => false
             | _ => true
             end)
          (Model.nodes m).

(** The models the loader delivers are well typed. *)
Definition deliverable (ev : event) : bool :=
  match ev with
  | loaded gltf_scene => well_typed gltf_scene
  | _ => true
  end.

(** The flag [child.material.wireframe], as last assigned. *)
Definition wireframe_of (store : material_store) (r : material_ref) :
    option bool :=
  match r with
  | no_material => None
  | single m => Material.wireframe <$> store !! m
  | multi arr => MaterialArray.own_wireframe arr
  end.

(** The viewer registered under an id. *)
Definition viewer_of (p : Page.t) (canvasId : string) : option ModelViewer.t :=
  a ← Page.viewers p !! canvasId; Page.objects p !! a.

(** How often a call that satisfies [f] occurs. *)
Definition count (f : call -> bool) (calls : list call) : nat :=
  length (List.filter f calls).
(** core *)
Definition core (s : ModelViewer.state) :=
  (attached (fst s), ModelViewer.model (fst s),
   ModelViewer.animationId (fst s), Env.frames (snd s)).

Definition keeps {S A X : Type} (pi : S -> X) (m : M S A) : Prop :=
  forall s, pi (state_of (m s)) = pi s.

(** Hoare triples with an exceptional postcondition *)
Definition hoare {S A : Type} (P : S -> Prop) (m : M S A)
    (Q : A -> S -> Prop) (E : S -> Prop) : Prop :=
  forall s, P s ->
    match m s with
    | Return a s' => Q a s'
    | Throw _ s' => E s'
    end.

(** The invariant *)
Definition loop_inv (a : addr) (s : ModelViewer.state) : Prop :=
  forall h, In (h, a) (Env.frames (snd s)) -> ModelViewer.animationId (fst s) = Some h.

Definition attached_inv (s : ModelViewer.state) : Prop :=
  attached (fst s) = [] \/
  exists m, ModelViewer.model (fst s) = Some m /\ attached (fst s) = [Model.id m].

Definition typed_inv (s : ModelViewer.state) : Prop :=
  forall m, ModelViewer.model (fst s) = Some m -> well_typed m = true.

Definition Inv (a : addr) (s : ModelViewer.state) : Prop :=
  loop_inv a s /\ attached_inv s /\ typed_inv s.

Definition InvC (a : addr)
    (c : list nat * option Model.t * option positive * list (positive * addr)) : Prop :=
  let '(att, mo, aid, fr) := c in
  (forall h, In (h, a) fr -> aid = Some h) /\
  (att = [] \/ exists m, mo = Some m /\ att = [Model.id m]) /\
  (forall m, mo = Some m -> well_typed m = true).

(** typing *)
Definition typed_store (store : material_store) : Prop :=
  forall id mat, store !! id = Some mat -> is_function (Material.map mat) = false.

Definition typed_nodes (nodes : list Object3D.t) : Prop :=
  Forall (fun child => well_typed_child child = true) nodes.

Definition idle (a : addr) (s : ModelViewer.state) : Prop :=
  Inv a s /\ scheduled a (snd s) = [].

(** weakest preconditions *)
Definition wp {S A : Type} (m : M S A) (Q : A -> S -> Prop) (E : S -> Prop)
    (s : S) : Prop :=
  match m s with
  | Return a s' => Q a s'
  | Throw _ s' => E s'
  end.

(** the calls that release a model *)
Definition material_calls (id : material_id) (material : Material.t) : list call :=
  List.map texture_dispose (textures material) ++ [material_dispose id].

Definition store_calls (store : material_store) (id : material_id) : list call :=
  match store !! id with
  | Some material => material_calls id material
  | None => []
  end.

Definition child_calls (store : material_store) (child : Object3D.t) : list call :=
  match Object3D.geometry child with Some g => [geometry_dispose g] | None => [] end
  ++ flat_map (store_calls store) (material_ids (Object3D.material child)).

Definition model_calls (m : Model.t) : list call :=
  flat_map (child_calls (Model.materials m)) (Model.nodes m).

Definition logged (calls : list call) (e : Env.t) : Env.t :=
  Env.set_trace (Env.trace e ++ calls) e.

Definition released (v : ModelViewer.t) : ModelViewer.t :=
  ModelViewer.set_model None (ModelViewer.set_controls None
    (ModelViewer.set_renderer None (ModelViewer.set_camera None
       (ModelViewer.set_scene None v)))).

Definition no_model_within (F : list (positive * addr)) (s : ModelViewer.state) : Prop :=
  ModelViewer.model (fst s) = None /\ incl (Env.frames (snd s)) F.

(** computations that respect a preorder on states *)
Definition respects {S A : Type} (R : S -> S -> Prop) (m : M S A) : Prop :=
  forall s, R s (state_of (m s)).

(** the current model and what is attached stay; the log only grows *)
Definition settled (s s' : ModelViewer.state) : Prop :=
  attached (fst s') = attached (fst s) /\
  ModelViewer.model (fst s') = ModelViewer.model (fst s) /\
  exists rest, Env.trace (snd s') = Env.trace (snd s) ++ rest.

(** what the success handler leaves behind when it replaces a model *)
Definition replaced (a : addr) (old gltf : Model.t)
    (s s' : ModelViewer.state) : Prop :=
  exists calls rest,
    Env.trace (snd s') =
      Env.trace (snd s)
      ++ scene_remove a (Scene.model (Model.id old)) :: calls
      ++ scene_add a (Scene.model (Model.id gltf)) :: rest /\
    releases old calls /\
    attached (fst s') = [Model.id gltf] /\
    exists m, ModelViewer.model (fst s') = Some m /\ Model.id m = Model.id gltf.

(** a pass of setViewMode keeps the shape of a node: what kind of material
    it has, and the map recorded when the model was loaded *)
Definition shape (child child' : Object3D.t) : Prop :=
  Object3D.isMesh child' = Object3D.isMesh child /\
  Object3D.userData_originalMap child' = Object3D.userData_originalMap child /\
  match Object3D.material child with
  | no_material => Object3D.material child' = no_material
  | single id => Object3D.material child' = single id
  | multi _ => exists arr', Object3D.material child' = multi arr'
  end.

Definition has_material (child : Object3D.t) : Prop :=
  Object3D.isMesh child = true -> Object3D.material child <> no_material.

Definition same_dom (store0 store : material_store) : Prop :=
  forall id, store !! id = None <-> store0 !! id = None.

(** the material [id] carries, after a textured pass, the map it had when
    the model was delivered, and its wireframe flag is off *)
Definition restored (store0 store : material_store) (id : material_id) : Prop :=
  exists mat mat0,
    store !! id = Some mat /\ store0 !! id = Some mat0 /\
    truthy (Material.map mat0) = true /\
    Material.map mat = Material.map mat0 /\ Material.wireframe mat = false.

(** what the success handler recorded on a mesh *)
Definition recorded (store0 : material_store) (child : Object3D.t) : Prop :=
  Object3D.isMesh child = true ->
  match Object3D.material child with
  | no_material => False
  | single id =>
      forall mat0, store0 !! id = Some mat0 -> truthy (Material.map mat0) = true ->
        Object3D.userData_originalMap child = Some (Material.map mat0)
  | multi _ => True
  end.

Definition textured_again (store0 : material_store) (child child' : Object3D.t)
    (store' : material_store) : Prop :=
  Object3D.isMesh child = true ->
  match Object3D.material child with
  | no_material => True
  | single id =>
      Object3D.material child' = single id /\
      forall mat0, store0 !! id = Some mat0 -> truthy (Material.map mat0) = true ->
        restored store0 store' id
  | multi _ =>
      exists arr', Object3D.material child' = multi arr' /\
        MaterialArray.own_wireframe arr' = Some false /\
        forall original,
          Object3D.userData_originalMap child = Some original ->
          truthy original = true -> MaterialArray.map arr' = original
  end.

Definition later (store0 store store' : material_store) : Prop :=
  forall id, restored store0 store id -> restored store0 store' id.

(** a sub-part whose map was recorded when the model was loaded *)
Definition map_recorded (store0 : material_store) (child : Object3D.t) : bool :=
  Object3D.isMesh child &&
  truthy (ModelViewer.material_map store0 (Object3D.material child)).

Definition round_trip (store0 : material_store) (child : Object3D.t)
    (store2 : material_store) (child2 : Object3D.t) : Prop :=
  ModelViewer.material_map store2 (Object3D.material child2)
  = ModelViewer.material_map store0 (Object3D.material child) /\
  wireframe_of store2 (Object3D.material child2) = Some false.

(** the calls by which init acquires its resources and subscribes *)
Definition init_effect (c : call) : bool :=
  match c with
  | new_Scene _ | new_PerspectiveCamera _ | new_WebGLRenderer _
  | new_OrbitControls _ => true
  | scene_add _ (Scene.light _) => true
  | addEventListener l =>
      String.eqb (type l) "resize" || String.eqb (type l) "visibilitychange"
  | _ => false
  end.

Definition no_init (calls : list call) : bool :=
  forallb (fun c => negb (init_effect c)) calls.

(** what a call that is not init leaves of what init set up *)
Definition unchanged_fields (v v' : ModelViewer.t) : Prop :=
  ModelViewer.camera v' = ModelViewer.camera v /\
  ModelViewer.renderer v' = ModelViewer.renderer v /\
  ModelViewer.controls v' = ModelViewer.controls v /\
  ModelViewer.isInitialized v' = ModelViewer.isInitialized v /\
  (ModelViewer.scene v = None -> ModelViewer.scene v' = None).

Definition reused (a : addr) (v : ModelViewer.t) (p p' : Page.t) : Prop :=
  Page.viewers p' = Page.viewers p /\
  Page.next_object p' = Page.next_object p /\
  (exists v', Page.objects p' !! a = Some v' /\ unchanged_fields v v') /\
  exists rest,
    Env.trace (Page.env p') = Env.trace (Page.env p) ++ rest /\
    no_init rest = true.

(** the steps of init *)
Inductive init_step :=
| acquire_scene
| acquire_camera
| acquire_renderer
| add_light (name : string)
| acquire_controls
| subscribe (ty : string).

Definition performs (a : addr) (st : init_step) (c : call) : bool :=
  match st, c with
  | acquire_scene, new_Scene a' => Nat.eqb a' a
  | acquire_camera, new_PerspectiveCamera a' => Nat.eqb a' a
  | acquire_renderer, new_WebGLRenderer a' => Nat.eqb a' a
  | add_light name, scene_add a' (Scene.light l) =>
      Nat.eqb a' a && String.eqb (Light.name l) name
  | acquire_controls, new_OrbitControls a' => Nat.eqb a' a
  | subscribe ty, addEventListener l =>
      String.eqb (type l) ty &&
      match callback l with
      | bound _ a' _ => Nat.eqb a' a
      | _ => false
      end
  | _, _ => false
  end.

(* the second document of part_000 has no rim light *)
Definition init_steps (rev : revision) : list init_step :=
  [acquire_scene; acquire_camera; acquire_renderer; add_light "ambientLight";
   add_light "dirLight"; add_light "fillLight"]
  ++ (if debugging rev then [] else [add_light "rimLight"])
  ++ [acquire_controls; subscribe "resize"; subscribe "visibilitychange"].

(* each step of init once, and no other such call *)
Definition once_each (rev : revision) (a : addr) (calls : list call) : Prop :=
  Forall (fun st => count (performs a st) calls = 1) (init_steps rev) /\
  count init_effect calls = length (init_steps rev).

(** what the first call for an id leaves behind *)
Definition created (rev : revision) (a : addr) (p p' : Page.t)
    (canvasId : string) : Prop :=
  Page.viewers p' !! canvasId = Some a /\
  (exists v, Page.objects p' !! a = Some v /\ ModelViewer.isInitialized v = true) /\
  exists calls,
    Env.trace (Page.env p') = Env.trace (Page.env p) ++ calls /\
    once_each rev a calls.

(** ** Example data *)

Definition example_box : Container.t :=
  {| Container.clientWidth := 640; Container.clientHeight := 480;
     Container.offsetWidth := 640; Container.offsetHeight := 480;
     Container.loading := None; Container.error := None;
     Container.placeholder := Some false |}.

(* a container that is not laid out yet, but has an offset size *)
Definition unmeasured_box : Container.t :=
  {| Container.clientWidth := 0; Container.clientHeight := 0;
     Container.offsetWidth := 300; Container.offsetHeight := 150;
     Container.loading := None; Container.error := None;
     Container.placeholder := None |}.

Definition example_canvas (box : Container.t) : Canvas.t :=
  {| Canvas.clientWidth := 300; Canvas.clientHeight := 150;
     Canvas.style_width := None; Canvas.style_height := None;
     Canvas.active := false;
     Canvas.parentElement := Some box |}.

Definition example_env (mobile : bool) (box : Container.t) : Env.t :=
  {| Env.THREE := true; Env.GLTFLoader := true; Env.OrbitControls := true;
     Env.WebGL := true; Env.mobile := mobile; Env.devicePixelRatio := 2;
     Env.hidden := false;
     Env.document := {[ "viewer" := example_canvas box ]};
     Env.listeners := []; Env.next_function := 0;
     Env.frames := []; Env.next_frame := 1;
     Env.trace := [] |}.

Definition example_material (map : jsval) (normalMap : option texture) :
    Material.t :=
  {| Material.map := map; Material.normalMap := normalMap;
     Material.roughnessMap := None; Material.metalnessMap := None;
     Material.wireframe := false; Material.color := 0xffffff;
     Material.needsUpdate := false |}.

Definition example_mesh (g : geometry) (r : material_ref) : Object3D.t :=
  {| Object3D.isMesh := true; Object3D.geometry := Some g;
     Object3D.material := r;
     Object3D.castShadow := false; Object3D.receiveShadow := false;
     Object3D.userData_originalMap := None |}.

Definition example_group : Object3D.t :=
  {| Object3D.isMesh := false; Object3D.geometry := None;
     Object3D.material := no_material;
     Object3D.castShadow := false; Object3D.receiveShadow := false;
     Object3D.userData_originalMap := None |}.

(* a group, two meshes that share material 1, and a mesh with an array *)
Definition example_model (id : nat) : Model.t :=
  {| Model.id := id;
     Model.scale := Vector3.mk 1 1 1;
     Model.position := Vector3.mk 0 0 0;
     Model.box_center := Vector3.mk 0 1 0;
     Model.box_size := Vector3.mk 2 4 1;
     Model.nodes :=
       [example_group;
        example_mesh 10 (single 1);
        example_mesh 11 (single 1);
        example_mesh 12 (multi (MaterialArray.mk [1; 2] None None None None))];
     Model.materials :=
       {[ 1 := example_material (js_texture 5) (Some 6);
          2 := example_material js_null None ]} |}.

(* a model whose bounding box is a point *)
Definition point_model : Model.t :=
  {| Model.id := 7;
     Model.scale := Vector3.mk 1 1 1;
     Model.position := Vector3.mk 0 0 0;
     Model.box_center := Vector3.mk 0 0 0;
     Model.box_size := Vector3.mk 0 0 0;
     Model.nodes := [example_group];
     Model.materials := ∅ |}.

Definition example_events : list event :=
  [call_loadModel "first.glb"; loaded (example_model 1);
   call_setViewMode "solid";
   call_loadModel "second.glb"; loaded (example_model 2)].

(** the text of the loading overlay of a canvas *)
Definition loading_percent (e : Env.t) (canvasId : string) : option float :=
  canvas ← Env.document e !! canvasId;
  box ← Canvas.parentElement canvas;
  Container.loading box.

(** ** C5 *)

(* a mobile viewer on which two fingers, 100 px apart, have been put down *)
Definition pinching : ModelViewer.state :=
  run js_model_viewer 0 [touch_start [(0, 0); (100, 0)]%float]
    (start js_model_viewer 0 "viewer" (example_env true example_box)).

Definition example_camera : Camera.t :=
  {| Camera.fov := 50; Camera.aspect := 2; Camera.near := 0.1;
     Camera.far := 1000; Camera.position := Vector3.mk 0 1 3 |}.

Definition example_controls : Controls.t :=
  {| Controls.enableDamping := true; Controls.dampingFactor := 0.05;
     Controls.minDistance := 1; Controls.maxDistance := 10;
     Controls.enablePan := false; Controls.autoRotate := false;
     Controls.autoRotateSpeed := 2; Controls.rotateSpeed := 0.5;
     Controls.zoomSpeed := 0.8 |}.

(* a viewer during a touch: two fingers were put down 100 px apart *)
Definition touched : ModelViewer.t :=
  ModelViewer.set_touchStartDistance 100
    (ModelViewer.set_isTouch true
       (ModelViewer.set_controls (Some example_controls)
          (ModelViewer.set_camera (Some example_camera)
             (ModelViewer.new "viewer" (example_env true example_box))))).

Definition unsized_box : Container.t :=
  {| Container.clientWidth := 0; Container.clientHeight := 0;
     Container.offsetWidth := 0; Container.offsetHeight := 0;
     Container.loading := None; Container.error := None;
     Container.placeholder := None |}.

(** ** The theorems at concrete inputs *)

(* the model that the success handler made of example_model 1 *)
Definition attached_model : Model.t :=
  ModelViewer.setup_materials false
    (ModelViewer.normalize js_model_viewer (example_model 1)).

(* a viewer whose current model is attached to its scene *)
Definition attached_viewer : ModelViewer.t :=
  ModelViewer.set_model (Some attached_model)
    (ModelViewer.set_scene (Some (Scene.mk 0x0a0e27 [Scene.model 1]))
       (ModelViewer.new "viewer" (example_env false example_box))).

Definition empty_page : Page.t :=
  {| Page.viewers := ∅; Page.objects := ∅; Page.next_object := 0;
     Page.env := example_env false example_box |}.

(* a page on which a canvas has the id "constructor" *)
Definition constructor_page : Page.t :=
  {| Page.viewers := ∅; Page.objects := ∅; Page.next_object := 0;
     Page.env :=
       Env.set_document {[ "constructor" := example_canvas example_box ]}
         (example_env false example_box) |}.

Definition loaded_viewer : ModelViewer.t :=
  ModelViewer.set_model
    (Some (ModelViewer.setup_materials false
             (ModelViewer.normalize js_model_viewer (example_model 1))))
    (ModelViewer.new "viewer" (example_env false example_box)).

(* the page after a model was loaded into the viewer of "viewer" *)
Definition loaded_state : ModelViewer.state :=
  run js_model_viewer 0 example_events
    (start js_model_viewer 0 "viewer" (example_env false example_box)).

Definition loaded_page : Page.t :=
  {| Page.viewers := {[ "viewer" := 0 ]};
     Page.objects := {[ 0 := fst loaded_state ]};
     Page.next_object := 1;
     Page.env := snd loaded_state |}.

(** ** The render loop: never two frames at once *)

(** what the render loop consists of: the handle the viewer holds and the
    callbacks the browser has queued *)
Definition loop (s : ModelViewer.state) : option positive * list (positive * addr) :=
  (ModelViewer.animationId (fst s), Env.frames (snd s)).

Definition one_loopC (a : addr) (l : option positive * list (positive * addr)) :
    Prop :=
  let handles := List.map fst (List.filter (fun f => Nat.eqb (snd f) a) (snd l)) in
  handles = [] \/ exists h, fst l = Some h /\ handles = [h].

(** no frame is queued for the viewer, or one, and the viewer holds its
    handle *)
Definition one_loop (a : addr) (s : ModelViewer.state) : Prop :=
  one_loopC a (loop s).

(** ** Events that leave the model alone *)

(** the events that neither deliver a model nor touch the render loop *)
Definition passive (ev : event) : bool :=
  match ev with
  | call_loadModel _ | progress _ _ | failed | resize
  | touch_start _ | touch_move _ | touch_end => true
  | _ => false
  end.

(* In the second document of part_000 loadModel first takes the test cube
   of init out of the scene. *)
Definition drops_cube (rev : revision) (ev : event) (v : ModelViewer.t) : bool :=
  match ev with
  | call_loadModel _ => debugging rev && ModelViewer.testCube v
  | _ => false
  end.

Definition scene_of (s : ModelViewer.state) : option Scene.t :=
  ModelViewer.scene (fst s).

(** ** The render loop body *)

Definition renders (a : addr) (c : call) : bool :=
  match c with
  | renderer_render a' | controls_update a' => Nat.eqb a' a
  | _ => false
  end.

(* what showLoading does to a canvas that is in the document *)
Definition with_loading (l : option float) (id : string) (canvas : Canvas.t)
    (box : Container.t) (e : Env.t) : Env.t :=
  Env.set_document
    (<[id := Canvas.set_parentElement (Some (Container.set_loading l box)) canvas]>
       (Env.document e)) e.

(** ** init when the renderer cannot be created *)

(** the error message shown in the container of a canvas *)
Definition error_message (e : Env.t) (canvasId : string) : option string :=
  canvas ← Env.document e !! canvasId;
  box ← Canvas.parentElement canvas;
  Container.error box.

Definition report (c : call) : bool :=
  match c with console _ | alert _ => true | _ => false end.

(** ** loadModel without the loader *)

Definition starts_load (c : call) : bool :=
  match c with GLTFLoader_load _ _ => true | _ => false end.

Definition gray : Z := 0x808080.

(* the Material [id] is there and is gray *)
Definition grayed (store : material_store) (id : material_id) : Prop :=
  exists mat, store !! id = Some mat /\ Material.color mat = gray.

(* the Material [id] had a map when the model was delivered *)
Definition textured_at_load (store0 : material_store) (id : material_id) : Prop :=
  exists mat0, store0 !! id = Some mat0 /\ truthy (Material.map mat0) = true.

(* it still has that map, or it is gray *)
Definition map_or_gray (store0 store : material_store) : Prop :=
  forall id mat0, store0 !! id = Some mat0 -> truthy (Material.map mat0) = true ->
    (exists mat, store !! id = Some mat /\ Material.map mat = Material.map mat0)
    \/ grayed store id.

(* [id] is not the material of the node *)
Definition not_material_of (id : material_id) (child : Object3D.t) : Prop :=
  Object3D.isMesh child = true -> Object3D.material child <> single id.

(** ** Subscriptions *)

(** the listeners on the page, and the two functions the viewer subscribed *)
Definition subs (s : ModelViewer.state) : list listener * fnref * fnref :=
  (Env.listeners (snd s), ModelViewer.handleResize_fn (fst s),
   ModelViewer.handleVisibilityChange_fn (fst s)).

Definition resize_listener (a : addr) : listener -> bool :=
  listens a "resize" "handleResize".

Definition visibility_listener (a : addr) : listener -> bool :=
  listens a "visibilitychange" "handleVisibilityChange".

(* the only subscriptions of viewer [a] to resize and visibilitychange are
   the two it would remove *)
Definition own_subsC (a : addr) (x : list listener * fnref * fnref) : Prop :=
  let '(ls, on_resize, on_visibility) := x in
  forall l, In l ls ->
    (resize_listener a l = true -> l = mk_listener "window" "resize" on_resize) /\
    (visibility_listener a l = true ->
     l = mk_listener "document" "visibilitychange" on_visibility).

Definition own_subs (a : addr) (s : ModelViewer.state) : Prop :=
  own_subsC a (subs s).

Definition unsubscribed (a : addr) (e : Env.t) : Prop :=
  forall l, In l (Env.listeners e) ->
    resize_listener a l = false /\ visibility_listener a l = false.

Definition cleanC (a : addr) (x : list listener * fnref * fnref) : Prop :=
  forall l, In l (fst (fst x)) ->
    resize_listener a l = false /\ visibility_listener a l = false.

(** ** Leaving the page *)

Definition is_released (v : ModelViewer.t) : Prop :=
  ModelViewer.scene v = None /\ ModelViewer.camera v = None /\
  ModelViewer.renderer v = None /\ ModelViewer.controls v = None /\
  ModelViewer.model v = None.

(* the object at [a] is a viewer whose model, if any, can be released *)
Definition disposable (p : Page.t) (a : addr) : Prop :=
  exists v, Page.objects p !! a = Some v /\
    forall m, ModelViewer.model v = Some m -> well_typed m = true.

Definition disposed (p : Page.t) (a : addr) : Prop :=
  exists v, Page.objects p !! a = Some v /\ is_released v.

(* a viewer of the second document of part_000 that still has its test cube *)
Definition cube_viewer : ModelViewer.t :=
  ModelViewer.set_testCube true
    (ModelViewer.set_scene (Some (Scene.mk 0x0a0e27 [Scene.test_cube]))
       (ModelViewer.new "viewer" (example_env false example_box))).

Definition ready_viewer (box : Container.t) : ModelViewer.t :=
  ModelViewer.set_renderer
    (Some {| Renderer.size := None; Renderer.pixelRatio := 2;
             Renderer.antialias := true;
             Renderer.powerPreference := "high-performance";
             Renderer.shadowMap_enabled := true;
             Renderer.toneMappingExposure := 1.2 |})
    (ModelViewer.set_camera (Some example_camera)
       (ModelViewer.new "viewer" (example_env false box))).

Definition loading_box : Container.t :=
  Container.set_loading (Some 50%float) example_box.

Definition loading_viewer : ModelViewer.t :=
  ModelViewer.set_scene (Some (Scene.mk 0x0a0e27 [])) (ready_viewer loading_box).

Definition without_WebGL (box : Container.t) : Env.t :=
  {| Env.THREE := true; Env.GLTFLoader := true; Env.OrbitControls := true;
     Env.WebGL := false; Env.mobile := false; Env.devicePixelRatio := 1;
     Env.hidden := false;
     Env.document := {[ "viewer" := example_canvas box ]};
     Env.listeners := []; Env.next_function := 0;
     Env.frames := []; Env.next_frame := 1;
     Env.trace := [] |}.

(* the page after a load3DModel whose init failed for want of WebGL *)
Definition failed_page : Page.t :=
  state_of (Page.load3DModel part_000_first "viewer" "a.glb" false
              {| Page.viewers := ∅; Page.objects := ∅; Page.next_object := 0;
                 Page.env := without_WebGL example_box |}).

Definition without_three : Page.t :=
  {| Page.viewers := ∅; Page.objects := ∅; Page.next_object := 0;
     Page.env :=
       {| Env.THREE := false; Env.GLTFLoader := false; Env.OrbitControls := false;
          Env.WebGL := true; Env.mobile := false; Env.devicePixelRatio := 1;
          Env.hidden := false;
          Env.document := {[ "viewer" := example_canvas example_box ]};
          Env.listeners := []; Env.next_function := 0;
          Env.frames := []; Env.next_frame := 1;
          Env.trace := [] |} |}.

(* a model with a Mesh that has no material *)
Definition bare_model : Model.t :=
  {| Model.id := 3;
     Model.scale := Vector3.mk 1 1 1;
     Model.position := Vector3.mk 0 0 0;
     Model.box_center := Vector3.mk 0 0 0;
     Model.box_size := Vector3.mk 1 1 1;
     Model.nodes := [example_mesh 10 (single 1); example_mesh 11 no_material];
     Model.materials := {[ 1 := example_material (js_texture 5) None ]} |}.




Definition without_loader (box : Container.t) : Env.t :=
  {| Env.THREE := true; Env.GLTFLoader := false; Env.OrbitControls := true;
     Env.WebGL := true; Env.mobile := false; Env.devicePixelRatio := 1;
     Env.hidden := false;
     Env.document := {[ "viewer" := example_canvas box ]};
     Env.listeners := []; Env.next_function := 0;
     Env.frames := []; Env.next_frame := 1;
     Env.trace := [] |}.

(** * Proofs *)

Section Keeps.

Context {S X : Type} (pi : S -> X).

Lemma keeps_ret {A} (a : A) : keeps pi (ret a).
Proof. intros s; reflexivity. Qed.

Lemma keeps_throw {A} (e : string) : keeps pi (@throw S A e).
Proof. intros s; reflexivity. Qed.

Lemma keeps_bind {A B} (m : M S A) (k : A -> M S B) :
  keeps pi m -> (forall a, keeps pi (k a)) -> keeps pi (bind m k).
Proof.
  intros Hm Hk s. unfold bind. specialize (Hm s).
  destruct (m s) as [a s'|e s']; simpl in *.
  - rewrite Hk. exact Hm.
  - exact Hm.
Qed.

Lemma keeps_try_catch {A} (m h : M S A) :
  keeps pi m -> keeps pi h -> keeps pi (try_catch m h).
Proof.
  intros Hm Hh s. unfold try_catch. specialize (Hm s).
  destruct (m s) as [a s'|e s']; simpl in *.
  - exact Hm.
  - rewrite Hh. exact Hm.
Qed.

Lemma keeps_when (b : bool) (m : M S unit) :
  keeps pi m -> keeps pi (when b m).
Proof. destruct b; simpl; auto using keeps_ret. Qed.

Lemma keeps_forEach {A} (f : A -> M S unit) (l : list A) :
  (forall a, keeps pi (f a)) -> keeps pi (ModelViewer.forEach f l).
Proof.
  intros Hf. induction l as [|a l IH]; simpl.
  - apply keeps_ret.
  - apply keeps_bind; auto.
Qed.

Lemma keeps_get : keeps pi get.
Proof. intros s; reflexivity. Qed.

End Keeps.

Ltac keeps_leaf :=
  let s := fresh "s" in
  intros s; destruct s as [? ?]; reflexivity.

Create HintDb keeps.

Ltac keeps_step :=
  lazymatch goal with
  | |- keeps _ (bind _ _) => apply keeps_bind; [| intros ?]
  | |- keeps _ (ret _) => apply keeps_ret
  | |- keeps _ (throw _) => apply keeps_throw
  | |- keeps _ (when _ _) => apply keeps_when
  | |- keeps _ (try_catch _ _) => apply keeps_try_catch
  | |- keeps _ (ModelViewer.forEach _ _) => apply keeps_forEach; intros ?
  | |- keeps _ (match ?x with _ => _ end) => destruct x
  | |- keeps _ _ => first [ solve [auto with keeps] | keeps_leaf ]
  end.

Ltac keeps_auto := repeat keeps_step.

Lemma keeps_the_canvas : keeps core ModelViewer.the_canvas.
Proof. unfold ModelViewer.the_canvas. keeps_auto. Qed.

#[export] Hint Resolve keeps_the_canvas : keeps.

Lemma keeps_the_container : keeps core ModelViewer.the_container.
Proof. unfold ModelViewer.the_container. keeps_auto. Qed.

#[export] Hint Resolve keeps_the_container : keeps.

Lemma keeps_update_canvas f : keeps core (ModelViewer.update_canvas f).
Proof. unfold ModelViewer.update_canvas. keeps_auto. Qed.

#[export] Hint Resolve keeps_update_canvas : keeps.

Lemma keeps_update_container f : keeps core (ModelViewer.update_container f).
Proof. unfold ModelViewer.update_container. keeps_auto. Qed.

#[export] Hint Resolve keeps_update_container : keeps.

Lemma keeps_showLoading b : keeps core (ModelViewer.showLoading b).
Proof. unfold ModelViewer.showLoading. keeps_auto. Qed.

Lemma keeps_handleResize rev a : keeps core (ModelViewer.handleResize rev a).
Proof. unfold ModelViewer.handleResize, ModelViewer.measure_container. keeps_auto. Qed.

#[export] Hint Resolve keeps_showLoading keeps_handleResize : keeps.

Lemma keeps_updateLoadingProgress p : keeps core (ModelViewer.updateLoadingProgress p).
Proof. unfold ModelViewer.updateLoadingProgress. keeps_auto. Qed.

Lemma keeps_showError msg : keeps core (ModelViewer.showError msg).
Proof. unfold ModelViewer.showError. keeps_auto. Qed.

#[export] Hint Resolve keeps_updateLoadingProgress keeps_showError : keeps.

Lemma keeps_onProgress rev l t : keeps core (ModelViewer.onProgress rev l t).
Proof. unfold ModelViewer.onProgress. keeps_auto. Qed.

Lemma keeps_onError rev : keeps core (ModelViewer.onError rev).
Proof. unfold ModelViewer.onError. keeps_auto. Qed.

Lemma keeps_touchstart ts : keeps core (ModelViewer.touchstart ts).
Proof. unfold ModelViewer.touchstart. keeps_auto. Qed.

Lemma keeps_touchmove ts : keeps core (ModelViewer.touchmove ts).
Proof. unfold ModelViewer.touchmove. keeps_auto. Qed.

Lemma keeps_touchend : keeps core ModelViewer.touchend.
Proof. unfold ModelViewer.touchend. keeps_auto. Qed.

Lemma keeps_listen l : keeps core (ModelViewer.listen l).
Proof. keeps_leaf. Qed.

Lemma keeps_unlisten l : keeps core (ModelViewer.unlisten l).
Proof. keeps_leaf. Qed.

Lemma keeps_fresh_function : keeps core ModelViewer.fresh_function.
Proof. unfold ModelViewer.fresh_function. keeps_auto. Qed.

#[export] Hint Resolve keeps_listen keeps_unlisten keeps_fresh_function : keeps.

Lemma keeps_dispatch a ty name h :
  keeps core h -> keeps core (dispatch a ty name h).
Proof. intros H. unfold dispatch. keeps_auto. Qed.

Lemma models_in_app l l' : models_in (l ++ l') = models_in l ++ models_in l'.
Proof. unfold models_in. apply flat_map_app. Qed.

Lemma models_in_remove_other o children :
  Scene.is_model o = false ->
  models_in (List.filter (fun c => negb (Scene.same_object o c)) children) = models_in children.
Proof.
  intros Ho. induction children as [|c cs IH]; simpl; [reflexivity|].
  destruct o, c; simpl in *; try discriminate; rewrite ?IH; reflexivity.
Qed.

Section Hoare.

Context {S : Type}.

Implicit Types P E : S -> Prop.

Lemma hoare_bind {A B} P (m : M S A) (R : A -> S -> Prop)
    (k : A -> M S B) (Q : B -> S -> Prop) E :
  hoare P m R E -> (forall a, hoare (R a) (k a) Q E) -> hoare P (bind m k) Q E.
Proof.
  intros Hm Hk s HP. unfold bind. specialize (Hm s HP).
  destruct (m s) as [a s'|e s']; [apply Hk|]; assumption.
Qed.

Lemma hoare_ret {A} P (a : A) (Q : A -> S -> Prop) E :
  (forall s, P s -> Q a s) -> hoare P (ret a) Q E.
Proof. intros H s HP. simpl. auto. Qed.

Lemma hoare_throw {A} P msg (Q : A -> S -> Prop) E :
  (forall s, P s -> E s) -> hoare P (throw msg) Q E.
Proof. intros H s HP. simpl. auto. Qed.

Lemma hoare_weaken {A} P P' (m : M S A) (Q Q' : A -> S -> Prop) E E' :
  hoare P m Q E ->
  (forall s, P' s -> P s) -> (forall a s, Q a s -> Q' a s) ->
  (forall s, E s -> E' s) -> hoare P' m Q' E'.
Proof.
  intros H HP HQ HE s Hs. specialize (H s (HP s Hs)).
  destruct (m s); auto.
Qed.

Lemma hoare_modify P (f : S -> S) (Q : unit -> S -> Prop) E :
  (forall s, P s -> Q tt (f s)) -> hoare P (modify f) Q E.
Proof. intros H s HP. simpl. auto. Qed.

(* what a computation keeps, it keeps under any condition on it *)
Lemma hoare_keeps {A X} (pi : S -> X) (m : M S A) (I : X -> Prop) :
  keeps pi m ->
  hoare (fun s => I (pi s)) m (fun _ s => I (pi s)) (fun s => I (pi s)).
Proof.
  intros K s HI. specialize (K s).
  destruct (m s); simpl in K; rewrite K; exact HI.
Qed.

Lemma hoare_forEach {A} (I : S -> Prop) (f : A -> M S unit) (l : list A) :
  (forall a, hoare I (f a) (fun _ => I) I) ->
  hoare I (ModelViewer.forEach f l) (fun _ => I) I.
Proof.
  intros Hf. induction l as [|a l IH]; simpl.
  - apply hoare_ret; auto.
  - eapply hoare_bind; [apply Hf|]. intros ?. exact IH.
Qed.

Lemma hoare_state_of {A} P (m : M S A) (Q : S -> Prop) :
  hoare P m (fun _ => Q) Q -> forall s, P s -> Q (state_of (m s)).
Proof. intros H s HP. specialize (H s HP). destruct (m s); exact H. Qed.

End Hoare.

Lemma Inv_core a s : Inv a s <-> InvC a (core s).
Proof. destruct s as [v e]. reflexivity. Qed.

Lemma keeps_Inv {A} a (m : M ModelViewer.state A) :
  keeps core m -> hoare (Inv a) m (fun _ => Inv a) (Inv a).
Proof.
  intros K. eapply hoare_weaken; [apply (hoare_keeps core m (InvC a) K)|..];
    intros; apply Inv_core; assumption.
Qed.

Lemma scheduled_nil a e :
  scheduled a e = [] <-> forall h, ~ In (h, a) (Env.frames e).
Proof.
  unfold scheduled. split.
  - intros H h Hin.
    assert (In (h, a) (List.filter (fun f => Nat.eqb (snd f) a) (Env.frames e))) as Hf.
    { apply filter_In. split; [exact Hin|]. simpl. apply Nat.eqb_refl. }
    destruct (List.filter _ _); [destruct Hf | discriminate].
  - intros H. destruct (List.filter _ _) as [|[h a'] l] eqn:E; [reflexivity|].
    assert (In (h, a') ((h, a') :: l)) as Hin by (left; reflexivity).
    rewrite <- E in Hin. apply filter_In in Hin. destruct Hin as [Hin Ha].
    simpl in Ha. apply Nat.eqb_eq in Ha. subst. destruct (H h Hin).
Qed.

Lemma In_unqueue h h' a fs :
  In (h', a) (ModelViewer.unqueue h fs) <-> In (h', a) fs /\ h' <> h.
Proof.
  unfold ModelViewer.unqueue. rewrite filter_In. simpl.
  rewrite negb_true_iff, Pos.eqb_neq. reflexivity.
Qed.

(** scene *)
Lemma keeps_scene_add_other a o :
  Scene.is_model o = false -> keeps core (ModelViewer.scene_add_ a o).
Proof.
  intros Ho [v e]. unfold ModelViewer.scene_add_.
  unfold bind, ModelViewer.this. simpl.
  destruct (ModelViewer.scene v) as [sc|] eqn:Hsc; simpl; [|reflexivity].
  unfold core, attached. simpl. rewrite Hsc.
  rewrite models_in_app, models_in_remove_other by exact Ho.
  destruct o; simpl in *; try discriminate; rewrite app_nil_r; reflexivity.
Qed.

Lemma keeps_scene_remove_other a o :
  Scene.is_model o = false -> keeps core (ModelViewer.scene_remove_ a o).
Proof.
  intros Ho [v e]. unfold ModelViewer.scene_remove_.
  unfold bind, ModelViewer.this. simpl.
  destruct (ModelViewer.scene v) as [sc|] eqn:Hsc; simpl; [|reflexivity].
  unfold core, attached. simpl. rewrite Hsc.
  rewrite models_in_remove_other by exact Ho. reflexivity.
Qed.

Lemma models_in_remove_model i children :
  models_in (List.filter (fun c => negb (Scene.same_object (Scene.model i) c)) children)
  = List.filter (fun j => negb (Nat.eqb i j)) (models_in children).
Proof.
  induction children as [|c cs IH]; simpl; [reflexivity|].
  destruct c as [l| |j]; simpl; try exact IH.
  destruct (Nat.eqb i j) eqn:E; simpl; rewrite ?E; simpl; [exact IH | f_equal; exact IH].
Qed.

(** the render loop *)
Lemma animate_spec a v e :
  exists e',
    ModelViewer.animate a (v, e) =
      Return tt (ModelViewer.set_animationId (Some (Env.next_frame e)) v, e') /\
    Env.frames e' = Env.frames e ++ [(Env.next_frame e, a)] /\
    Env.hidden e' = Env.hidden e /\
    Env.listeners e' = Env.listeners e.
Proof.
  unfold ModelViewer.animate, ModelViewer.request_frame.
  unfold bind, ret, ModelViewer.env, ModelViewer.this, ModelViewer.update,
    ModelViewer.update_env, ModelViewer.log, modify. simpl.
  destruct (Env.hidden e) eqn:Hh; simpl.
  - eexists; split; [reflexivity|]. simpl. auto.
  - destruct (ModelViewer.controls v); simpl;
      destruct (ModelViewer.renderer v); simpl;
      try destruct (ModelViewer.scene v); simpl;
      try destruct (ModelViewer.camera v); simpl;
      (eexists; split; [reflexivity|]; simpl; auto).
Qed.

Lemma animate_Inv a :
  hoare (fun s => Inv a s /\ scheduled a (snd s) = []) (ModelViewer.animate a)
        (fun _ => Inv a) (Inv a).
Proof.
  intros [v e] [(Hl & Ha & Ht) Hs]. simpl in Hs.
  destruct (animate_spec a v e) as (e' & -> & Hf & _).
  rewrite scheduled_nil in Hs.
  split; [|split].
  - intros h. simpl. rewrite Hf, in_app_iff. intros [Hin|[Heq|[]]].
    + destruct (Hs h Hin).
    + inversion Heq. reflexivity.
  - exact Ha.
  - exact Ht.
Qed.

Lemma handleVisibilityChange_Inv a :
  hoare (Inv a) (ModelViewer.handleVisibilityChange a) (fun _ => Inv a) (Inv a).
Proof.
  intros [v e] HI. unfold ModelViewer.handleVisibilityChange.
  unfold bind at 1 2. unfold ModelViewer.this, ModelViewer.env. simpl.
  destruct (Env.hidden e) eqn:Hh, (ModelViewer.animationId v) as [h|] eqn:Hid;
    try destruct (ModelViewer.model v) eqn:Hm; try exact HI.
  1,2: destruct HI as (Hl & Ha & Ht); split; [|split]; try assumption;
       intros h' Hin; simpl in *; apply In_unqueue in Hin as [Hin Hne];
       apply Hl in Hin; simpl in Hin; congruence.
  apply (animate_Inv a (v, e)). split; [exact HI|].
  apply scheduled_nil. intros h Hin. destruct HI as (Hl & _).
  apply Hl in Hin. simpl in Hin. congruence.
Qed.

(** walking *)
Lemma keeps_traverse {S X} (pi : S -> X) (cb : Object3D.t -> M S Object3D.t) :
  (forall child, keeps pi (cb child)) ->
  forall nodes s, pi (state_of (snd (ModelViewer.traverse cb nodes s))) = pi s.
Proof.
  intros Hcb nodes. induction nodes as [|child rest IH]; intros s; simpl.
  - reflexivity.
  - specialize (Hcb child s). destruct (cb child s) as [c' s'|e s']; simpl in *.
    + rewrite IH. exact Hcb.
    + exact Hcb.
Qed.

Lemma keeps_disposeMaterial_at store id :
  keeps core (ModelViewer.disposeMaterial_at store id).
Proof.
  unfold ModelViewer.disposeMaterial_at, ModelViewer.disposeMaterial,
    ModelViewer.dispose_texture.
  keeps_auto.
Qed.

#[export] Hint Resolve keeps_disposeMaterial_at : keeps.

Lemma keeps_disposeModel m : keeps core (ModelViewer.disposeModel m).
Proof.
  intros s. unfold ModelViewer.disposeModel. apply keeps_traverse.
  intros child. unfold ModelViewer.disposeModel_child. keeps_auto.
Qed.

#[export] Hint Resolve keeps_disposeModel : keeps.

Lemma dispose_Inv a :
  hoare (Inv a) (ModelViewer.dispose a) (fun _ => Inv a) (Inv a).
Proof.
  unfold ModelViewer.dispose.
  eapply hoare_bind with (R := fun v s => Inv a s).
  { intros [v e] HI. exact HI. }
  intros v0.
  eapply hoare_bind with (R := fun _ s => Inv a s).
  { destruct (ModelViewer.animationId v0) as [h|].
    - intros [v e] (Hl & Ha & Ht). split; [|split]; try assumption.
      intros h' Hin. simpl in *. apply In_unqueue in Hin as [Hin _]. auto.
    - apply hoare_ret; auto. }
  intros ?.
  eapply hoare_bind; [apply keeps_Inv; auto with keeps|]. intros ?.
  eapply hoare_bind; [apply keeps_Inv; auto with keeps|]. intros ?.
  eapply hoare_bind with (R := fun _ s => Inv a s).
  { apply keeps_Inv. destruct (ModelViewer.model v0); keeps_auto. }
  intros ?.
  eapply hoare_bind with (R := fun _ s => Inv a s).
  { apply keeps_Inv. destruct (ModelViewer.renderer v0); keeps_auto. }
  intros ?.
  eapply hoare_bind with (R := fun _ s => Inv a s).
  { apply keeps_Inv. destruct (ModelViewer.controls v0); keeps_auto. }
  intros ?.
  intros [v e] (Hl & Ha & Ht). split; [|split].
  - exact Hl.
  - left. reflexivity.
  - intros m Hm. discriminate.
Qed.

Lemma well_typed_iff m :
  well_typed m = true <-> typed_store (Model.materials m) /\ typed_nodes (Model.nodes m).
Proof.
  unfold well_typed, typed_store, typed_nodes.
  rewrite andb_true_iff, !forallb_forall, Forall_forall.
  split; intros [Hs Hn]; (split; [|intros x Hx; apply Hn; apply list_elem_of_In; exact Hx
                                   || (apply Hn; apply list_elem_of_In in Hx; exact Hx)]).
  - intros id mat Hl. apply elem_of_map_to_list in Hl. apply list_elem_of_In in Hl.
    apply Hs in Hl. simpl in Hl. apply negb_true_iff in Hl. exact Hl.
  - intros [id mat] Hin. apply list_elem_of_In, elem_of_map_to_list in Hin.
    simpl. apply negb_true_iff. eauto.
Qed.

Lemma typed_store_alter (f : Material.t -> Material.t) id store :
  typed_store store ->
  (forall mat, is_function (Material.map mat) = false ->
               is_function (Material.map (f mat)) = false) ->
  typed_store (alter f id store).
Proof.
  intros Hs Hf id' mat'. rewrite lookup_alter.
  destruct (decide (id = id')) as [->|Hne].
  - destruct (store !! id') as [mat|] eqn:E; simpl; [|discriminate].
    intros [= <-]. eauto.
  - apply Hs.
Qed.

Lemma assign_typed f g child store :
  typed_store store -> well_typed_child child = true ->
  (forall mat, is_function (Material.map mat) = false ->
               is_function (Material.map (f mat)) = false) ->
  match ModelViewer.assign f g child store with
  | Return child' store' =>
      typed_store store' /\ well_typed_child child' = true /\
      Object3D.userData_originalMap child' = Object3D.userData_originalMap child /\
      (forall m, Object3D.material child' = single m <-> Object3D.material child = single m)
  | Throw _ store' => typed_store store'
  end.
Proof.
  intros Hs Hc Hf. unfold ModelViewer.assign.
  destruct (Object3D.material child) as [|m|arr] eqn:Hm; simpl.
  - exact Hs.
  - split; [apply typed_store_alter; assumption|]. rewrite Hm. tauto.
  - split; [exact Hs|]. unfold well_typed_child. simpl.
    split; [reflexivity|]. split; [reflexivity|]. intros m. split; discriminate.
Qed.

Lemma setViewMode_child_typed mode child store :
  typed_store store -> well_typed_child child = true ->
  match ModelViewer.setViewMode_child mode child store with
  | Return child' store' => typed_store store' /\ well_typed_child child' = true
  | Throw _ store' => typed_store store'
  end.
Proof.
  intros Hs Hc. unfold ModelViewer.setViewMode_child.
  destruct (negb (Object3D.isMesh child)); [simpl; auto|].
  assert (forall b mat, is_function (Material.map mat) = false ->
            is_function (Material.map (Material.set_wireframe b mat)) = false) as Hw
    by (intros; assumption).
  assert (forall b mat, is_function (Material.map mat) = false ->
            is_function (Material.map (Material.set_needsUpdate b mat)) = false) as Hn
    by (intros; assumption).
  assert (forall c mat, is_function (Material.map mat) = false ->
            is_function (Material.map (Material.set_color c mat)) = false) as Hcol
    by (intros; assumption).
  destruct (String.eqb mode "wireframe").
  { pose proof (assign_typed (Material.set_wireframe true)
                  (MaterialArray.set_wireframe true) child store Hs Hc (Hw true)) as H.
    destruct (ModelViewer.assign _ _ child store); tauto. }
  destruct (String.eqb mode "solid").
  - unfold bind at 1.
    pose proof (assign_typed (Material.set_wireframe false)
                  (MaterialArray.set_wireframe false) child store Hs Hc (Hw false)) as H.
    destruct (ModelViewer.assign _ _ child store) as [c1 s1|]; [|exact H].
    destruct H as (Hs1 & Hc1 & _). unfold bind at 1. simpl.
    destruct (truthy _); [|simpl; auto].
    unfold bind at 1.
    pose proof (assign_typed (Material.set_map js_null)
                  (MaterialArray.set_map js_null) c1 s1 Hs1 Hc1 (fun _ _ => eq_refl)) as H.
    destruct (ModelViewer.assign _ _ c1 s1) as [c2 s2|]; [|exact H].
    destruct H as (Hs2 & Hc2 & _). unfold bind at 1.
    pose proof (assign_typed (Material.set_color 8421504)
                  (MaterialArray.set_color 8421504) c2 s2 Hs2 Hc2 (Hcol _)) as H.
    destruct (ModelViewer.assign _ _ c2 s2) as [c3 s3|]; [|exact H].
    destruct H as (Hs3 & Hc3 & _).
    pose proof (assign_typed (Material.set_needsUpdate true)
                  (MaterialArray.set_needsUpdate true) c3 s3 Hs3 Hc3 (Hn _)) as H.
    destruct (ModelViewer.assign _ _ c3 s3); tauto.
  - unfold bind at 1.
    pose proof (assign_typed (Material.set_wireframe false)
                  (MaterialArray.set_wireframe false) child store Hs Hc (Hw false)) as H.
    destruct (ModelViewer.assign _ _ child store) as [c1 s1|]; [|exact H].
    destruct H as (Hs1 & Hc1 & Hu1 & Hm1).
    destruct (Object3D.userData_originalMap c1) as [original|] eqn:Ho; [|simpl; auto].
    destruct (truthy original); [|simpl; auto].
    unfold bind at 1.
    destruct (Object3D.material c1) as [|m|arr] eqn:Hmat.
    + unfold ModelViewer.assign at 1. rewrite Hmat. simpl. exact Hs1.
    + assert (is_function original = false) as Hf.
      { unfold well_typed_child in Hc1. rewrite Hmat, Ho in Hc1.
        apply negb_true_iff in Hc1. exact Hc1. }
      pose proof (assign_typed (Material.set_map original)
                    (MaterialArray.set_map original) c1 s1 Hs1 Hc1 (fun _ _ => Hf)) as H.
      destruct (ModelViewer.assign _ _ c1 s1) as [c2 s2|]; [|exact H].
      destruct H as (Hs2 & Hc2 & _).
      pose proof (assign_typed (Material.set_needsUpdate true)
                    (MaterialArray.set_needsUpdate true) c2 s2 Hs2 Hc2 (Hn _)) as H.
      destruct (ModelViewer.assign _ _ c2 s2); tauto.
    + unfold ModelViewer.assign. rewrite Hmat. simpl. split; [exact Hs1|reflexivity].
Qed.

Lemma traverse_setViewMode_typed mode nodes store :
  typed_store store -> typed_nodes nodes ->
  let r := ModelViewer.traverse (ModelViewer.setViewMode_child mode) nodes store in
  typed_nodes (fst r) /\ typed_store (state_of (snd r)).
Proof.
  revert store. induction nodes as [|child rest IH]; intros store Hs Hn; simpl.
  - split; [constructor | exact Hs].
  - inversion Hn as [|? ? Hc Hrest]; subst.
    pose proof (setViewMode_child_typed mode child store Hs Hc) as H.
    destruct (ModelViewer.setViewMode_child mode child store) as [c' s'|e s']; simpl.
    + destruct H as [Hs' Hc']. destruct (IH s' Hs' Hrest) as [IH1 IH2].
      split; [constructor; assumption | exact IH2].
    + split; [exact Hn | exact H].
Qed.

Lemma applyViewMode_typed mode m :
  well_typed m = true -> well_typed (fst (ModelViewer.applyViewMode mode m)) = true.
Proof.
  rewrite !well_typed_iff. intros [Hs Hn]. unfold ModelViewer.applyViewMode. simpl.
  destruct (traverse_setViewMode_typed mode (Model.nodes m) (Model.materials m) Hs Hn).
  split; assumption.
Qed.

Lemma applyViewMode_id mode m :
  Model.id (fst (ModelViewer.applyViewMode mode m)) = Model.id m.
Proof. reflexivity. Qed.

Opaque ModelViewer.applyViewMode.

Lemma setViewMode_Inv a mode :
  hoare (Inv a) (ModelViewer.setViewMode mode) (fun _ => Inv a) (Inv a).
Proof.
  intros [v e] (Hl & Ha & Ht). unfold ModelViewer.setViewMode.
  unfold bind at 1 2. unfold ModelViewer.update, ModelViewer.this, modify. simpl.
  destruct (ModelViewer.model v) as [m|] eqn:Hm; simpl.
  - pose proof (applyViewMode_typed mode m (Ht m Hm)) as Hty.
    pose proof (applyViewMode_id mode m) as Hid.
    destruct (ModelViewer.applyViewMode mode m) as [m' r]. simpl in Hty, Hid.
    assert (Inv a (ModelViewer.set_model (Some m')
                     (ModelViewer.set_viewMode mode v), e)) as HI.
    { split; [exact Hl|]. split.
      - destruct Ha as [Ha|(m0 & Hm0 & Ha)]; [left; exact Ha|].
        right. exists m'. split; [reflexivity|]. simpl in *.
        rewrite Hm in Hm0. inversion Hm0; subst. rewrite Hid. exact Ha.
      - intros m0 [= <-]. exact Hty. }
    unfold bind, ModelViewer.update, modify. simpl.
    destruct r; exact HI.
  - split; [exact Hl|]. split.
    + destruct Ha as [Ha|(m' & Hm' & _)]; [left; exact Ha|].
      simpl in Hm'. congruence.
    + intros m'. simpl. rewrite Hm. discriminate.
Qed.

Transparent ModelViewer.applyViewMode.

(** loading *)
Lemma setup_child_typed mobile store child :
  typed_store store -> well_typed_child child = true ->
  well_typed_child (ModelViewer.setup_child mobile store child) = true.
Proof.
  intros Hs Hc. unfold ModelViewer.setup_child.
  destruct (Object3D.isMesh child); [|exact Hc]. simpl.
  destruct (truthy _) eqn:Ht; [|exact Hc].
  unfold well_typed_child. simpl.
  destruct (Object3D.material child) as [|m|arr]; try reflexivity.
  simpl. destruct (store !! m) as [mat|] eqn:E; [|reflexivity].
  apply negb_true_iff. eauto.
Qed.

Lemma loaded_typed rev mobile g :
  well_typed g = true ->
  well_typed (ModelViewer.setup_materials mobile (ModelViewer.normalize rev g)) = true.
Proof.
  rewrite !well_typed_iff. intros [Hs Hn]. split; [exact Hs|].
  unfold typed_nodes in *. simpl. rewrite Forall_forall in *.
  intros child Hin. apply list_elem_of_In, in_map_iff in Hin.
  destruct Hin as (c0 & <- & Hin). apply setup_child_typed; [exact Hs|].
  apply Hn. apply list_elem_of_In. exact Hin.
Qed.

Lemma loaded_id rev mobile g :
  Model.id (ModelViewer.setup_materials mobile (ModelViewer.normalize rev g)) = Model.id g.
Proof. reflexivity. Qed.

Lemma filter_other_singleton i :
  List.filter (fun j => negb (Nat.eqb i j)) [i] = [].
Proof. simpl. rewrite Nat.eqb_refl. reflexivity. Qed.

Lemma keeps_loadModel rev a path : keeps core (ModelViewer.loadModel rev a path).
Proof.
  unfold ModelViewer.loadModel.
  apply keeps_bind; [keeps_leaf|]. intros v.
  apply keeps_bind.
  { apply keeps_when. apply keeps_bind; [|intros; keeps_leaf].
    apply keeps_scene_remove_other. reflexivity. }
  intros ?. keeps_auto.
Qed.

Lemma attached_scene v sc :
  ModelViewer.scene v = Some sc -> attached v = models_in (Scene.children sc).
Proof. unfold attached. intros ->. reflexivity. Qed.

Lemma attached_remove i sc v :
  attached (ModelViewer.set_scene (Some (Scene.remove (Scene.model i) sc)) v)
  = List.filter (fun j => negb (Nat.eqb i j)) (models_in (Scene.children sc)).
Proof.
  unfold attached.
  cbn [ModelViewer.scene ModelViewer.set_scene Scene.children Scene.remove].
  apply models_in_remove_model.
Qed.

Lemma attached_add i sc v :
  attached (ModelViewer.set_scene (Some (Scene.add (Scene.model i) sc)) v)
  = List.filter (fun j => negb (Nat.eqb i j)) (models_in (Scene.children sc)) ++ [i].
Proof.
  unfold attached.
  cbn [ModelViewer.scene ModelViewer.set_scene Scene.children Scene.add].
  rewrite models_in_app, models_in_remove_model. reflexivity.
Qed.

Opaque ModelViewer.setup_materials ModelViewer.normalize.

Lemma onLoad_Inv rev a g :
  well_typed g = true ->
  hoare (Inv a) (ModelViewer.onLoad rev a g) (fun _ => Inv a) (Inv a).
Proof.
  intros Hg. unfold ModelViewer.onLoad.
  eapply hoare_bind with (R := fun v s => Inv a s /\ v = fst s).
  { intros [v e] HI. simpl. auto. }
  intros v0.
  (* the old model leaves the scene and is released *)
  eapply hoare_bind with
    (R := fun _ s => loop_inv a s /\ attached (fst s) = []).
  { intros [v e] [HI ->]. simpl.
    destruct (ModelViewer.model v) as [old|] eqn:Hold.
    - unfold bind at 1. unfold ModelViewer.scene_remove_ at 1.
      unfold bind at 1. unfold ModelViewer.this. simpl.
      destruct (ModelViewer.scene v) as [sc|] eqn:Hsc; [|exact HI].
      simpl.
      set (s1 := (ModelViewer.set_scene (Some (Scene.remove (Scene.model (Model.id old)) sc)) v,
                  Env.log (scene_remove a (Scene.model (Model.id old))) e)).
      assert (loop_inv a s1 /\ attached (fst s1) = []) as H1.
      { destruct HI as (Hl & Ha & _). split; [exact Hl|].
        unfold s1. cbn [fst]. rewrite attached_remove.
        unfold attached_inv in Ha. cbn [fst] in Ha.
        rewrite (attached_scene v sc Hsc) in Ha.
        destruct Ha as [->|(m & Hm & ->)]; [reflexivity|].
        rewrite Hold in Hm. inversion Hm; subst. apply filter_other_singleton. }
      pose proof (keeps_disposeModel old s1) as K.
      destruct (ModelViewer.disposeModel old s1) as [[] s2|err s2]; simpl in K.
      + destruct s2 as [v2 e2], H1 as [Hl1 Ha1]. unfold core in K. simpl in K.
        inversion K as [[K1 K2 K3 K4]]. split.
        * intros h Hin. simpl in *. rewrite K4 in Hin. rewrite K3. apply Hl1, Hin.
        * simpl. rewrite K1. exact Ha1.
      + destruct s2 as [v2 e2], H1 as [Hl1 Ha1]. unfold core in K. simpl in K.
        inversion K as [[K1 K2 K3 K4]]. destruct HI as (_ & _ & Ht).
        split; [|split].
        * intros h Hin. simpl in *. rewrite K4 in Hin. rewrite K3. apply Hl1, Hin.
        * left. simpl. rewrite K1. exact Ha1.
        * intros m Hm. apply Ht. cbn [fst snd] in *. congruence.
    - destruct HI as (Hl & Ha & _). split; [exact Hl|].
      destruct Ha as [Ha|(m & Hm & _)]; [exact Ha|]. simpl in Hm. congruence. }
  intros ?.
  (* the new model becomes current *)
  set (new := ModelViewer.setup_materials (ModelViewer.isMobile v0)
                (ModelViewer.normalize rev g)).
  eapply hoare_bind with
    (R := fun _ s => loop_inv a s /\ attached (fst s) = [] /\
                     ModelViewer.model (fst s) = Some new).
  { intros [v e] [Hl Ha]. simpl. auto. }
  intros ?.
  assert (forall s, loop_inv a s /\ attached (fst s) = [] /\
                    ModelViewer.model (fst s) = Some new -> Inv a s) as Hweak.
  { intros s (Hl & Ha & Hm). split; [exact Hl|]. split; [left; exact Ha|].
    intros m Hm'. rewrite Hm in Hm'. inversion Hm'; subst.
    apply loaded_typed, Hg. }
  eapply hoare_bind with (R := fun _ s => Inv a s).
  { intros [v e] (Hl & Ha & Hm). unfold ModelViewer.scene_add_.
    unfold bind at 1. unfold ModelViewer.this. simpl.
    destruct (ModelViewer.scene v) as [sc|] eqn:Hsc; simpl.
    - split; [exact Hl|]. split.
      + right. exists new. split; [exact Hm|].
        cbn [fst] in *. rewrite attached_add.
        rewrite (attached_scene v sc Hsc) in Ha. rewrite Ha. reflexivity.
      + intros m Hm'. simpl in *. rewrite Hm in Hm'. inversion Hm'; subst.
        apply loaded_typed, Hg.
    - apply Hweak. auto. }
  intros ?.
  eapply hoare_bind with (R := fun _ s => Inv a s).
  { apply keeps_Inv. destruct rev; keeps_auto. }
  intros ?.
  eapply hoare_bind with (R := fun v s => Inv a s /\ v = fst s).
  { intros [v e] HI. simpl. auto. }
  intros v1.
  eapply hoare_bind with (R := fun _ s => Inv a s).
  { intros [v e] [HI ->]. simpl.
    destruct (ModelViewer.animationId v) as [h|] eqn:Hid; [exact HI|].
    apply (animate_Inv a (v, e)). split; [exact HI|].
    apply scheduled_nil. intros h Hin. destruct HI as (Hl & _).
    apply Hl in Hin. simpl in Hin. congruence. }
  intros ?. apply keeps_Inv. keeps_auto.
Qed.

Transparent ModelViewer.setup_materials ModelViewer.normalize.

(** init *)
Lemma keeps_measure_container : keeps core ModelViewer.measure_container.
Proof. unfold ModelViewer.measure_container. keeps_auto. Qed.

Lemma keeps_canvas_size : keeps core ModelViewer.canvas_size.
Proof. unfold ModelViewer.canvas_size. keeps_auto. Qed.

Lemma keeps_new_renderer a : keeps core (ModelViewer.new_renderer a).
Proof. unfold ModelViewer.new_renderer. keeps_auto. Qed.

Lemma keeps_setSize a wh : keeps core (ModelViewer.setSize a wh).
Proof. unfold ModelViewer.setSize. keeps_auto. Qed.

Lemma keeps_renderer_failed : keeps core ModelViewer.renderer_failed.
Proof. unfold ModelViewer.renderer_failed. keeps_auto. Qed.

Lemma keeps_setupLighting rev a : keeps core (ModelViewer.setupLighting rev a).
Proof.
  unfold ModelViewer.setupLighting.
  repeat (first [ apply keeps_scene_add_other; reflexivity
                | apply keeps_bind; [|intros ?]
                | keeps_step ]).
Qed.

Lemma keeps_setupControls rev a : keeps core (ModelViewer.setupControls rev a).
Proof. unfold ModelViewer.setupControls. keeps_auto. Qed.

Lemma keeps_setupTouchHandlers a : keeps core (ModelViewer.setupTouchHandlers a).
Proof. unfold ModelViewer.setupTouchHandlers. keeps_auto. Qed.

Lemma keeps_addTestCube a : keeps core (ModelViewer.addTestCube a).
Proof.
  unfold ModelViewer.addTestCube. apply keeps_bind; [|intros; keeps_leaf].
  apply keeps_scene_add_other. reflexivity.
Qed.

#[export] Hint Resolve keeps_measure_container keeps_canvas_size keeps_new_renderer
  keeps_setSize keeps_renderer_failed keeps_setupLighting keeps_setupControls
  keeps_setupTouchHandlers keeps_addTestCube : keeps.

Lemma keeps_idle {A} a (m : M ModelViewer.state A) :
  keeps core m -> hoare (idle a) m (fun _ => idle a) (idle a).
Proof.
  intros K.
  pose (PC := fun c : list nat * option Model.t * option positive *
                      list (positive * addr) =>
                InvC a c /\ forall h, ~ In (h, a) (snd c)).
  assert (forall s, idle a s <-> PC (core s)) as HP.
  { intros [v e]. unfold idle, PC. rewrite Inv_core, scheduled_nil. reflexivity. }
  eapply hoare_weaken; [apply (hoare_keeps core m PC K)|..]; intros; apply HP; assumption.
Qed.

Lemma keeps_idle_Inv {A} a (m : M ModelViewer.state A) :
  keeps core m -> hoare (idle a) m (fun _ => idle a) (Inv a).
Proof.
  intros K. eapply hoare_weaken; [apply (keeps_idle a m K)|auto|auto|].
  intros s [H _]. exact H.
Qed.

Lemma init_Inv rev a :
  hoare (fun s => idle a s /\ ModelViewer.model (fst s) = None)
        (ModelViewer.init rev a) (fun _ => Inv a) (Inv a).
Proof.
  unfold ModelViewer.init.
  eapply hoare_bind with
    (R := fun v s => (idle a s /\ ModelViewer.model (fst s) = None) /\ v = fst s).
  { intros [v e] H. simpl. auto. }
  intros v0.
  destruct (ModelViewer.isInitialized v0).
  { apply hoare_ret. intros s [[[HI _] _] _]. exact HI. }
  eapply hoare_bind with
    (R := fun _ s => idle a s /\ ModelViewer.model (fst s) = None).
  { intros [v e] [H _]. exact H. }
  intros e0.
  destruct (negb (Env.THREE e0)).
  { apply hoare_throw. intros s [[HI _] _]. exact HI. }
  eapply hoare_bind with (R := fun _ s => idle a s).
  { intros [v e] [[(Hl & Ha & Ht) Hs] Hm]. simpl in *.
    split; [|exact Hs]. split; [exact Hl|]. split; [left; reflexivity|].
    intros m. simpl. rewrite Hm. discriminate. }
  intros ?.
  assert (forall s, idle a s -> Inv a s) as Hweak by (intros s [H _]; exact H).
  repeat (eapply hoare_bind with (R := fun _ s => idle a s);
          [apply keeps_idle_Inv; destruct rev; keeps_auto| intros ?]).
  destruct (negb _).
  { apply hoare_ret. exact Hweak. }
  repeat (eapply hoare_bind with (R := fun _ s => idle a s);
          [apply keeps_idle_Inv; solve [keeps_auto]| intros ?]).
  eapply hoare_bind with (R := fun _ s => Inv a s).
  { destruct (debugging rev); simpl.
    - eapply hoare_bind with (R := fun _ s => idle a s);
        [apply keeps_idle_Inv; keeps_auto|intros ?].
      eapply hoare_weaken; [apply animate_Inv|..]; auto.
    - apply hoare_ret. exact Hweak. }
  intros ?. apply keeps_Inv. keeps_auto.
Qed.

Lemma new_idle a canvasId e :
  scheduled a e = [] ->
  idle a (ModelViewer.new canvasId e, e) /\
  ModelViewer.model (fst (ModelViewer.new canvasId e, e)) = None.
Proof.
  intros Hs. split; [|reflexivity]. split; [|exact Hs].
  split; [|split].
  - intros h Hin. rewrite scheduled_nil in Hs. destruct (Hs h Hin).
  - left. reflexivity.
  - intros m. discriminate.
Qed.

Lemma start_Inv rev a canvasId e :
  scheduled a e = [] -> Inv a (start rev a canvasId e).
Proof.
  intros Hs. unfold start.
  apply (hoare_state_of _ _ _ (init_Inv rev a)). apply new_idle, Hs.
Qed.

Lemma step_Inv rev a ev :
  deliverable ev = true ->
  hoare (Inv a) (step rev a ev) (fun _ => Inv a) (Inv a).
Proof.
  intros Hev. destruct ev; simpl.
  - apply keeps_Inv, keeps_loadModel.
  - apply setViewMode_Inv.
  - apply dispose_Inv.
  - apply onLoad_Inv. exact Hev.
  - apply keeps_Inv, keeps_onProgress.
  - apply keeps_Inv, keeps_onError.
  - apply keeps_Inv, keeps_dispatch. auto with keeps.
  - eapply hoare_bind with (R := fun _ s => Inv a s);
      [apply keeps_Inv; keeps_leaf|intros ?].
    unfold dispatch.
    eapply hoare_bind with (R := fun _ s => Inv a s);
      [apply keeps_Inv; keeps_leaf|intros ?].
    apply hoare_forEach. intros ?. apply handleVisibilityChange_Inv.
  - eapply hoare_bind with (R := fun e s => Inv a s /\ e = snd s).
    { intros [v e] HI. simpl. auto. }
    intros e0.
    destruct (existsb (queued handle a) (Env.frames e0)) eqn:Hq.
    + eapply hoare_bind with (R := fun _ s => idle a s).
      * intros [v e] [(Hl & Ha & Ht) ->]. simpl in *.
        apply existsb_exists in Hq as ([h' a'] & Hin & Hq).
        unfold queued in Hq. simpl in Hq. apply andb_true_iff in Hq as [Hh Ha'].
        apply Pos.eqb_eq in Hh. apply Nat.eqb_eq in Ha'. subst.
        pose proof (Hl _ Hin) as Hid. simpl in Hid.
        split.
        -- split; [|split; assumption].
           intros h Hin'. simpl in *. apply In_unqueue in Hin' as [Hin' _]. auto.
        -- apply scheduled_nil. intros h Hin'. simpl in Hin'.
           apply In_unqueue in Hin' as [Hin' Hne]. apply Hl in Hin'. simpl in Hin'.
           congruence.
      * intros ?. eapply hoare_weaken; [apply animate_Inv|..]; auto.
    + apply hoare_ret. intros s [H _]. exact H.
  - apply keeps_Inv, keeps_dispatch, keeps_touchstart.
  - apply keeps_Inv, keeps_dispatch, keeps_touchmove.
  - apply keeps_Inv, keeps_dispatch, keeps_touchend.
Qed.

Lemma run_Inv rev a evs s :
  forallb deliverable evs = true -> Inv a s -> Inv a (run rev a evs s).
Proof.
  revert s. induction evs as [|ev evs IH]; intros s Hd HI; simpl in *.
  - exact HI.
  - apply andb_true_iff in Hd as [Hev Hd]. apply IH; [exact Hd|].
    apply (hoare_state_of _ _ _ (step_Inv rev a ev Hev)). exact HI.
Qed.

Section Wp.

Context {S : Type}.

Lemma wp_bind {A B} (m : M S A) (k : A -> M S B) Q E s :
  wp m (fun a s' => wp (k a) Q E s') E s -> wp (bind m k) Q E s.
Proof. unfold wp, bind. destruct (m s); auto. Qed.

Lemma wp_ret {A} (a : A) (Q : A -> S -> Prop) E s : Q a s -> wp (ret a) Q E s.
Proof. auto. Qed.

Lemma wp_throw {A} msg (Q : A -> S -> Prop) (E : S -> Prop) s :
  E s -> wp (throw msg) Q E s.
Proof. auto. Qed.

Lemma wp_get (Q : S -> S -> Prop) E s : Q s s -> wp get Q E s.
Proof. auto. Qed.

Lemma wp_modify (f : S -> S) (Q : unit -> S -> Prop) E s :
  Q tt (f s) -> wp (modify f) Q E s.
Proof. auto. Qed.

Lemma wp_try_catch {A} (m h : M S A) Q E s :
  wp m Q (fun s' => wp h Q E s') s -> wp (try_catch m h) Q E s.
Proof. unfold wp, try_catch. destruct (m s); auto. Qed.

Lemma wp_result {A} (m : M S A) (Q : A -> S -> Prop) s :
  wp m Q (fun _ => False) s -> exists a s', m s = Return a s' /\ Q a s'.
Proof. unfold wp. destruct (m s); [eauto|tauto]. Qed.

Lemma wp_state_of {A} (m : M S A) (Q : S -> Prop) s :
  wp m (fun _ => Q) Q s -> Q (state_of (m s)).
Proof. unfold wp. destruct (m s); auto. Qed.

End Wp.

Lemma wp_this Q E (s : ModelViewer.state) :
  Q (fst s) s -> wp ModelViewer.this Q E s.
Proof. auto. Qed.

Lemma wp_env Q E (s : ModelViewer.state) :
  Q (snd s) s -> wp ModelViewer.env Q E s.
Proof. auto. Qed.

Lemma wp_update f Q E (s : ModelViewer.state) :
  Q tt (f (fst s), snd s) -> wp (ModelViewer.update f) Q E s.
Proof. auto. Qed.

Lemma wp_update_env f Q E (s : ModelViewer.state) :
  Q tt (fst s, f (snd s)) -> wp (ModelViewer.update_env f) Q E s.
Proof. auto. Qed.

Lemma wp_log c Q E (s : ModelViewer.state) :
  Q tt (fst s, Env.log c (snd s)) -> wp (ModelViewer.log c) Q E s.
Proof. auto. Qed.

Ltac wp_simpl_scrutinee x :=
  let x' := eval simpl in x in
  progress change x with x'.

Ltac wp_case x :=
  first
    [ match goal with
      | H : ?y = _ |- _ =>
          lazymatch x with
          | context [y] => rewrite H
          | _ => fail
          end
      end
    | lazymatch x with
      | context [(<[?k := _]> _) !! ?k] => rewrite lookup_insert_eq
      | _ => fail
      end
    | wp_simpl_scrutinee x
    | lazymatch x with
      | negb ?b => destruct b eqn:?
      | ?b && _ => destruct b eqn:?
      | _ => destruct x eqn:?
      end ].

Ltac head_of t :=
  lazymatch t with
  | ?f _ => head_of f
  | _ => t
  end.

Ltac wp_unfold m := let h := head_of m in unfold h.

Ltac norm_state :=
  cbn beta iota zeta delta
    [fst snd ModelViewer.canvasId ModelViewer.canvas ModelViewer.scene
    ModelViewer.camera ModelViewer.renderer ModelViewer.controls
    ModelViewer.model ModelViewer.animationId ModelViewer.viewMode
    ModelViewer.isInitialized ModelViewer.touchStartX
    ModelViewer.touchStartY ModelViewer.touchStartDistance
    ModelViewer.isTouch ModelViewer.isMobile ModelViewer.pixelRatio
    ModelViewer.handleResize_fn ModelViewer.handleVisibilityChange_fn
    ModelViewer.testCube ModelViewer.set_scene ModelViewer.set_camera
    ModelViewer.set_renderer ModelViewer.set_controls ModelViewer.set_model
    ModelViewer.set_animationId ModelViewer.set_viewMode
    ModelViewer.set_isInitialized ModelViewer.set_touchStartX
    ModelViewer.set_touchStartY ModelViewer.set_touchStartDistance
    ModelViewer.set_isTouch ModelViewer.set_handleResize_fn
    ModelViewer.set_handleVisibilityChange_fn ModelViewer.set_testCube
    Env.THREE Env.GLTFLoader Env.OrbitControls Env.WebGL Env.mobile
    Env.devicePixelRatio Env.hidden Env.document Env.listeners
    Env.next_function Env.frames Env.next_frame Env.trace Env.set_hidden
    Env.set_document Env.set_listeners Env.set_next_function Env.set_frames
    Env.set_next_frame Env.set_trace Env.log].

Ltac wp_custom := fail.

Ltac wp_step :=
  first [ wp_custom |
  lazymatch goal with
  | |- wp (bind _ _) _ _ _ => apply wp_bind
  | |- wp (ret _) _ _ _ => apply wp_ret
  | |- wp (throw _) _ _ _ => apply wp_throw
  | |- wp get _ _ _ => apply wp_get
  | |- wp (modify _) _ _ _ => apply wp_modify
  | |- wp (try_catch _ _) _ _ _ => apply wp_try_catch
  | |- wp ModelViewer.this _ _ _ => apply wp_this
  | |- wp ModelViewer.env _ _ _ => apply wp_env
  | |- wp (ModelViewer.update _) _ _ _ => apply wp_update
  | |- wp (ModelViewer.update_env _) _ _ _ => apply wp_update_env
  | |- wp (ModelViewer.log _) _ _ _ => apply wp_log
  | |- wp (match ?x with _ => _ end) _ _ _ => wp_case x
  | |- wp ?m _ _ _ => wp_unfold m
  end ];
  norm_state.

Ltac wp_run := repeat wp_step.

Lemma logged_nil e : logged [] e = e.
Proof. destruct e. unfold logged. simpl. rewrite app_nil_r. reflexivity. Qed.

Lemma logged_app cs1 cs2 e : logged cs2 (logged cs1 e) = logged (cs1 ++ cs2) e.
Proof. unfold logged. simpl. rewrite app_assoc. reflexivity. Qed.

Lemma log_logged c e : Env.log c e = logged [c] e.
Proof. reflexivity. Qed.

Lemma dispose_texture_spec slot v e :
  ModelViewer.dispose_texture slot (v, e) =
    Return tt (v, logged (List.map texture_dispose (option_list slot)) e).
Proof.
  destruct slot; simpl.
  - reflexivity.
  - rewrite logged_nil. reflexivity.
Qed.

Lemma disposeMaterial_spec id material v e :
  is_function (Material.map material) = false ->
  ModelViewer.disposeMaterial id material (v, e) =
    Return tt (v, logged (material_calls id material) e).
Proof.
  intros Hf. unfold ModelViewer.disposeMaterial, material_calls, textures.
  unfold bind.
  assert ((match Material.map material with
           | js_null => ret ()
           | js_texture t => ModelViewer.log (texture_dispose t)
           | js_Array_prototype_map =>
               throw "TypeError: material.map.dispose is not a function"
           end) (v, e)
          = Return tt (v, logged (List.map texture_dispose
                                    match Material.map material with
                                    | js_texture t => [t]
                                    | _ => []
                                    end) e)) as ->.
  { destruct (Material.map material); try discriminate; simpl.
    - rewrite logged_nil. reflexivity.
    - reflexivity. }
  rewrite !dispose_texture_spec.
  unfold ModelViewer.log, ModelViewer.update_env, modify. cbn [fst snd].
  rewrite log_logged, !logged_app, !List.map_app, <- !app_assoc. reflexivity.
Qed.

Lemma disposeMaterial_at_spec store id v e :
  typed_store store ->
  ModelViewer.disposeMaterial_at store id (v, e) =
    Return tt (v, logged (store_calls store id) e).
Proof.
  intros Hs. unfold ModelViewer.disposeMaterial_at, store_calls.
  destruct (store !! id) as [material|] eqn:E.
  - apply disposeMaterial_spec. eauto.
  - simpl. rewrite logged_nil. reflexivity.
Qed.

Lemma forEach_disposeMaterial_at store ids v e :
  typed_store store ->
  ModelViewer.forEach (ModelViewer.disposeMaterial_at store) ids (v, e) =
    Return tt (v, logged (flat_map (store_calls store) ids) e).
Proof.
  intros Hs. revert e. induction ids as [|id ids IH]; intros e; simpl.
  - rewrite logged_nil. reflexivity.
  - unfold bind. rewrite disposeMaterial_at_spec by exact Hs.
    rewrite IH, logged_app. reflexivity.
Qed.

Lemma disposeModel_child_spec store child v e :
  typed_store store ->
  ModelViewer.disposeModel_child store child (v, e) =
    Return child (v, logged (child_calls store child) e).
Proof.
  intros Hs. unfold ModelViewer.disposeModel_child, child_calls. unfold bind.
  assert ((match Object3D.geometry child with
           | Some g => ModelViewer.log (geometry_dispose g)
           | None => ret ()
           end) (v, e)
          = Return tt (v, logged match Object3D.geometry child with
                                 | Some g => [geometry_dispose g]
                                 | None => []
                                 end e)) as ->.
  { destruct (Object3D.geometry child); simpl; [reflexivity|].
    rewrite logged_nil. reflexivity. }
  destruct (Object3D.material child) as [|m|arr]; simpl.
  - rewrite app_nil_r. reflexivity.
  - rewrite disposeMaterial_at_spec by exact Hs. simpl.
    rewrite logged_app, app_nil_r. reflexivity.
  - rewrite forEach_disposeMaterial_at by exact Hs. simpl.
    rewrite logged_app. reflexivity.
Qed.

Lemma traverse_disposeModel_child store nodes v e :
  typed_store store ->
  ModelViewer.traverse (ModelViewer.disposeModel_child store) nodes (v, e) =
    (nodes, Return tt (v, logged (flat_map (child_calls store) nodes) e)).
Proof.
  intros Hs. revert e. induction nodes as [|child rest IH]; intros e; simpl.
  - rewrite logged_nil. reflexivity.
  - rewrite disposeModel_child_spec by exact Hs. rewrite IH. simpl.
    rewrite logged_app. reflexivity.
Qed.

Lemma disposeModel_spec m v e :
  well_typed m = true ->
  ModelViewer.disposeModel m (v, e) = Return tt (v, logged (model_calls m) e).
Proof.
  intros Hm. apply well_typed_iff in Hm as [Hs _].
  unfold ModelViewer.disposeModel. rewrite traverse_disposeModel_child by exact Hs.
  reflexivity.
Qed.

Lemma releases_model_calls m : releases m (model_calls m).
Proof.
  unfold releases, model_calls. split.
  - intros child g Hin Hg. apply in_flat_map. exists child. split; [exact Hin|].
    unfold child_calls. rewrite Hg. left. reflexivity.
  - intros child id material Hin Hid Hm.
    apply in_split in Hin as (l1 & l2 & ->).
    apply in_split in Hid as (i1 & i2 & Hids).
    set (store := Model.materials m) in *.
    exists (flat_map (child_calls store) l1
            ++ match Object3D.geometry child with
               | Some g => [geometry_dispose g]
               | None => []
               end
            ++ flat_map (store_calls store) i1
            ++ List.map texture_dispose (textures material)),
           (flat_map (store_calls store) i2 ++ flat_map (child_calls store) l2).
    split.
    + rewrite flat_map_app. cbn [flat_map]. unfold child_calls at 2.
      rewrite Hids, flat_map_app. cbn [flat_map]. unfold store_calls at 2.
      rewrite Hm. unfold material_calls.
      rewrite <- !app_assoc. reflexivity.
    + intros t Ht. rewrite !in_app_iff. right. right. right.
      apply in_map. exact Ht.
Qed.

Lemma wp_disposeModel m Q E (s : ModelViewer.state) :
  well_typed m = true ->
  Q tt (fst s, logged (model_calls m) (snd s)) ->
  wp (ModelViewer.disposeModel m) Q E s.
Proof.
  intros Hm HQ. destruct s as [v e]. unfold wp.
  rewrite disposeModel_spec by exact Hm. exact HQ.
Qed.

Ltac wp_custom ::=
  lazymatch goal with
  | |- wp (ModelViewer.disposeModel _) _ _ _ =>
      apply wp_disposeModel; [solve [auto] | unfold logged]
  end.

Lemma dispose_spec a v e :
  (forall m, ModelViewer.model v = Some m -> well_typed m = true) ->
  exists e',
    ModelViewer.dispose a (v, e) = Return tt (released v, e') /\
    Env.frames e' = match ModelViewer.animationId v with
                    | Some h => ModelViewer.unqueue h (Env.frames e)
                    | None => Env.frames e
                    end.
Proof.
  intros Ht.
  cut (wp (ModelViewer.dispose a)
          (fun _ s' => fst s' = released v /\
             Env.frames (snd s') = match ModelViewer.animationId v with
                                   | Some h => ModelViewer.unqueue h (Env.frames e)
                                   | None => Env.frames e
                                   end)
          (fun _ => False) (v, e)).
  { intros H. apply wp_result in H as ([] & [v' e'] & H1 & H2 & H3).
    cbn [fst snd] in H2, H3. subst v'. eauto. }
  wp_run; auto.
Qed.

Lemma dispose_leaves_no_frame a s :
  Inv a s ->
  exists s1, ModelViewer.dispose a s = Return tt s1 /\ scheduled a (snd s1) = [] /\ Inv a s1.
Proof.
  intros HI. destruct s as [v e].
  destruct (dispose_spec a v e) as (e' & Hd & Hf).
  { destruct HI as (_ & _ & Ht). exact Ht. }
  exists (released v, e'). split; [exact Hd|].
  assert (Inv a (released v, e')) as HI'.
  { pose proof (dispose_Inv a (v, e) HI) as H. rewrite Hd in H. exact H. }
  split; [|exact HI'].
  apply scheduled_nil. intros h Hin. cbn [snd] in Hin. rewrite Hf in Hin.
  destruct HI as (Hl & _).
  destruct (ModelViewer.animationId v) as [h'|] eqn:Hid.
  - apply In_unqueue in Hin as [Hin Hne]. apply Hl in Hin. simpl in Hin. congruence.
  - apply Hl in Hin. simpl in Hin. congruence.
Qed.

(** C4: dispose on a viewer that was never initialised, and dispose twice
    in a row on a viewer in any state it can reach, return without an error,
    and afterwards no animation frame callback is scheduled for the
    viewer. *)
Theorem dispose_is_safe (rev : revision) (a : addr) (canvasId : string)
    (e0 : Env.t) (evs : list event) :
  scheduled a e0 = [] ->
  forallb deliverable evs = true ->
  (exists s1,
     ModelViewer.dispose a (ModelViewer.new canvasId e0, e0) = Return tt s1 /\
     scheduled a (snd s1) = [])
  /\
  (let s := run rev a evs (start rev a canvasId e0) in
   exists s1 s2,
     ModelViewer.dispose a s = Return tt s1 /\ scheduled a (snd s1) = [] /\
     ModelViewer.dispose a s1 = Return tt s2 /\ scheduled a (snd s2) = []).
Proof.
  intros Hs Hd. split.
  - destruct (dispose_leaves_no_frame a (ModelViewer.new canvasId e0, e0))
      as (s1 & H1 & H2 & _).
    { apply new_idle. exact Hs. }
    eauto.
  - intros s.
    destruct (dispose_leaves_no_frame a s) as (s1 & H1 & H2 & HI1).
    { apply run_Inv, start_Inv; assumption. }
    destruct (dispose_leaves_no_frame a s1 HI1) as (s2 & H3 & H4 & _).
    eauto 10.
Qed.

Lemma handleVisibilityChange_hidden a v e h :
  Env.hidden e = true -> ModelViewer.animationId v = Some h ->
  ModelViewer.handleVisibilityChange a (v, e) =
    Return tt (ModelViewer.set_animationId None v,
               Env.log (cancelAnimationFrame h)
                 (Env.set_frames (ModelViewer.unqueue h (Env.frames e)) e)).
Proof.
  intros Hh Hid. unfold ModelViewer.handleVisibilityChange, ModelViewer.cancel_frame.
  unfold bind, ModelViewer.this, ModelViewer.env, ModelViewer.update,
    ModelViewer.update_env, modify. simpl. rewrite Hh, Hid. reflexivity.
Qed.

Lemma handleVisibilityChange_visible a v e m :
  Env.hidden e = false -> ModelViewer.animationId v = None ->
  ModelViewer.model v = Some m ->
  ModelViewer.handleVisibilityChange a (v, e) = ModelViewer.animate a (v, e).
Proof.
  intros Hh Hid Hm. unfold ModelViewer.handleVisibilityChange.
  unfold bind at 1 2. unfold ModelViewer.this, ModelViewer.env. simpl.
  rewrite Hh, Hid, Hm. reflexivity.
Qed.

Lemma handleVisibilityChange_nothing a v e :
  (Env.hidden e = true /\ ModelViewer.animationId v = None) \/
  (Env.hidden e = false /\
   (ModelViewer.model v = None \/ ModelViewer.animationId v <> None)) ->
  ModelViewer.handleVisibilityChange a (v, e) = Return tt (v, e).
Proof.
  intros H. unfold ModelViewer.handleVisibilityChange.
  unfold bind at 1 2. unfold ModelViewer.this, ModelViewer.env. simpl.
  destruct H as [[-> ->]|[-> [Hm|Hid]]]; try reflexivity.
  - rewrite Hm. destruct (ModelViewer.animationId v); reflexivity.
  - destruct (ModelViewer.animationId v); [reflexivity|congruence].
Qed.

Lemma dispatch_one a ty name handler s l :
  List.filter (listens a ty name) (Env.listeners (snd s)) = [l] ->
  dispatch a ty name handler s = bind handler (fun _ => ret tt) s.
Proof.
  intros H. unfold dispatch. unfold bind at 1. unfold ModelViewer.env.
  rewrite H. reflexivity.
Qed.

Lemma scheduled_unqueue a v e h :
  loop_inv a (v, e) -> ModelViewer.animationId v = Some h ->
  scheduled a (Env.log (cancelAnimationFrame h)
                 (Env.set_frames (ModelViewer.unqueue h (Env.frames e)) e)) = [].
Proof.
  intros Hl Hid. apply scheduled_nil. intros h' Hin. simpl in Hin.
  apply In_unqueue in Hin as [Hin Hne]. apply Hl in Hin. simpl in Hin. congruence.
Qed.

Lemma scheduled_app a e e' f :
  Env.frames e' = Env.frames e ++ [f] ->
  scheduled a e' = scheduled a e ++ (if Nat.eqb (snd f) a then [fst f] else []).
Proof.
  intros H. unfold scheduled. rewrite H, List.filter_app, List.map_app.
  destruct f as [h a']. simpl. destruct (Nat.eqb a' a); reflexivity.
Qed.

(* toggling without a model *)
Lemma handleVisibilityChange_no_model a F :
  hoare (fun s => ModelViewer.model (fst s) = None /\ incl (Env.frames (snd s)) F)
        (ModelViewer.handleVisibilityChange a)
        (fun _ s => ModelViewer.model (fst s) = None /\ incl (Env.frames (snd s)) F)
        (fun s => ModelViewer.model (fst s) = None /\ incl (Env.frames (snd s)) F).
Proof.
  intros [v e] [Hm Hf]. simpl in *.
  destruct (Env.hidden e) eqn:Hh.
  - destruct (ModelViewer.animationId v) as [h|] eqn:Hid.
    + rewrite (handleVisibilityChange_hidden a v e h Hh Hid). simpl.
      split; [exact Hm|]. intros f Hin. apply Hf.
      unfold ModelViewer.unqueue in Hin. apply filter_In in Hin. tauto.
    + rewrite handleVisibilityChange_nothing by auto. simpl. auto.
  - rewrite handleVisibilityChange_nothing by auto. simpl. auto.
Qed.

Lemma step_visibility_no_model rev a h F :
  hoare (no_model_within F) (step rev a (visibilitychange h))
        (fun _ => no_model_within F) (no_model_within F).
Proof.
  simpl.
  eapply hoare_bind with (R := fun _ s => no_model_within F s);
    [intros [v e] H; exact H|intros ?].
  unfold dispatch.
  eapply hoare_bind with (R := fun _ s => no_model_within F s);
    [intros [v e] H; exact H|intros ?].
  apply hoare_forEach. intros ?. apply handleVisibilityChange_no_model.
Qed.

Lemma toggling_no_model rev a toggles s F :
  no_model_within F s ->
  no_model_within F (run rev a (List.map visibilitychange toggles) s).
Proof.
  revert s. induction toggles as [|h hs IH]; intros s H; simpl.
  - exact H.
  - apply IH. apply (hoare_state_of _ _ _ (step_visibility_no_model rev a h F)), H.
Qed.

Lemma length_one {A} (l : list A) : length l = 1 -> exists x, l = [x].
Proof. destruct l as [|x [|y l]]; try discriminate. eauto. Qed.

(** C8: on a viewer whose visibilitychange subscription is in place, the
    page becoming hidden while the loop has a handle cancels that frame and
    clears the handle, and no frame stays scheduled; the page becoming
    visible requests a frame exactly when there is a model and no handle,
    and otherwise changes nothing but document.hidden; with no model, no
    sequence of visibility changes starts the loop. *)
Theorem visibility_transitions (rev : revision) (a : addr) (canvasId : string)
    (e0 : Env.t) (evs : list event) :
  scheduled a e0 = [] ->
  forallb deliverable evs = true ->
  let s := run rev a evs (start rev a canvasId e0) in
  length (List.filter (listens a "visibilitychange" "handleVisibilityChange")
            (Env.listeners (snd s))) = 1 ->
  (forall h, ModelViewer.animationId (fst s) = Some h ->
     exists e',
       step rev a (visibilitychange true) s =
         Return tt (ModelViewer.set_animationId None (fst s), e') /\
       Env.hidden e' = true /\
       Env.frames e' = ModelViewer.unqueue h (Env.frames (snd s)) /\
       scheduled a e' = [])
  /\
  (ModelViewer.model (fst s) <> None -> ModelViewer.animationId (fst s) = None ->
     exists e',
       step rev a (visibilitychange false) s =
         Return tt (ModelViewer.set_animationId
                      (Some (Env.next_frame (snd s))) (fst s), e') /\
       scheduled a e' = [Env.next_frame (snd s)])
  /\
  (ModelViewer.model (fst s) = None \/ ModelViewer.animationId (fst s) <> None ->
     step rev a (visibilitychange false) s =
       Return tt (fst s, Env.set_hidden false (snd s)))
  /\
  (ModelViewer.model (fst s) = None ->
     forall toggles,
       let s' := run rev a (List.map visibilitychange toggles) s in
       ModelViewer.model (fst s') = None /\
       incl (Env.frames (snd s')) (Env.frames (snd s))).
Proof.
  intros Hs Hd s Hsub.
  assert (Inv a s) as HI by (apply run_Inv, start_Inv; assumption).
  destruct s as [v e]. cbn [fst snd] in *.
  apply length_one in Hsub as [l Hl].
  assert (forall b,
            step rev a (visibilitychange b) (v, e) =
            bind (ModelViewer.handleVisibilityChange a) (fun _ => ret tt)
                 (v, Env.set_hidden b e)) as Hstep.
  { intros b. simpl. unfold bind at 1. simpl.
    apply (dispatch_one a _ _ _ (v, Env.set_hidden b e) l). exact Hl. }
  destruct HI as (Hloop & _).
  split; [|split; [|split]].
  - intros h Hid. rewrite (Hstep true). unfold bind.
    rewrite (handleVisibilityChange_hidden a v (Env.set_hidden true e) h eq_refl Hid). simpl.
    eexists. split; [reflexivity|]. split; [reflexivity|]. split; [reflexivity|].
    apply (scheduled_unqueue a v (Env.set_hidden true e) h); [|exact Hid].
    exact Hloop.
  - intros Hm Hid. destruct (ModelViewer.model v) as [m|] eqn:Hmod; [|congruence].
    rewrite (Hstep false). unfold bind.
    rewrite (handleVisibilityChange_visible a v (Env.set_hidden false e) m eq_refl Hid Hmod).
    destruct (animate_spec a v (Env.set_hidden false e)) as (e' & -> & Hf & _).
    simpl. exists e'. split; [reflexivity|].
    rewrite (scheduled_app a (Env.set_hidden false e) e' _ Hf). simpl.
    rewrite Nat.eqb_refl.
    assert (scheduled a (Env.set_hidden false e) = []) as ->; [|reflexivity].
    apply scheduled_nil. intros h Hin. apply Hloop in Hin. simpl in Hin. congruence.
  - intros H. rewrite (Hstep false). unfold bind.
    rewrite (handleVisibilityChange_nothing a v (Env.set_hidden false e)) by (right; split; [reflexivity|exact H]).
    reflexivity.
  - intros Hm toggles.
    apply (toggling_no_model rev a toggles (v, e) (Env.frames e)).
    split; [exact Hm|]. apply incl_refl.
Qed.

Section Respects.

Context {S : Type} (R : S -> S -> Prop).

Hypothesis R_refl : forall s, R s s.

Hypothesis R_trans : forall s1 s2 s3, R s1 s2 -> R s2 s3 -> R s1 s3.

Lemma respects_ret {A} (a : A) : respects R (ret a).
Proof. intros s. apply R_refl. Qed.

Lemma respects_throw {A} msg : respects R (@throw S A msg).
Proof. intros s. apply R_refl. Qed.

Lemma respects_bind {A B} (m : M S A) (k : A -> M S B) :
  respects R m -> (forall a, respects R (k a)) -> respects R (bind m k).
Proof.
  intros Hm Hk s. unfold bind. specialize (Hm s).
  destruct (m s) as [a s'|e s']; simpl in *.
  - eapply R_trans; [exact Hm|apply Hk].
  - exact Hm.
Qed.

Lemma wp_respects {A} (m : M S A) (Q : S -> Prop) s :
  respects R m -> (forall s', R s s' -> Q s') -> wp m (fun _ => Q) Q s.
Proof.
  intros Hm HQ. unfold wp. specialize (Hm s).
  destruct (m s); simpl in Hm; auto.
Qed.

End Respects.

Lemma settled_refl s : settled s s.
Proof.
  split; [reflexivity|]. split; [reflexivity|]. exists []. symmetry. apply app_nil_r.
Qed.

Lemma settled_trans s1 s2 s3 : settled s1 s2 -> settled s2 s3 -> settled s1 s3.
Proof.
  intros (A1 & M1 & r1 & T1) (A2 & M2 & r2 & T2).
  split; [congruence|]. split; [congruence|].
  exists (r1 ++ r2). rewrite T2, T1, app_assoc. reflexivity.
Qed.

Ltac settled_leaf :=
  let s := fresh "s" in
  intros s; destruct s as [? ?]; simpl;
  split; [reflexivity|]; split; [reflexivity|];
  eexists; first [reflexivity | symmetry; apply app_nil_r].

Ltac settled_step :=
  lazymatch goal with
  | |- respects _ (bind _ _) =>
      apply (respects_bind settled settled_trans); [| intros ?]
  | |- respects _ (ret _) => apply (respects_ret settled settled_refl)
  | |- respects _ (throw _) => apply (respects_throw settled settled_refl)
  | |- respects _ (match ?x with _ => _ end) => destruct x
  | |- respects _ _ => settled_leaf
  end.

Lemma settled_onLoad_tail rev a :
  respects settled
    (bind (match rev with
           | js_model_viewer => ModelViewer.showLoading false
           | part_000_first =>
               bind (ModelViewer.showLoading false)
                    (fun _ => ModelViewer.handleResize rev a)
           | part_000_second =>
               bind (ModelViewer.handleResize rev a)
                    (fun _ => ModelViewer.showLoading false)
           end)
      (fun _ =>
         bind ModelViewer.this (fun v =>
         bind (match ModelViewer.animationId v with
               | None => ModelViewer.animate a
               | Some _ => ret tt
               end)
           (fun _ =>
              bind ModelViewer.this (fun v =>
                match ModelViewer.controls v with
                | Some c =>
                    bind (ModelViewer.update
                            (ModelViewer.set_controls
                               (Some (Controls.set_autoRotate true c))))
                      (fun _ => ModelViewer.log
                                  (setTimeout "this.controls.autoRotate = false" 2000))
                | None => throw "TypeError: this.controls is null"
                end))))).
Proof.
  unfold ModelViewer.showLoading, ModelViewer.handleResize, ModelViewer.animate,
    ModelViewer.request_frame, ModelViewer.measure_container,
    ModelViewer.update_container, ModelViewer.update_canvas,
    ModelViewer.the_container, ModelViewer.the_canvas, when.
  repeat settled_step.
Qed.

Ltac wp_custom ::=
  lazymatch goal with
  | |- wp (ModelViewer.disposeModel _) _ _ _ =>
      apply wp_disposeModel; [solve [auto] | unfold logged]
  | |- wp (bind (match ?r with
                 | js_model_viewer => _
                 | part_000_first => _
                 | part_000_second => _
                 end) _) _ _ _ =>
      apply (wp_respects settled _ _ _ (settled_onLoad_tail _ _))
  end.

Lemma onLoad_replaces rev a gltf v e old :
  ModelViewer.model v = Some old ->
  attached v = [Model.id old] ->
  well_typed old = true ->
  replaced a old gltf (v, e) (state_of (ModelViewer.onLoad rev a gltf (v, e))).
Proof.
  intros Hm Ha Ht.
  destruct (ModelViewer.scene v) as [sc|] eqn:Hsc;
    [|unfold attached in Ha; rewrite Hsc in Ha; discriminate].
  rewrite (attached_scene v sc Hsc) in Ha.
  apply (wp_state_of (ModelViewer.onLoad rev a gltf)
           (replaced a old gltf (v, e))).
  wp_run.
  intros [v' e'] (Hatt & Hmod & rest & Htr). cbn [fst snd] in Hatt, Hmod, Htr.
  exists (model_calls old), rest. cbn [fst snd].
  split; [|split; [apply releases_model_calls|split]].
  - rewrite Htr. norm_state. rewrite <- !app_assoc. reflexivity.
  - rewrite Hatt, attached_add.
    cbn [Scene.children Scene.remove].
    rewrite models_in_remove_model, Ha, filter_other_singleton. reflexivity.
  - rewrite Hmod. norm_state. eexists. split; reflexivity.
Qed.

(** C1: however the calls of loadModel and their callbacks are interleaved
    with the other events, the scene of a viewer holds at most one model,
    and a model that is attached is the current one.  And whenever the
    success callback arrives at a viewer whose current model [old] is
    attached (any such state [(v, e)], the states the events lead to among
    them), the calls it makes are, in this order: the removal of the old
    model from the scene, calls that release the old model (the geometry of
    every node, and every material after the textures of its four map
    slots), and only then the addition of the new model, which is the
    current and the only attached one afterwards. *)
Theorem one_model_attached (rev : revision) (a : addr) (canvasId : string)
    (e0 : Env.t) (evs : list event) (v : ModelViewer.t) (e : Env.t)
    (old gltf : Model.t) :
  scheduled a e0 = [] ->
  forallb deliverable evs = true ->
  ModelViewer.model v = Some old ->
  attached v = [Model.id old] ->
  well_typed old = true ->
  let s := run rev a evs (start rev a canvasId e0) in
  length (attached (fst s)) <= 1 /\
  (attached (fst s) = [] \/
   exists cur, ModelViewer.model (fst s) = Some cur /\
               attached (fst s) = [Model.id cur] /\ well_typed cur = true) /\
  replaced a old gltf (v, e) (state_of (ModelViewer.onLoad rev a gltf (v, e))) /\
  forall cur,
    ModelViewer.model (fst s) = Some cur ->
    attached (fst s) = [Model.id cur] ->
    replaced a cur gltf s (state_of (ModelViewer.onLoad rev a gltf s)).
Proof.
  intros Hs Hd Hm Ha Ht s.
  assert (Inv a s) as (_ & Hatt & Htyped).
  { apply run_Inv, start_Inv; assumption. }
  split; [|split; [|split]].
  - destruct Hatt as [-> | (m & _ & ->)]; simpl; lia.
  - destruct Hatt as [Hnone | (m & Hcur & Hone)]; [left; exact Hnone|].
    right. exists m. split; [exact Hcur|]. split; [exact Hone|].
    apply Htyped, Hcur.
  - apply onLoad_replaces; assumption.
  - intros cur Hcur Hone. destruct s as [v' e'].
    apply onLoad_replaces; auto.
Qed.

Lemma assign_single f g child id (store : material_store) :
  Object3D.material child = single id ->
  ModelViewer.assign f g child store = Return child (alter f id store).
Proof. unfold ModelViewer.assign. intros ->. reflexivity. Qed.

Lemma assign_multi f g child arr (store : material_store) :
  Object3D.material child = multi arr ->
  ModelViewer.assign f g child store
  = Return (Object3D.set_material (multi (g arr)) child) store.
Proof. unfold ModelViewer.assign. intros ->. reflexivity. Qed.

Lemma bind_Return {S A B} (m : M S A) (k : A -> M S B) s a s' :
  m s = Return a s' -> bind m k s = k a s'.
Proof. unfold bind. intros ->. reflexivity. Qed.

Lemma same_dom_alter store0 store f id :
  same_dom store0 store -> same_dom store0 (alter f id store).
Proof.
  intros H id'. rewrite <- (H id').
  destruct (decide (id = id')) as [->|Hne].
  - rewrite lookup_alter_eq. destruct (store !! id'); simpl; split; congruence.
  - rewrite lookup_alter_ne by exact Hne. reflexivity.
Qed.

Lemma solid_child store0 child store :
  has_material child -> same_dom store0 store ->
  exists child' store',
    ModelViewer.setViewMode_child "solid" child store = Return child' store' /\
    same_dom store0 store' /\ shape child child'.
Proof.
  intros Hm Hd. unfold ModelViewer.setViewMode_child, has_material in *.
  destruct (Object3D.isMesh child) eqn:Hmesh; cbn [negb].
  2:{ exists child, store. split; [reflexivity|]. split; [exact Hd|].
      unfold shape. repeat split. destruct (Object3D.material child); eauto. }
  change (String.eqb "solid" "wireframe") with false.
  change (String.eqb "solid" "solid") with true. cbv iota.
  destruct (Object3D.material child) as [|id|arr] eqn:Hmat; [destruct Hm; auto| |].
  - rewrite (bind_Return _ _ _ _ _ (assign_single _ _ child id store Hmat)).
    unfold bind at 1, get at 1. rewrite Hmat.
    destruct (truthy _).
    + rewrite (bind_Return _ _ _ _ _ (assign_single _ _ child id _ Hmat)).
      rewrite (bind_Return _ _ _ _ _ (assign_single _ _ child id _ Hmat)).
      rewrite (assign_single _ _ child id _ Hmat).
      eexists _, _. split; [reflexivity|].
      split; [auto using same_dom_alter|].
      unfold shape. rewrite Hmat. auto.
    + eexists _, _. split; [reflexivity|].
      split; [auto using same_dom_alter|].
      unfold shape. rewrite Hmat. auto.
  - rewrite (bind_Return _ _ _ _ _ (assign_multi _ _ child arr store Hmat)).
    unfold bind at 1, get at 1. cbn [Object3D.material Object3D.set_material].
    destruct (truthy _).
    + erewrite bind_Return by (apply assign_multi; reflexivity).
      erewrite bind_Return by (apply assign_multi; reflexivity).
      erewrite assign_multi by reflexivity.
      eexists _, _. split; [reflexivity|]. split; [exact Hd|].
      unfold shape. rewrite Hmat. cbn. eauto.
    + eexists _, _. split; [reflexivity|]. split; [exact Hd|].
      unfold shape. rewrite Hmat. cbn. eauto.
Qed.

Lemma solid_pass store0 nodes store :
  Forall has_material nodes -> same_dom store0 store ->
  exists nodes' store',
    ModelViewer.traverse (ModelViewer.setViewMode_child "solid") nodes store
    = (nodes', Return tt store') /\
    same_dom store0 store' /\ Forall2 shape nodes nodes'.
Proof.
  intros Hn. revert store. induction Hn as [|child nodes Hc Hn IH]; intros store Hd.
  - exists [], store. simpl. auto.
  - destruct (solid_child store0 child store Hc Hd) as (child' & store1 & E1 & Hd1 & Hs).
    destruct (IH store1 Hd1) as (nodes' & store' & E2 & Hd' & Hs').
    exists (child' :: nodes'), store'. cbn [ModelViewer.traverse].
    rewrite E1, E2. cbn [fst snd]. auto.
Qed.

Lemma textured_again_later store0 child child' store store' :
  textured_again store0 child child' store -> later store0 store store' ->
  textured_again store0 child child' store'.
Proof.
  unfold textured_again. intros H Hl Hm. specialize (H Hm).
  destruct (Object3D.material child); auto.
  destruct H as [H1 H2]. split; [exact H1|]. intros mat0 H3 H4. apply Hl. eauto.
Qed.

Lemma restored_wireframe store0 store id id' :
  restored store0 store id' ->
  restored store0 (alter (Material.set_wireframe false) id store) id'.
Proof.
  intros (mat & mat0 & H1 & H2 & H3 & H4 & H5).
  destruct (decide (id = id')) as [->|Hne].
  - exists (Material.set_wireframe false mat), mat0.
    rewrite lookup_alter_eq, H1. auto.
  - exists mat, mat0. rewrite lookup_alter_ne by exact Hne. auto.
Qed.

Lemma restored_needsUpdate store0 store b id id' :
  restored store0 store id' ->
  restored store0 (alter (Material.set_needsUpdate b) id store) id'.
Proof.
  intros (mat & mat0 & H1 & H2 & H3 & H4 & H5).
  destruct (decide (id = id')) as [->|Hne].
  - exists (Material.set_needsUpdate b mat), mat0.
    rewrite lookup_alter_eq, H1. auto.
  - exists mat, mat0. rewrite lookup_alter_ne by exact Hne. auto.
Qed.

Lemma restored_map store0 store id id' mat0 :
  store0 !! id = Some mat0 ->
  restored store0 store id' ->
  restored store0 (alter (Material.set_map (Material.map mat0)) id store) id'.
Proof.
  intros H0 (mat & mat0' & H1 & H2 & H3 & H4 & H5).
  destruct (decide (id = id')) as [->|Hne].
  - exists (Material.set_map (Material.map mat0) mat), mat0'.
    rewrite lookup_alter_eq, H1. rewrite H2 in H0. injection H0 as <-. auto.
  - exists mat, mat0'. rewrite lookup_alter_ne by exact Hne. auto.
Qed.

Lemma textured_child store0 child store :
  recorded store0 child -> same_dom store0 store ->
  exists child' store',
    ModelViewer.setViewMode_child "textured" child store = Return child' store' /\
    same_dom store0 store' /\ later store0 store store' /\
    textured_again store0 child child' store'.
Proof.
  intros Hr Hd. unfold ModelViewer.setViewMode_child, recorded, textured_again in *.
  destruct (Object3D.isMesh child) eqn:Hmesh; cbn [negb].
  2:{ exists child, store. split; [reflexivity|]. split; [exact Hd|].
      split; [intros id H; exact H|]. discriminate. }
  specialize (Hr eq_refl).
  change (String.eqb "textured" "wireframe") with false.
  change (String.eqb "textured" "solid") with false. cbv iota.
  destruct (Object3D.material child) as [|id|arr] eqn:Hmat; [destruct Hr| |].
  - rewrite (bind_Return _ _ _ _ _ (assign_single _ _ child id store Hmat)).
    destruct (store0 !! id) as [mat0|] eqn:H0.
    + destruct (store !! id) as [mat|] eqn:H1; [|apply Hd in H1; congruence].
      destruct (truthy (Material.map mat0)) eqn:Htr.
      * rewrite (Hr mat0 eq_refl Htr), Htr.
        rewrite (bind_Return _ _ _ _ _ (assign_single _ _ child id _ Hmat)).
        rewrite (assign_single _ _ child id _ Hmat).
        eexists _, _. split; [reflexivity|].
        split; [auto using same_dom_alter|]. split.
        -- intros id' H. apply restored_needsUpdate, restored_map, restored_wireframe; auto.
        -- intros _. split; [exact Hmat|]. intros mat0' E _. injection E as <-.
           eexists _, mat0. rewrite !lookup_alter_eq, H1. cbn. auto.
      * assert (forall store', same_dom store0 store' ->
                  (forall id', id' <> id -> store' !! id' = store !! id') ->
                  later store0 store store') as Hlater.
        { intros store' _ Hs id' (mat' & mat0' & H2 & H3 & H4 & H5).
          destruct (decide (id' = id)) as [->|Hne]; [congruence|].
          exists mat', mat0'. rewrite Hs by exact Hne. auto. }
        destruct (Object3D.userData_originalMap child) as [original|];
          [destruct (truthy original)|].
        -- rewrite (bind_Return _ _ _ _ _ (assign_single _ _ child id _ Hmat)).
           rewrite (assign_single _ _ child id _ Hmat).
           eexists _, _. split; [reflexivity|].
           split; [auto using same_dom_alter|]. split.
           ++ apply Hlater; [auto using same_dom_alter|].
              intros id' Hne. rewrite !lookup_alter_ne by auto. reflexivity.
           ++ intros _. split; [exact Hmat|]. intros mat0' E. congruence.
        -- eexists _, _. split; [reflexivity|].
           split; [auto using same_dom_alter|]. split.
           ++ apply Hlater; [auto using same_dom_alter|].
              intros id' Hne. rewrite !lookup_alter_ne by auto. reflexivity.
           ++ intros _. split; [exact Hmat|]. intros mat0' E. congruence.
        -- eexists _, _. split; [reflexivity|].
           split; [auto using same_dom_alter|]. split.
           ++ apply Hlater; [auto using same_dom_alter|].
              intros id' Hne. rewrite !lookup_alter_ne by auto. reflexivity.
           ++ intros _. split; [exact Hmat|]. intros mat0' E. congruence.
    + assert (forall store', (forall id', id' <> id -> store' !! id' = store !! id') ->
                  later store0 store store') as Hlater.
      { intros store' Hs id' (mat' & mat0' & H2 & H3 & H4 & H5).
        destruct (decide (id' = id)) as [->|Hne]; [congruence|].
        exists mat', mat0'. rewrite Hs by exact Hne. auto. }
      destruct (Object3D.userData_originalMap child) as [original|];
        [destruct (truthy original)|].
      * rewrite (bind_Return _ _ _ _ _ (assign_single _ _ child id _ Hmat)).
        rewrite (assign_single _ _ child id _ Hmat).
        eexists _, _. split; [reflexivity|].
        split; [auto using same_dom_alter|]. split.
        -- apply Hlater. intros id' Hne. rewrite !lookup_alter_ne by auto. reflexivity.
        -- intros _. split; [exact Hmat|]. intros mat0' E. congruence.
      * eexists _, _. split; [reflexivity|].
        split; [auto using same_dom_alter|]. split.
        -- apply Hlater. intros id' Hne. rewrite !lookup_alter_ne by auto. reflexivity.
        -- intros _. split; [exact Hmat|]. intros mat0' E. congruence.
      * eexists _, _. split; [reflexivity|].
        split; [auto using same_dom_alter|]. split.
        -- apply Hlater. intros id' Hne. rewrite !lookup_alter_ne by auto. reflexivity.
        -- intros _. split; [exact Hmat|]. intros mat0' E. congruence.
  - rewrite (bind_Return _ _ _ _ _ (assign_multi _ _ child arr store Hmat)).
    cbn [Object3D.userData_originalMap Object3D.set_material].
    destruct (Object3D.userData_originalMap child) as [original|];
      [destruct (truthy original) eqn:Htr|].
    + erewrite bind_Return by (apply assign_multi; reflexivity).
      erewrite assign_multi by reflexivity.
      eexists _, _. split; [reflexivity|]. split; [exact Hd|].
      split; [intros id H; exact H|]. intros _.
      eexists. split; [reflexivity|]. split; [reflexivity|].
      intros o E _. injection E as <-. reflexivity.
    + eexists _, _. split; [reflexivity|]. split; [exact Hd|].
      split; [intros id H; exact H|]. intros _.
      eexists. split; [reflexivity|]. split; [reflexivity|].
      intros o E Ho. injection E as <-. congruence.
    + eexists _, _. split; [reflexivity|]. split; [exact Hd|].
      split; [intros id H; exact H|]. intros _.
      eexists. split; [reflexivity|]. split; [reflexivity|].
      intros o E. discriminate.
Qed.

Lemma later_refl store0 store : later store0 store store.
Proof. intros id H. exact H. Qed.

Lemma later_trans store0 s1 s2 s3 :
  later store0 s1 s2 -> later store0 s2 s3 -> later store0 s1 s3.
Proof. intros H1 H2 id H. auto. Qed.

Lemma textured_pass store0 nodes store :
  Forall (recorded store0) nodes -> same_dom store0 store ->
  exists nodes' store',
    ModelViewer.traverse (ModelViewer.setViewMode_child "textured") nodes store
    = (nodes', Return tt store') /\
    later store0 store store' /\
    Forall2 (fun child child' => textured_again store0 child child' store')
            nodes nodes'.
Proof.
  intros Hn. revert store. induction Hn as [|child nodes Hc Hn IH]; intros store Hd.
  - exists [], store. simpl. auto using later_refl.
  - destruct (textured_child store0 child store Hc Hd)
      as (child' & store1 & E1 & Hd1 & Hl1 & Hs).
    destruct (IH store1 Hd1) as (nodes' & store' & E2 & Hl' & Hs').
    exists (child' :: nodes'), store'. cbn [ModelViewer.traverse].
    rewrite E1, E2. cbn [fst snd].
    split; [reflexivity|]. split; [eauto using later_trans|].
    constructor; [|exact Hs'].
    eapply textured_again_later; eauto.
Qed.

Lemma recorded_setup_child mobile store0 child :
  has_material child -> recorded store0 (ModelViewer.setup_child mobile store0 child).
Proof.
  unfold has_material, recorded, ModelViewer.setup_child. intros Hm.
  destruct (Object3D.isMesh child) eqn:Hmesh; [|congruence].
  specialize (Hm eq_refl). cbn [Object3D.material Object3D.set_shadows].
  destruct (Object3D.material child) as [|id|arr] eqn:Hmat; [congruence| |].
  - intros _. cbn [ModelViewer.material_map].
    destruct (store0 !! id) as [mat0|] eqn:H0.
    + destruct (truthy (Material.map mat0)) eqn:Htr; cbn; rewrite Hmat.
      * intros mat0' E _. congruence.
      * intros mat0' E. congruence.
    + cbn. rewrite Hmat. intros mat0 E. congruence.
  - intros _. destruct (truthy _); cbn; rewrite Hmat; exact I.
Qed.

Lemma recorded_shape store0 child child' :
  recorded store0 child -> shape child child' -> recorded store0 child'.
Proof.
  unfold recorded, shape. intros Hr (H1 & H2 & H3) Hm.
  rewrite H1 in Hm. specialize (Hr Hm). rewrite H2.
  destruct (Object3D.material child) as [|id|arr]; [destruct Hr| |].
  - rewrite H3. exact Hr.
  - destruct H3 as [arr' ->]. exact I.
Qed.

Lemma round_trip_child mobile store0 child child1 child2 store2 :
  map_recorded store0 child = true ->
  shape (ModelViewer.setup_child mobile store0 child) child1 ->
  textured_again store0 child1 child2 store2 ->
  round_trip store0 child store2 child2.
Proof.
  unfold map_recorded, shape, textured_again, round_trip, ModelViewer.setup_child.
  intros H (H1 & H2 & H3) H4. apply andb_true_iff in H as [Hmesh Htr].
  rewrite Hmesh in *. cbn [Object3D.material Object3D.set_shadows] in *.
  rewrite Htr in *.
  cbn [Object3D.material Object3D.userData_originalMap Object3D.isMesh
       Object3D.set_originalMap Object3D.set_shadows] in *.
  rewrite Hmesh in H1. specialize (H4 H1).
  destruct (Object3D.material child) as [|id|arr] eqn:Hmat; [discriminate| |].
  - rewrite H3 in H4. destruct H4 as [-> H4].
    cbn [ModelViewer.material_map] in Htr |- *.
    destruct (store0 !! id) as [mat0|] eqn:H0; [|discriminate].
    destruct (H4 mat0 eq_refl Htr) as (mat & mat0' & E1 & E2 & E3 & E4 & E5).
    rewrite H0 in E2. injection E2 as <-.
    unfold wireframe_of. rewrite E1. cbn. rewrite E4, E5. auto.
  - destruct H3 as [arr1 H3]. rewrite H3 in H4.
    destruct H4 as (arr2 & -> & Hw & Ho).
    cbn [ModelViewer.material_map wireframe_of] in *.
    split; [|exact Hw]. apply Ho; [exact H2|exact Htr].
Qed.

Lemma Forall2_map_left {A B C} (P : B -> C -> Prop) (f : A -> B) l k :
  Forall2 P (List.map f l) k -> Forall2 (fun x y => P (f x) y) l k.
Proof.
  revert k. induction l as [|x l IH]; intros k H; inversion H; subst; constructor; auto.
Qed.

Lemma Forall2_chain {A B C} (P : A -> B -> Prop) (Q : B -> C -> Prop) l k k' :
  Forall2 P l k -> Forall2 Q k k' ->
  Forall2 (fun x z => exists y, P x y /\ Q y z) l k'.
Proof.
  intros H. revert k'. induction H; intros k' H'; inversion H'; subst;
    constructor; eauto.
Qed.

Lemma has_material_nodes m :
  meshes_have_material m = true -> Forall has_material (Model.nodes m).
Proof.
  unfold meshes_have_material. rewrite forallb_forall, Forall_forall.
  intros H child Hin Hm. apply list_elem_of_In, H in Hin. rewrite Hm in Hin.
  destruct (Object3D.material child); [discriminate|discriminate|discriminate].
Qed.

Lemma has_material_setup_child mobile store child :
  has_material child -> has_material (ModelViewer.setup_child mobile store child).
Proof.
  unfold has_material, ModelViewer.setup_child.
  destruct (Object3D.isMesh child) eqn:Hm; [|rewrite Hm; auto].
  destruct (truthy _); cbn; auto.
Qed.

Lemma same_dom_refl store : same_dom store store.
Proof. intros id. reflexivity. Qed.

Lemma setViewMode_returns mode v e m m' store' :
  ModelViewer.model v = Some m ->
  ModelViewer.applyViewMode mode m = (m', Return tt store') ->
  ModelViewer.setViewMode mode (v, e)
  = Return tt (ModelViewer.set_model (Some m') (ModelViewer.set_viewMode mode v), e).
Proof.
  intros Hm Ha. unfold ModelViewer.setViewMode.
  unfold bind, ModelViewer.update, ModelViewer.this, modify. cbn [fst snd].
  cbn [ModelViewer.model ModelViewer.set_viewMode]. rewrite Hm, Ha. reflexivity.
Qed.

(** C6: on a model as the success handler left it, setViewMode('solid')
    followed by setViewMode('textured') both return, and afterwards every
    Mesh whose material had a map when the model was loaded (the map that
    was recorded as userData.originalMap) reads the very same value from
    child.material.map again, with child.material.wireframe false. *)
Theorem solid_then_textured_round_trip (rev : revision) (mobile : bool)
    (gltf : Model.t) (v : ModelViewer.t) (e : Env.t) :
  meshes_have_material gltf = true ->
  ModelViewer.model v
  = Some (ModelViewer.setup_materials mobile (ModelViewer.normalize rev gltf)) ->
  exists s1 s2 m2,
    ModelViewer.setViewMode "solid" (v, e) = Return tt s1 /\
    ModelViewer.setViewMode "textured" s1 = Return tt s2 /\
    ModelViewer.model (fst s2) = Some m2 /\
    forall i child,
      Model.nodes gltf !! i = Some child ->
      Object3D.isMesh child = true ->
      truthy (ModelViewer.material_map (Model.materials gltf)
                (Object3D.material child)) = true ->
      exists child2,
        Model.nodes m2 !! i = Some child2 /\
        ModelViewer.material_map (Model.materials m2) (Object3D.material child2)
        = ModelViewer.material_map (Model.materials gltf) (Object3D.material child) /\
        wireframe_of (Model.materials m2) (Object3D.material child2) = Some false.
Proof.
  intros Hmat Hmodel.
  set (store0 := Model.materials gltf).
  set (m0 := ModelViewer.setup_materials mobile (ModelViewer.normalize rev gltf)) in *.
  pose proof (has_material_nodes gltf Hmat) as Hn.
  assert (Model.nodes m0 = List.map (ModelViewer.setup_child mobile store0) (Model.nodes gltf))
    as Hnodes0 by reflexivity.
  assert (Model.materials m0 = store0) as Hstore0 by reflexivity.
  destruct (solid_pass store0 (Model.nodes m0) store0) as (nodes1 & store1 & E1 & Hd1 & Hs1).
  { rewrite Hnodes0. apply Forall_map.
    eapply Forall_impl; [exact Hn|]. intros c. apply has_material_setup_child. }
  { apply same_dom_refl. }
  destruct (textured_pass store0 nodes1 store1) as (nodes2 & store2 & E2 & _ & Hs2).
  { assert (Forall (recorded store0) (Model.nodes m0)) as Hr.
    { rewrite Hnodes0. apply Forall_map.
      eapply Forall_impl; [exact Hn|]. intros c. apply recorded_setup_child. }
    clear - Hr Hs1. induction Hs1; constructor.
    - inversion Hr; subst. eapply recorded_shape; eauto.
    - inversion Hr; subst. auto. }
  { exact Hd1. }
  set (m1 := Model.set_nodes nodes1 (Model.set_materials store1 m0)).
  set (m2 := Model.set_nodes nodes2 (Model.set_materials store2 m1)).
  assert (ModelViewer.applyViewMode "solid" m0 = (m1, Return tt store1)) as A1.
  { unfold ModelViewer.applyViewMode. rewrite Hstore0, E1. reflexivity. }
  assert (ModelViewer.applyViewMode "textured" m1 = (m2, Return tt store2)) as A2.
  { unfold ModelViewer.applyViewMode.
    change (Model.nodes m1) with nodes1. change (Model.materials m1) with store1.
    rewrite E2. reflexivity. }
  eexists _, _, m2.
  split; [exact (setViewMode_returns "solid" v e m0 m1 store1 Hmodel A1)|].
  split; [apply (setViewMode_returns "textured" _ e m1 m2 store2); [reflexivity|exact A2]|].
  split; [reflexivity|].
  intros i child Hi Hmesh Htr.
  rewrite Hnodes0 in Hs1. apply Forall2_map_left in Hs1.
  pose proof (Forall2_chain _ _ _ _ _ Hs1 Hs2) as Hs.
  destruct (Forall2_lookup_l _ _ _ i child Hs Hi) as (child2 & Hi2 & child1 & Hsh & Hta).
  exists child2. split; [exact Hi2|].
  apply (round_trip_child mobile store0 child child1 child2 store2); auto.
  unfold map_recorded. rewrite Hmesh. exact Htr.
Qed.

Lemma wp_invoke {A} a (m : M ModelViewer.state A) (Q : A -> Page.t -> Prop)
    (E : Page.t -> Prop) p v :
  Page.objects p !! a = Some v ->
  wp m
    (fun x s => Q x (Page.mk (Page.viewers p) (<[a := fst s]> (Page.objects p))
                       (Page.next_object p) (snd s)))
    (fun s => E (Page.mk (Page.viewers p) (<[a := fst s]> (Page.objects p))
                   (Page.next_object p) (snd s)))
    (v, Page.env p) ->
  wp (Page.invoke a m) Q E p.
Proof.
  unfold wp, Page.invoke. intros ->. destruct (m (v, Page.env p)); auto.
Qed.

Ltac norm_state ::=
  cbn beta iota zeta delta
    [fst snd ModelViewer.canvasId ModelViewer.canvas ModelViewer.scene
    ModelViewer.camera ModelViewer.renderer ModelViewer.controls
    ModelViewer.model ModelViewer.animationId ModelViewer.viewMode
    ModelViewer.isInitialized ModelViewer.touchStartX
    ModelViewer.touchStartY ModelViewer.touchStartDistance
    ModelViewer.isTouch ModelViewer.isMobile ModelViewer.pixelRatio
    ModelViewer.handleResize_fn ModelViewer.handleVisibilityChange_fn
    ModelViewer.testCube ModelViewer.set_scene ModelViewer.set_camera
    ModelViewer.set_renderer ModelViewer.set_controls ModelViewer.set_model
    ModelViewer.set_animationId ModelViewer.set_viewMode
    ModelViewer.set_isInitialized ModelViewer.set_touchStartX
    ModelViewer.set_touchStartY ModelViewer.set_touchStartDistance
    ModelViewer.set_isTouch ModelViewer.set_handleResize_fn
    ModelViewer.set_handleVisibilityChange_fn ModelViewer.set_testCube
    Env.THREE Env.GLTFLoader Env.OrbitControls Env.WebGL Env.mobile
    Env.devicePixelRatio Env.hidden Env.document Env.listeners
    Env.next_function Env.frames Env.next_frame Env.trace Env.set_hidden
    Env.set_document Env.set_listeners Env.set_next_function Env.set_frames
    Env.set_next_frame Env.set_trace Env.log
    Page.viewers Page.objects Page.next_object Page.env].

Ltac wp_custom ::=
  lazymatch goal with
  | |- wp (ModelViewer.disposeModel _) _ _ _ =>
      apply wp_disposeModel; [solve [auto] | unfold logged]
  | |- wp (Page.invoke _ _) _ _ _ =>
      eapply wp_invoke;
      [first [eassumption | apply lookup_insert_eq] | ]
  | |- wp (match Page.read _ _ with _ => _ end) _ _ _ => unfold Page.read
  end.

Ltac reused_solve :=
  unfold reused, unchanged_fields; norm_state;
  rewrite ?lookup_insert_eq, <- ?app_assoc;
  split; [reflexivity|]; split; [reflexivity|];
  split; [eexists; split; [first [reflexivity | eassumption]|];
          norm_state; repeat split; auto; congruence|];
  eexists; split; [first [symmetry; apply app_nil_r | reflexivity]|];
  reflexivity.

Lemma read_registered p canvasId a :
  Page.viewers p !! canvasId = Some a -> Page.read p canvasId = Page.viewer a.
Proof. unfold Page.read. intros ->. reflexivity. Qed.

Lemma read_unregistered p canvasId :
  Page.viewers p !! canvasId = None -> inherited canvasId = false ->
  Page.read p canvasId = Page.undefined.
Proof. unfold Page.read. intros -> ->. reflexivity. Qed.

Lemma read_inherited p canvasId :
  Page.viewers p !! canvasId = None -> inherited canvasId = true ->
  Page.read p canvasId = Page.prototype_member.
Proof. unfold Page.read. intros -> ->. reflexivity. Qed.

Lemma load3DModel_registered rev canvasId path b p a v :
  Page.viewers p !! canvasId = Some a ->
  Page.objects p !! a = Some v ->
  reused a v p (state_of (Page.load3DModel rev canvasId path b p)).
Proof.
  intros Hv Ho.
  apply (wp_state_of (Page.load3DModel rev canvasId path b) (reused a v p)).
  wp_run; reused_solve.
Qed.

Ltac created_solve :=
  unfold created; norm_state;
  rewrite ?lookup_insert_eq, <- ?app_assoc;
  split; [reflexivity|];
  split; [eexists; split; reflexivity|];
  eexists; split; [reflexivity|];
  unfold once_each, init_steps, count; cbn [debugging app];
  split;
  [repeat (constructor; [repeat (cbn; rewrite ?Nat.eqb_refl); reflexivity|]);
   constructor
  |repeat (cbn; rewrite ?Nat.eqb_refl); reflexivity].

Lemma load3DModel_first rev canvasId path b p canvas box :
  Page.viewers p !! canvasId = None ->
  inherited canvasId = false ->
  Env.THREE (Page.env p) = true ->
  Env.GLTFLoader (Page.env p) = true ->
  Env.OrbitControls (Page.env p) = true ->
  Env.WebGL (Page.env p) = true ->
  Env.document (Page.env p) !! canvasId = Some canvas ->
  Canvas.parentElement canvas = Some box ->
  created rev (Page.next_object p) p
    (state_of (Page.load3DModel rev canvasId path b p)) canvasId.
Proof.
  intros Hv Hi H3 Hg Ho Hw Hd Hp.
  apply (wp_state_of (Page.load3DModel rev canvasId path b)
           (fun p' => created rev (Page.next_object p) p p' canvasId)).
  destruct p as [vs os n e]. cbn [Page.viewers Page.env Page.next_object] in *.
  destruct rev; wp_run; created_solve.
Qed.

Lemma count_app f l l' : count f (l ++ l') = count f l + count f l'.
Proof. unfold count. rewrite List.filter_app, length_app. reflexivity. Qed.

Lemma performs_init_effect rev a st c :
  In st (init_steps rev) -> performs a st c = true -> init_effect c = true.
Proof.
  intros Hin Hp.
  destruct st, c; simpl in Hp; try discriminate; try reflexivity.
  - destruct o; [reflexivity|discriminate|discriminate].
  - simpl. apply andb_true_iff in Hp as [Hty _].
    apply String.eqb_eq in Hty. subst ty.
    destruct rev; simpl in Hin;
      repeat (destruct Hin as [Hin|Hin];
              [try discriminate;
               try (injection Hin as <-; rewrite ?orb_true_r; reflexivity)|]);
      destruct Hin.
Qed.

Lemma no_init_count rev a st calls :
  In st (init_steps rev) -> no_init calls = true ->
  count (performs a st) calls = 0.
Proof.
  intros Hin. unfold no_init, count.
  induction calls as [|c calls IH]; simpl; [reflexivity|].
  intros H. apply andb_true_iff in H as [Hc H].
  destruct (performs a st c) eqn:Hp.
  - apply (performs_init_effect rev a st c Hin) in Hp. rewrite Hp in Hc. discriminate.
  - auto.
Qed.

Lemma no_init_effects calls : no_init calls = true -> count init_effect calls = 0.
Proof.
  unfold no_init, count.
  induction calls as [|c calls IH]; simpl; [reflexivity|].
  intros H. apply andb_true_iff in H as [Hc H].
  destruct (init_effect c); [discriminate|auto].
Qed.

Lemma init_returns_immediately rev a v e :
  ModelViewer.isInitialized v = true ->
  ModelViewer.init rev a (v, e) = Return tt (v, e).
Proof.
  intros H. unfold ModelViewer.init, bind, ModelViewer.this. cbn [fst].
  rewrite H. reflexivity.
Qed.

(** C2, amended: for a canvas id that is not the name of a member of
    Object.prototype, the first load3DModel creates and registers a viewer
    and runs init; a second load3DModel for the same id finds that entry:
    the registry is as it was and no object is created, so both calls work
    on the same instance.  Over the two calls together each step of init
    (scene, camera, renderer, each light, controls, the resize and the
    visibilitychange subscription) is performed exactly once and nothing of
    the kind is done besides, and a call of init on the instance returns
    immediately, changing nothing. *)
Theorem load3DModel_twice (rev : revision) (canvasId path1 path2 : string)
    (b1 b2 : bool) (p : Page.t) (canvas : Canvas.t) (box : Container.t) :
  Page.viewers p !! canvasId = None ->
  inherited canvasId = false ->
  Env.THREE (Page.env p) = true ->
  Env.GLTFLoader (Page.env p) = true ->
  Env.OrbitControls (Page.env p) = true ->
  Env.WebGL (Page.env p) = true ->
  Env.document (Page.env p) !! canvasId = Some canvas ->
  Canvas.parentElement canvas = Some box ->
  let p1 := state_of (Page.load3DModel rev canvasId path1 b1 p) in
  let p2 := state_of (Page.load3DModel rev canvasId path2 b2 p1) in
  exists a v2 calls,
    Page.viewers p1 !! canvasId = Some a /\
    Page.viewers p2 = Page.viewers p1 /\
    Page.next_object p2 = Page.next_object p1 /\
    Page.objects p2 !! a = Some v2 /\
    ModelViewer.init rev a (v2, Page.env p2) = Return tt (v2, Page.env p2) /\
    Env.trace (Page.env p2) = Env.trace (Page.env p) ++ calls /\
    Forall (fun st => count (performs a st) calls = 1) (init_steps rev) /\
    count init_effect calls = length (init_steps rev).
Proof.
  intros Hv Hi H3 Hg Ho Hw Hd Hp p1 p2.
  destruct (load3DModel_first rev canvasId path1 b1 p canvas box
              Hv Hi H3 Hg Ho Hw Hd Hp)
    as (Hreg & (v1 & Hv1 & Hinit) & calls & Htr & Honce & Hall).
  fold p1 in Hreg, Hv1, Htr.
  destruct (load3DModel_registered rev canvasId path2 b2 p1 _ v1 Hreg Hv1)
    as (Hvs & Hnext & (v2 & Hv2 & Hf) & rest & Htr2 & Hrest).
  fold p2 in Hvs, Hnext, Hv2, Htr2.
  exists (Page.next_object p), v2, (calls ++ rest).
  split; [exact Hreg|]. split; [exact Hvs|]. split; [exact Hnext|].
  split; [exact Hv2|]. split; [|split; [|split]].
  - apply init_returns_immediately.
    destruct Hf as (_ & _ & _ & -> & _). exact Hinit.
  - rewrite Htr2, Htr, app_assoc. reflexivity.
  - rewrite Forall_forall in Honce |- *.
    intros st Hin. rewrite count_app, (Honce st Hin).
    rewrite (no_init_count rev); [reflexivity| |exact Hrest].
    apply list_elem_of_In. exact Hin.
  - rewrite count_app, Hall, (no_init_effects rest Hrest). lia.
Qed.

Lemma keeps_viewers_invoke {A} a (m : M ModelViewer.state A) :
  keeps Page.viewers (Page.invoke a m).
Proof.
  intros p. unfold Page.invoke.
  destruct (Page.objects p !! a); [|reflexivity].
  destruct (m _); reflexivity.
Qed.

Lemma keeps_viewers_beforeunload : keeps Page.viewers Page.beforeunload.
Proof.
  unfold Page.beforeunload.
  apply keeps_bind; [intros p; reflexivity|]. intros p.
  apply keeps_forEach. intros ia. apply keeps_viewers_invoke.
Qed.

Lemma invoke_dispose p a v :
  Page.objects p !! a = Some v ->
  (forall m, ModelViewer.model v = Some m -> well_typed m = true) ->
  exists e',
    Page.invoke a (ModelViewer.dispose a) p
    = Return tt (Page.mk (Page.viewers p) (<[a := released v]> (Page.objects p))
                   (Page.next_object p) e').
Proof.
  intros Ho Ht. destruct (dispose_spec a v (Page.env p) Ht) as (e' & Hd & _).
  exists e'. unfold Page.invoke. rewrite Ho, Hd. reflexivity.
Qed.

(** C10: dispose on a registered, initialised viewer returns; the viewer
    stays in the registry under its id, with isInitialized true and scene,
    camera, renderer and controls null (and the beforeunload handler, which
    disposes of every viewer, leaves the registry as it is).  A load3DModel
    for the same id then creates no object and works on that instance, makes
    none of the calls of init, and leaves the four fields null; a call of
    init on the instance returns immediately, changing nothing. *)
Theorem disposed_viewer_is_reused (rev : revision) (canvasId path : string)
    (b : bool) (p : Page.t) (a : addr) (v : ModelViewer.t) :
  Page.viewers p !! canvasId = Some a ->
  Page.objects p !! a = Some v ->
  ModelViewer.isInitialized v = true ->
  (forall m, ModelViewer.model v = Some m -> well_typed m = true) ->
  exists p1 v1 v2,
    Page.invoke a (ModelViewer.dispose a) p = Return tt p1 /\
    Page.viewers p1 = Page.viewers p /\
    Page.viewers (state_of (Page.beforeunload p)) = Page.viewers p /\
    Page.objects p1 !! a = Some v1 /\
    ModelViewer.isInitialized v1 = true /\
    let p2 := state_of (Page.load3DModel rev canvasId path b p1) in
    Page.viewers p2 !! canvasId = Some a /\
    Page.next_object p2 = Page.next_object p /\
    Page.objects p2 !! a = Some v2 /\
    ModelViewer.init rev a (v2, Page.env p2) = Return tt (v2, Page.env p2) /\
    (ModelViewer.scene v2 = None /\ ModelViewer.camera v2 = None /\
     ModelViewer.renderer v2 = None /\ ModelViewer.controls v2 = None) /\
    exists calls,
      Env.trace (Page.env p2) = Env.trace (Page.env p1) ++ calls /\
      no_init calls = true.
Proof.
  intros Hreg Ho Hinit Ht.
  destruct (invoke_dispose p a v Ho Ht) as (e' & Hd).
  set (p1 := Page.mk (Page.viewers p) (<[a := released v]> (Page.objects p))
               (Page.next_object p) e') in *.
  assert (Page.objects p1 !! a = Some (released v)) as Ho1
    by apply lookup_insert_eq.
  destruct (load3DModel_registered rev canvasId path b p1 a (released v) Hreg Ho1)
    as (Hvs & Hnext & (v2 & Hv2 & Hc & Hr & Hcs & Hi & Hs) & rest & Htr & Hrest).
  exists p1, (released v), v2.
  split; [exact Hd|]. split; [reflexivity|].
  split; [apply keeps_viewers_beforeunload|].
  split; [exact Ho1|]. split; [exact Hinit|].
  intros p2. fold p2 in Hvs, Hnext, Hv2, Htr.
  split; [rewrite Hvs; exact Hreg|]. split; [exact Hnext|].
  split; [exact Hv2|]. split.
  { apply init_returns_immediately. rewrite Hi. exact Hinit. }
  split.
  { split; [apply Hs; reflexivity|]. rewrite Hc, Hr, Hcs. auto. }
  exists rest. auto.
Qed.

Lemma example_run_check :
  let s := run js_model_viewer 0 example_events
             (start js_model_viewer 0 "viewer" (example_env false example_box)) in
  attached (fst s) = [2] /\
  ModelViewer.isInitialized (fst s) = true /\
  ModelViewer.animationId (fst s) = Some 1%positive /\
  scheduled 0 (snd s) = [1%positive].
Proof. vm_compute. repeat split. Qed.

(** ** C3 *)

Lemma ltb_zero_of_eqb_zero (x : float) :
  (x =? 0)%float = true -> (0 <? x)%float = false.
Proof.
  rewrite FloatAxioms.eqb_spec, FloatAxioms.ltb_spec.
  change (Prim2SF 0) with (S754_zero false).
  unfold SFeqb, SFltb.
  destruct (Prim2SF x) as [s| s| |s m e]; simpl; try discriminate; try reflexivity;
    destruct s; simpl; discriminate.
Qed.

(** C3: in js/model-viewer.js the scale is 2 / maxDim without a test.  On a
    model whose bounding box is a point, maxDim is 0, the division is a
    division by zero, the scale factor is Infinity instead of 1, the scale of
    the model becomes (Infinity, Infinity, Infinity) and its position NaN. *)
Theorem degenerate_box_unguarded :
  let size := Model.box_size point_model in
  let maxDim := Math.max (Vector3.x size) (Vector3.y size) (Vector3.z size) in
  let m := ModelViewer.normalize js_model_viewer point_model in
  maxDim = 0%float /\
  ModelViewer.normalization_scale js_model_viewer maxDim = infinity /\
  Model.scale m = Vector3.mk infinity infinity infinity /\
  PrimFloat.is_nan (Vector3.x (Model.position m)) = true /\
  (exists s,
     ModelViewer.onLoad js_model_viewer 0 point_model
       (start js_model_viewer 0 "viewer" (example_env false example_box))
     = Return tt s /\
     Model.scale <$> ModelViewer.model (fst s)
     = Some (Vector3.mk infinity infinity infinity)).
Proof. vm_compute. repeat split. eexists. split; reflexivity. Qed.

(** X1: In the two documents of part_000 the test [maxDim > 0] is there: a
    degenerate bounding box gives the scale factor 1, and the scale of the
    model is multiplied by 1. *)
Lemma degenerate_box_guarded (rev : revision) (m : Model.t) :
  guarded rev = true ->
  let size := Model.box_size m in
  (Math.max (Vector3.x size) (Vector3.y size) (Vector3.z size) =? 0)%float = true ->
  ModelViewer.normalization_scale rev
    (Math.max (Vector3.x size) (Vector3.y size) (Vector3.z size)) = 1%float /\
  Model.scale (ModelViewer.normalize rev m)
  = Vector3.multiplyScalar (Model.scale m) 1.
Proof.
  intros Hg size H0.
  assert (ModelViewer.normalization_scale rev
            (Math.max (Vector3.x size) (Vector3.y size) (Vector3.z size)) = 1%float) as H.
  { unfold ModelViewer.normalization_scale.
    rewrite Hg, (ltb_zero_of_eqb_zero _ H0). reflexivity. }
  split; [exact H|].
  unfold ModelViewer.normalize. fold size. rewrite H. reflexivity.
Qed.

Lemma degenerate_box_guarded_witness :
  ModelViewer.normalization_scale part_000_first
    (Math.max 0 0 0) = 1%float /\
  Model.scale (ModelViewer.normalize part_000_first point_model)
  = Vector3.multiplyScalar (Model.scale point_model) 1.
Proof.
  apply (degenerate_box_guarded part_000_first point_model); reflexivity.
Defined.

(** ** C7 *)

(** C7: in js/model-viewer.js the percentage is loaded / total * 100 without
    a test.  A progress notification with total 0 gives NaN (0 loaded) or
    Infinity, and that is what the loading overlay is given. *)
Theorem progress_total_zero_unguarded :
  PrimFloat.is_nan (ModelViewer.percent js_model_viewer 0 0) = true /\
  ModelViewer.percent js_model_viewer 1024 0 = infinity /\
  let s := run js_model_viewer 0 [call_loadModel "first.glb"; progress 0 0]
             (start js_model_viewer 0 "viewer" (example_env false example_box)) in
  exists p, loading_percent (snd s) "viewer" = Some p /\ PrimFloat.is_nan p = true.
Proof. vm_compute. repeat split. eexists. split; reflexivity. Qed.

(** In the two documents of part_000 the test [progress.total > 0] is
    there: with total 0 the percentage is 0. *)
Lemma progress_total_zero_guarded (rev : revision) (loaded total : float) :
  guarded rev = true -> (total =? 0)%float = true ->
  ModelViewer.percent rev loaded total = 0%float.
Proof.
  intros Hg H0. unfold ModelViewer.percent.
  rewrite Hg, (ltb_zero_of_eqb_zero _ H0). reflexivity.
Qed.

Lemma progress_total_zero_guarded_witness :
  ModelViewer.percent part_000_second 1024 0 = 0%float.
Proof. apply progress_total_zero_guarded; reflexivity. Defined.

(** C5, as stated, fails: the fingers move to 20 px apart; the camera, at
    distance sqrt 10 from the origin, would come to lie at five times that,
    beyond maxDistance = 10.  The camera position is unchanged, and
    touchStartDistance is unchanged as well: still 100, not 20. *)
Lemma pinch_out_of_range_keeps_reference :
  let s := run js_model_viewer 0 [touch_move [(0, 0); (20, 0)]%float] pinching in
  ModelViewer.touchStartDistance (fst pinching) = 100%float /\
  ModelViewer.pinch (0, 0)%float (20, 0)%float = 20%float /\
  Camera.position <$> ModelViewer.camera (fst s) = Some (Vector3.mk 0 1 3) /\
  ModelViewer.touchStartDistance (fst s) = 100%float /\
  (ModelViewer.touchStartDistance (fst s) =? 20)%float = false.
Proof. vm_compute. repeat split. Qed.

(** C5, amended: during a touch, with reference distance d0 > 0, a move of
    two fingers to distance d1 gives scale = d1 / d0 and newDistance =
    |camera position| / scale.  If minDistance < newDistance < maxDistance
    the camera position is multiplied by 1 / scale and touchStartDistance
    becomes d1; otherwise nothing changes, touchStartDistance included. *)
Theorem pinch_zoom (v : ModelViewer.t) (e : Env.t) (t0 t1 : ModelViewer.touch)
    (cam : Camera.t) (c : Controls.t) :
  ModelViewer.isTouch v = true ->
  (0 <? ModelViewer.touchStartDistance v)%float = true ->
  ModelViewer.camera v = Some cam ->
  ModelViewer.controls v = Some c ->
  let d0 := ModelViewer.touchStartDistance v in
  let d1 := ModelViewer.pinch t0 t1 in
  let scale := (d1 / d0)%float in
  let newDistance := (Vector3.length (Camera.position cam) / scale)%float in
  ModelViewer.touchmove [t0; t1] (v, e) =
    if (Controls.minDistance c <? newDistance)%float
       && (newDistance <? Controls.maxDistance c)%float
    then
      Return tt
        (ModelViewer.set_touchStartDistance d1
           (ModelViewer.set_camera
              (Some (Camera.set_position
                 (Vector3.multiplyScalar (Camera.position cam) (1 / scale)) cam))
              v), e)
    else Return tt (v, e).
Proof.
  intros Htouch Hd0 Hcam Hctl d0 d1 scale newDistance.
  unfold ModelViewer.touchmove, bind, ModelViewer.this. cbn [fst snd].
  rewrite Htouch, Hd0, Hcam, Hctl. cbn [negb].
  fold d0 d1 scale newDistance.
  destruct ((Controls.minDistance c <? newDistance)%float
            && (newDistance <? Controls.maxDistance c)%float); reflexivity.
Qed.

(* fingers spreading from 100 px to 200 px: the camera comes to half its
   distance *)
Lemma pinch_zoom_witness :
  ModelViewer.touchmove [(0, 0); (200, 0)]%float
    (touched, example_env true example_box)
  = Return tt
      (ModelViewer.set_touchStartDistance 200
         (ModelViewer.set_camera
            (Some (Camera.set_position (Vector3.mk 0 0.5 1.5) example_camera))
            touched),
       example_env true example_box).
Proof.
  refine (eq_trans
            (pinch_zoom touched (example_env true example_box)
               (0, 0)%float (200, 0)%float example_camera example_controls
               eq_refl eq_refl eq_refl eq_refl) _).
  vm_compute. reflexivity.
Defined.

(** ** C9 *)

(** C9, as stated, fails: a container with clientWidth = clientHeight = 0
    whose offset size is 300 x 150; the surface is created at 300 x 150,
    not at 400 x 400. *)
Lemma unmeasured_container_uses_offset_size :
  let s := start part_000_first 0 "viewer" (example_env false unmeasured_box) in
  Container.clientWidth unmeasured_box = 0%Z /\
  Container.clientHeight unmeasured_box = 0%Z /\
  ModelViewer.isInitialized (fst s) = true /\
  Renderer.size <$> ModelViewer.renderer (fst s) = Some (Some (300, 150)%Z) /\
  Renderer.size <$> ModelViewer.renderer (fst s) <> Some (Some (400, 400)%Z).
Proof. vm_compute. repeat split. discriminate. Qed.

(** C9, amended: in the two documents of part_000, when the parent
    container of the canvas reports clientWidth = 0 and clientHeight = 0,
    init returns with the viewer initialised and the surface sized, in each
    dimension, at the container's offset size, or at 400 when that is 0 as
    well: 400 x 400 when the container reports no size at all. *)
Theorem init_fallback_size (rev : revision) (a : addr) (v : ModelViewer.t)
    (e : Env.t) (id : string) (canvas : Canvas.t) (box : Container.t) :
  guarded rev = true ->
  ModelViewer.isInitialized v = false ->
  Env.THREE e = true -> Env.WebGL e = true ->
  ModelViewer.canvas v = Some id ->
  Env.document e !! id = Some canvas ->
  Canvas.parentElement canvas = Some box ->
  Container.clientWidth box = 0%Z -> Container.clientHeight box = 0%Z ->
  exists s',
    ModelViewer.init rev a (v, e) = Return tt s' /\
    ModelViewer.isInitialized (fst s') = true /\
    Renderer.size <$> ModelViewer.renderer (fst s')
    = Some (Some (if (Container.offsetWidth box =? 0)%Z
                  then 400%Z else Container.offsetWidth box,
                  if (Container.offsetHeight box =? 0)%Z
                  then 400%Z else Container.offsetHeight box)).
Proof.
  intros Hg Hi HT HW Hc Hd Hp Hcw Hch.
  cut (wp (ModelViewer.init rev a)
          (fun _ s' =>
             ModelViewer.isInitialized (fst s') = true /\
             Renderer.size <$> ModelViewer.renderer (fst s')
             = Some (Some (if (Container.offsetWidth box =? 0)%Z
                           then 400%Z else Container.offsetWidth box,
                           if (Container.offsetHeight box =? 0)%Z
                           then 400%Z else Container.offsetHeight box)))
          (fun _ => False) (v, e)).
  { intros H. apply wp_result in H as ([] & s' & H1 & H2). eauto. }
  destruct rev; [discriminate| |].
  - wp_run; unfold ModelViewer.or_else; rewrite ?Hcw, ?Hch; split; reflexivity.
  - wp_run; unfold ModelViewer.or_else; rewrite ?Hcw, ?Hch; split; reflexivity.
Qed.

Lemma init_fallback_size_witness :
  exists s',
    ModelViewer.init part_000_second 0
      (ModelViewer.new "viewer" (example_env false unsized_box),
       example_env false unsized_box) = Return tt s' /\
    ModelViewer.isInitialized (fst s') = true /\
    Renderer.size <$> ModelViewer.renderer (fst s') = Some (Some (400, 400)%Z).
Proof.
  exact (init_fallback_size part_000_second 0
           (ModelViewer.new "viewer" (example_env false unsized_box))
           (example_env false unsized_box) "viewer"
           (example_canvas unsized_box) unsized_box
           eq_refl eq_refl eq_refl eq_refl eq_refl eq_refl eq_refl eq_refl eq_refl).
Defined.

Lemma one_model_attached_witness :
  let s := run js_model_viewer 0 example_events
             (start js_model_viewer 0 "viewer" (example_env false example_box)) in
  length (attached (fst s)) <= 1 /\
  (attached (fst s) = [] \/
   exists cur, ModelViewer.model (fst s) = Some cur /\
               attached (fst s) = [Model.id cur] /\ well_typed cur = true) /\
  replaced 0 attached_model (example_model 2)
    (attached_viewer, example_env false example_box)
    (state_of (ModelViewer.onLoad js_model_viewer 0 (example_model 2)
                 (attached_viewer, example_env false example_box))) /\
  forall cur,
    ModelViewer.model (fst s) = Some cur ->
    attached (fst s) = [Model.id cur] ->
    replaced 0 cur (example_model 2) s
      (state_of (ModelViewer.onLoad js_model_viewer 0 (example_model 2) s)).
Proof.
  apply (one_model_attached js_model_viewer 0 "viewer"
           (example_env false example_box) example_events
           attached_viewer (example_env false example_box)
           attached_model (example_model 2));
    vm_compute; reflexivity.
Defined.

(** C2, as stated, fails for a canvas id that names a member of
    Object.prototype: viewers["constructor"] is the function Object, which
    is truthy, so load3DModel creates and registers no viewer and init never
    runs, in the first call and in the second; each call shows the canvas
    and then throws, because the value has no loadModel. *)
Lemma load3DModel_constructor_id :
  exists p1 p2,
    Page.load3DModel js_model_viewer "constructor" "a.glb" false constructor_page
    = Throw "TypeError: viewers[canvasId].loadModel is not a function" p1 /\
    Page.load3DModel js_model_viewer "constructor" "b.glb" false p1
    = Throw "TypeError: viewers[canvasId].loadModel is not a function" p2 /\
    Page.viewers p2 !! "constructor" = None /\
    Page.objects p2 = ∅ /\
    Page.next_object p2 = 0 /\
    count init_effect (Env.trace (Page.env p2)) = 0 /\
    Canvas.active <$> Env.document (Page.env p2) !! "constructor" = Some true.
Proof.
  eexists. eexists.
  split; [vm_compute; reflexivity|].
  split; [vm_compute; reflexivity|].
  vm_compute. repeat split.
Qed.

Lemma load3DModel_twice_witness :
  let p1 := state_of (Page.load3DModel part_000_first "viewer" "a.glb" true
                        empty_page) in
  let p2 := state_of (Page.load3DModel part_000_first "viewer" "b.glb" false p1) in
  exists a v2 calls,
    Page.viewers p1 !! "viewer" = Some a /\
    Page.viewers p2 = Page.viewers p1 /\
    Page.next_object p2 = Page.next_object p1 /\
    Page.objects p2 !! a = Some v2 /\
    ModelViewer.init part_000_first a (v2, Page.env p2)
    = Return tt (v2, Page.env p2) /\
    Env.trace (Page.env p2) = Env.trace (Page.env empty_page) ++ calls /\
    Forall (fun st => count (performs a st) calls = 1) (init_steps part_000_first) /\
    count init_effect calls = length (init_steps part_000_first).
Proof.
  apply (load3DModel_twice part_000_first "viewer" "a.glb" "b.glb" true false
           empty_page (example_canvas example_box) example_box);
    vm_compute; reflexivity.
Defined.

Lemma dispose_is_safe_witness :
  (exists s1,
     ModelViewer.dispose 0
       (ModelViewer.new "viewer" (example_env false example_box),
        example_env false example_box) = Return tt s1 /\
     scheduled 0 (snd s1) = [])
  /\
  (let s := run part_000_second 0 example_events
              (start part_000_second 0 "viewer" (example_env false example_box)) in
   exists s1 s2,
     ModelViewer.dispose 0 s = Return tt s1 /\ scheduled 0 (snd s1) = [] /\
     ModelViewer.dispose 0 s1 = Return tt s2 /\ scheduled 0 (snd s2) = []).
Proof.
  apply (dispose_is_safe part_000_second 0 "viewer"
           (example_env false example_box) example_events);
    vm_compute; reflexivity.
Defined.

Lemma solid_then_textured_round_trip_witness :
  exists s1 s2 m2,
    ModelViewer.setViewMode "solid" (loaded_viewer, example_env false example_box)
    = Return tt s1 /\
    ModelViewer.setViewMode "textured" s1 = Return tt s2 /\
    ModelViewer.model (fst s2) = Some m2 /\
    forall i child,
      Model.nodes (example_model 1) !! i = Some child ->
      Object3D.isMesh child = true ->
      truthy (ModelViewer.material_map (Model.materials (example_model 1))
                (Object3D.material child)) = true ->
      exists child2,
        Model.nodes m2 !! i = Some child2 /\
        ModelViewer.material_map (Model.materials m2) (Object3D.material child2)
        = ModelViewer.material_map (Model.materials (example_model 1))
            (Object3D.material child) /\
        wireframe_of (Model.materials m2) (Object3D.material child2) = Some false.
Proof.
  apply (solid_then_textured_round_trip js_model_viewer false (example_model 1)
           loaded_viewer (example_env false example_box));
    vm_compute; reflexivity.
Defined.

Lemma visibility_transitions_witness :
  let s := run js_model_viewer 0 example_events
             (start js_model_viewer 0 "viewer" (example_env false example_box)) in
  (forall h, ModelViewer.animationId (fst s) = Some h ->
     exists e',
       step js_model_viewer 0 (visibilitychange true) s =
         Return tt (ModelViewer.set_animationId None (fst s), e') /\
       Env.hidden e' = true /\
       Env.frames e' = ModelViewer.unqueue h (Env.frames (snd s)) /\
       scheduled 0 e' = [])
  /\
  (ModelViewer.model (fst s) <> None -> ModelViewer.animationId (fst s) = None ->
     exists e',
       step js_model_viewer 0 (visibilitychange false) s =
         Return tt (ModelViewer.set_animationId
                      (Some (Env.next_frame (snd s))) (fst s), e') /\
       scheduled 0 e' = [Env.next_frame (snd s)])
  /\
  (ModelViewer.model (fst s) = None \/ ModelViewer.animationId (fst s) <> None ->
     step js_model_viewer 0 (visibilitychange false) s =
       Return tt (fst s, Env.set_hidden false (snd s)))
  /\
  (ModelViewer.model (fst s) = None ->
     forall toggles,
       let s' := run js_model_viewer 0 (List.map visibilitychange toggles) s in
       ModelViewer.model (fst s') = None /\
       incl (Env.frames (snd s')) (Env.frames (snd s))).
Proof.
  apply (visibility_transitions js_model_viewer 0 "viewer"
           (example_env false example_box) example_events);
    vm_compute; reflexivity.
Defined.

Lemma disposed_viewer_is_reused_witness :
  exists p1 v1 v2,
    Page.invoke 0 (ModelViewer.dispose 0) loaded_page = Return tt p1 /\
    Page.viewers p1 = Page.viewers loaded_page /\
    Page.viewers (state_of (Page.beforeunload loaded_page))
    = Page.viewers loaded_page /\
    Page.objects p1 !! 0 = Some v1 /\
    ModelViewer.isInitialized v1 = true /\
    let p2 := state_of (Page.load3DModel js_model_viewer "viewer" "b.glb" false p1) in
    Page.viewers p2 !! "viewer" = Some 0 /\
    Page.next_object p2 = Page.next_object loaded_page /\
    Page.objects p2 !! 0 = Some v2 /\
    ModelViewer.init js_model_viewer 0 (v2, Page.env p2)
    = Return tt (v2, Page.env p2) /\
    (ModelViewer.scene v2 = None /\ ModelViewer.camera v2 = None /\
     ModelViewer.renderer v2 = None /\ ModelViewer.controls v2 = None) /\
    exists calls,
      Env.trace (Page.env p2) = Env.trace (Page.env p1) ++ calls /\
      no_init calls = true.
Proof.
  apply (disposed_viewer_is_reused js_model_viewer "viewer" "b.glb" false
           loaded_page 0 (fst loaded_state)).
  - vm_compute. reflexivity.
  - vm_compute. reflexivity.
  - vm_compute. reflexivity.
  - intros m H. vm_compute in H. injection H as <-. vm_compute. reflexivity.
Defined.

Lemma keeps_loop_of_core {A} (m : M ModelViewer.state A) :
  keeps core m -> keeps loop m.
Proof.
  intros K s. specialize (K s). unfold core in K. unfold loop.
  injection K as _ _ K3 K4. rewrite K3, K4. reflexivity.
Qed.

Lemma keeps_one_loop {A} a (m : M ModelViewer.state A) :
  keeps loop m -> hoare (one_loop a) m (fun _ => one_loop a) (one_loop a).
Proof. intros K. apply (hoare_keeps loop m (one_loopC a) K). Qed.

Ltac loop_auto :=
  repeat first [ apply keeps_loop_of_core; solve [auto with keeps]
               | keeps_step ].

Lemma keeps_loop_scene_add a o : keeps loop (ModelViewer.scene_add_ a o).
Proof. unfold ModelViewer.scene_add_. loop_auto. Qed.

Lemma keeps_loop_scene_remove a o : keeps loop (ModelViewer.scene_remove_ a o).
Proof. unfold ModelViewer.scene_remove_. loop_auto. Qed.

Lemma keeps_loop_setViewMode mode : keeps loop (ModelViewer.setViewMode mode).
Proof.
  unfold ModelViewer.setViewMode.
  apply keeps_bind; [keeps_leaf|]. intros ?.
  apply keeps_bind; [keeps_leaf|]. intros v.
  destruct (ModelViewer.model v) as [m|]; [|apply keeps_ret].
  destruct (ModelViewer.applyViewMode mode m) as [m' r]. cbn [fst snd].
  apply keeps_bind; [keeps_leaf|]. intros ?.
  destruct r; [apply keeps_ret|apply keeps_throw].
Qed.

Lemma one_loop_idle a s : scheduled a (snd s) = [] -> one_loop a s.
Proof. intros H. left. exact H. Qed.

Lemma one_loop_no_handle a s :
  one_loop a s -> ModelViewer.animationId (fst s) = None ->
  scheduled a (snd s) = [].
Proof.
  intros [H|(h & Hh & _)] Hid; [exact H|].
  unfold loop in Hh. cbn [fst] in Hh. congruence.
Qed.

Lemma scheduled_unqueue_handle a h fs :
  List.map fst (List.filter (fun f => Nat.eqb (snd f) a) fs) = [h] ->
  List.map fst (List.filter (fun f => Nat.eqb (snd f) a) (ModelViewer.unqueue h fs)) = [].
Proof.
  unfold ModelViewer.unqueue.
  induction fs as [|[h' a'] fs IH]; cbn [List.filter List.map fst snd]; [discriminate|].
  destruct (Nat.eqb a' a) eqn:Ea; cbn [List.map fst].
  - intros H. injection H as -> H. rewrite Pos.eqb_refl. cbn [negb].
    clear IH. induction fs as [|[h'' a''] fs IH]; cbn; [reflexivity|].
    cbn in H. destruct (Nat.eqb a'' a) eqn:Ea'; [discriminate|].
    destruct (negb (h'' =? h)%positive); cbn; rewrite ?Ea'; auto.
  - intros H. destruct (negb (h' =? h)%positive); cbn [List.filter snd];
      rewrite ?Ea; auto.
Qed.

Lemma scheduled_unqueue_nil a h fs :
  List.map fst (List.filter (fun f => Nat.eqb (snd f) a) fs) = [] ->
  List.map fst (List.filter (fun f => Nat.eqb (snd f) a) (ModelViewer.unqueue h fs)) = [].
Proof.
  unfold ModelViewer.unqueue.
  induction fs as [|[h' a'] fs IH]; cbn [List.filter List.map fst snd]; [reflexivity|].
  destruct (Nat.eqb a' a) eqn:Ea; cbn [List.map fst]; [discriminate|].
  intros H. destruct (negb (h' =? h)%positive); cbn [List.filter snd];
    rewrite ?Ea; auto.
Qed.

(* cancelAnimationFrame(this.animationId) leaves no frame of the viewer *)
Lemma cancel_frame_idle a h :
  hoare (fun s => one_loop a s /\ ModelViewer.animationId (fst s) = Some h)
        (ModelViewer.cancel_frame h)
        (fun _ s => scheduled a (snd s) = []) (fun _ => False).
Proof.
  intros [v e] [Hl Hid]. unfold ModelViewer.cancel_frame, ModelViewer.update_env, modify.
  cbn [fst snd] in *. unfold scheduled. cbn [Env.frames Env.log Env.set_trace Env.set_frames].
  destruct Hl as [Hl|(h' & Hh & Hl)]; unfold loop in *; cbn [fst snd] in *.
  - apply scheduled_unqueue_nil, Hl.
  - rewrite Hid in Hh. injection Hh as <-. apply scheduled_unqueue_handle, Hl.
Qed.

Lemma animate_one_loop a :
  hoare (fun s => scheduled a (snd s) = []) (ModelViewer.animate a)
        (fun _ => one_loop a) (one_loop a).
Proof.
  intros [v e] Hs. cbn [snd] in Hs.
  destruct (animate_spec a v e) as (e' & -> & Hf & _).
  right. exists (Env.next_frame e). split; [reflexivity|].
  unfold loop. cbn [fst snd].
  change (scheduled a e' = [Env.next_frame e]).
  rewrite (scheduled_app a e e' _ Hf), Hs. cbn. rewrite Nat.eqb_refl. reflexivity.
Qed.

Lemma handleVisibilityChange_one_loop a :
  hoare (one_loop a) (ModelViewer.handleVisibilityChange a)
        (fun _ => one_loop a) (one_loop a).
Proof.
  intros [v e] Hl. unfold ModelViewer.handleVisibilityChange.
  unfold bind at 1 2. unfold ModelViewer.this, ModelViewer.env. cbn [fst snd].
  destruct (Env.hidden e) eqn:Hh, (ModelViewer.animationId v) as [h|] eqn:Hid;
    try destruct (ModelViewer.model v) eqn:Hm; try exact Hl.
  1,2: pose proof (cancel_frame_idle a h (v, e) (conj Hl Hid)) as Hc;
       unfold bind; destruct (ModelViewer.cancel_frame h (v, e)) as [[] [v' e']|];
       [|destruct Hc]; left; exact Hc.
  apply (animate_one_loop a (v, e)).
  apply (one_loop_no_handle a (v, e) Hl Hid).
Qed.

Lemma dispose_one_loop a :
  hoare (one_loop a) (ModelViewer.dispose a) (fun _ => one_loop a) (one_loop a).
Proof.
  unfold ModelViewer.dispose.
  eapply hoare_bind with (R := fun v s => one_loop a s /\ v = fst s).
  { intros [v e] Hl. cbn. auto. }
  intros v0.
  eapply hoare_bind with (R := fun _ s => one_loop a s).
  { destruct (ModelViewer.animationId v0) as [h|] eqn:Hid.
    - eapply hoare_weaken; [apply (cancel_frame_idle a h)|..].
      + intros s [Hl ->]. auto.
      + intros ? s Hs. apply one_loop_idle, Hs.
      + intros s [].
    - apply hoare_ret. intros s [Hl _]. exact Hl. }
  intros ?.
  repeat (eapply hoare_bind with (R := fun _ s => one_loop a s);
          [apply keeps_one_loop;
           try destruct (ModelViewer.model v0);
           try destruct (ModelViewer.renderer v0);
           try destruct (ModelViewer.controls v0); loop_auto | intros ?]).
  apply keeps_one_loop. keeps_leaf.
Qed.

Lemma onLoad_one_loop rev a g :
  hoare (one_loop a) (ModelViewer.onLoad rev a g) (fun _ => one_loop a) (one_loop a).
Proof.
  unfold ModelViewer.onLoad.
  eapply hoare_bind with (R := fun _ s => one_loop a s);
    [apply keeps_one_loop; keeps_leaf|intros v0].
  eapply hoare_bind with (R := fun _ s => one_loop a s).
  { apply keeps_one_loop. destruct (ModelViewer.model v0); [|apply keeps_ret].
    apply keeps_bind; [apply keeps_loop_scene_remove|intros ?].
    apply keeps_loop_of_core, keeps_disposeModel. }
  intros ?.
  eapply hoare_bind with (R := fun _ s => one_loop a s);
    [apply keeps_one_loop; keeps_leaf|intros ?].
  eapply hoare_bind with (R := fun _ s => one_loop a s);
    [apply keeps_one_loop, keeps_loop_scene_add|intros ?].
  eapply hoare_bind with (R := fun _ s => one_loop a s);
    [apply keeps_one_loop; destruct rev; loop_auto|intros ?].
  eapply hoare_bind with (R := fun v s => one_loop a s /\ v = fst s).
  { intros [v e] Hl. cbn. auto. }
  intros v1.
  eapply hoare_bind with (R := fun _ s => one_loop a s).
  { destruct (ModelViewer.animationId v1) eqn:Hid.
    - apply hoare_ret. intros s [Hl _]. exact Hl.
    - eapply hoare_weaken; [apply animate_one_loop|..]; auto.
      intros s [Hl ->]. apply (one_loop_no_handle a s Hl Hid). }
  intros ?. apply keeps_one_loop. loop_auto.
Qed.

Lemma step_one_loop rev a ev :
  hoare (one_loop a) (step rev a ev) (fun _ => one_loop a) (one_loop a).
Proof.
  destruct ev; cbn [step].
  - apply keeps_one_loop, keeps_loop_of_core, keeps_loadModel.
  - apply keeps_one_loop, keeps_loop_setViewMode.
  - apply dispose_one_loop.
  - apply onLoad_one_loop.
  - apply keeps_one_loop, keeps_loop_of_core, keeps_onProgress.
  - apply keeps_one_loop, keeps_loop_of_core, keeps_onError.
  - apply keeps_one_loop, keeps_loop_of_core, keeps_dispatch. auto with keeps.
  - eapply hoare_bind with (R := fun _ s => one_loop a s);
      [apply keeps_one_loop; keeps_leaf|intros ?].
    unfold dispatch.
    eapply hoare_bind with (R := fun _ s => one_loop a s);
      [apply keeps_one_loop; keeps_leaf|intros ?].
    apply hoare_forEach. intros ?. apply handleVisibilityChange_one_loop.
  - eapply hoare_bind with (R := fun e s => one_loop a s /\ e = snd s).
    { intros [v e] Hl. cbn. auto. }
    intros e0.
    destruct (existsb (queued handle a) (Env.frames e0)) eqn:Hq.
    + eapply hoare_bind with (R := fun _ s => scheduled a (snd s) = []).
      * intros [v e] [Hl ->]. cbn [snd] in *.
        unfold ModelViewer.update_env, modify. cbn [fst snd].
        unfold scheduled. cbn [Env.frames Env.set_frames].
        destruct Hl as [Hl|(h & _ & Hl)]; unfold loop in Hl; cbn [fst snd] in Hl.
        -- apply scheduled_unqueue_nil, Hl.
        -- apply existsb_exists in Hq as ([h' a'] & Hin & Hq).
           unfold queued in Hq. cbn [fst snd] in Hq.
           apply andb_true_iff in Hq as [Hh Ha'].
           apply Pos.eqb_eq in Hh. apply Nat.eqb_eq in Ha'. subst.
           assert (In handle (List.map fst
                     (List.filter (fun f => Nat.eqb (snd f) a) (Env.frames e)))) as Hin'.
           { apply in_map_iff. exists (handle, a). split; [reflexivity|].
             apply filter_In. split; [exact Hin|]. cbn. apply Nat.eqb_refl. }
           rewrite Hl in Hin'. destruct Hin' as [<-|[]].
           apply scheduled_unqueue_handle, Hl.
      * intros ?. apply animate_one_loop.
    + apply hoare_ret. intros s [H _]. exact H.
  - apply keeps_one_loop, keeps_loop_of_core, keeps_dispatch, keeps_touchstart.
  - apply keeps_one_loop, keeps_loop_of_core, keeps_dispatch, keeps_touchmove.
  - apply keeps_one_loop, keeps_loop_of_core, keeps_dispatch, keeps_touchend.
Qed.

Lemma keeps_scheduled_nil {A} a (m : M ModelViewer.state A) :
  keeps loop m ->
  hoare (fun s => scheduled a (snd s) = []) m
        (fun _ s => scheduled a (snd s) = []) (fun s => scheduled a (snd s) = []).
Proof.
  intros K.
  apply (hoare_keeps loop m
           (fun l => List.map fst (List.filter (fun f => Nat.eqb (snd f) a) (snd l)) = [])
           K).
Qed.

Lemma keeps_idle_loop {A} a (m : M ModelViewer.state A) :
  keeps loop m ->
  hoare (fun s => scheduled a (snd s) = []) m
        (fun _ s => scheduled a (snd s) = []) (one_loop a).
Proof.
  intros K. eapply hoare_weaken; [apply (keeps_scheduled_nil a m K)|..]; auto.
  intros s. apply one_loop_idle.
Qed.

Lemma init_one_loop rev a :
  hoare (fun s => scheduled a (snd s) = []) (ModelViewer.init rev a)
        (fun _ => one_loop a) (one_loop a).
Proof.
  unfold ModelViewer.init.
  eapply hoare_bind with (R := fun _ s => scheduled a (snd s) = []);
    [apply keeps_idle_loop; keeps_leaf|intros v0].
  destruct (ModelViewer.isInitialized v0).
  { apply hoare_ret. intros s. apply one_loop_idle. }
  eapply hoare_bind with (R := fun _ s => scheduled a (snd s) = []);
    [apply keeps_idle_loop; keeps_leaf|intros e0].
  destruct (negb (Env.THREE e0)).
  { apply hoare_throw. intros s. apply one_loop_idle. }
  repeat (eapply hoare_bind with (R := fun _ s => scheduled a (snd s) = []);
          [apply keeps_idle_loop; destruct rev; loop_auto | intros ?]).
  destruct (negb _).
  { apply hoare_ret. intros s. apply one_loop_idle. }
  repeat (eapply hoare_bind with (R := fun _ s => scheduled a (snd s) = []);
          [apply keeps_idle_loop; solve [loop_auto] | intros ?]).
  eapply hoare_bind with (R := fun _ s => one_loop a s).
  { destruct (debugging rev); cbn [when].
    - eapply hoare_bind with (R := fun _ s => scheduled a (snd s) = []);
        [apply keeps_idle_loop; loop_auto | intros ?].
      apply animate_one_loop.
    - apply hoare_ret. intros s. apply one_loop_idle. }
  intros ?. apply keeps_one_loop. loop_auto.
Qed.

(** X3: From init on, whatever happens to a viewer, the browser never holds two
    animation frame callbacks for it: at most one is queued, and the viewer
    holds its handle in animationId. *)
Theorem one_render_loop (rev : revision) (a : addr) (canvasId : string)
    (e0 : Env.t) (evs : list event) :
  scheduled a e0 = [] ->
  let s := run rev a evs (start rev a canvasId e0) in
  length (scheduled a (snd s)) <= 1 /\
  forall h, In h (scheduled a (snd s)) -> ModelViewer.animationId (fst s) = Some h.
Proof.
  intros Hs s.
  assert (one_loop a s) as Hl.
  { subst s. assert (one_loop a (start rev a canvasId e0)) as H0.
    { unfold start. apply (hoare_state_of _ _ _ (init_one_loop rev a)). exact Hs. }
    revert H0. generalize (start rev a canvasId e0).
    induction evs as [|ev evs IH]; intros s0 H0; cbn [run fold_left].
    - exact H0.
    - apply IH. apply (hoare_state_of _ _ _ (step_one_loop rev a ev)). exact H0. }
  destruct Hl as [Hl|(h & Hh & Hl)]; unfold loop in *; cbn [fst snd] in *;
    change (List.map fst (List.filter (fun f => Nat.eqb (snd f) a) (Env.frames (snd s))))
      with (scheduled a (snd s)) in Hl; rewrite Hl.
  - split; [cbn; lia|]. intros h [].
  - split; [cbn; lia|]. intros h' [<-|[]]. exact Hh.
Qed.

Ltac scene_auto :=
  unfold dispatch, ModelViewer.onProgress, ModelViewer.onError,
    ModelViewer.handleResize, ModelViewer.touchstart, ModelViewer.touchmove,
    ModelViewer.touchend, ModelViewer.showLoading, ModelViewer.showError,
    ModelViewer.updateLoadingProgress, ModelViewer.update_container,
    ModelViewer.update_canvas, ModelViewer.measure_container,
    ModelViewer.the_container, ModelViewer.the_canvas;
  repeat (keeps_step; cbv beta).

(* what loadModel does after the test for the cube *)
Lemma keeps_scene_start_load rev a path :
  keeps scene_of
    (bind (ModelViewer.showLoading true) (fun _ =>
     bind ModelViewer.env (fun e =>
       if Env.GLTFLoader e then ModelViewer.log (GLTFLoader_load a path)
       else if guarded rev then
         bind (ModelViewer.log (console "GLTFLoader is not available!")) (fun _ =>
         bind (ModelViewer.showError "3D loader not available") (fun _ =>
         ModelViewer.showLoading false))
       else throw "TypeError: THREE.GLTFLoader is not a constructor"))).
Proof. scene_auto. Qed.

Lemma loadModel_scene rev a path v e :
  scene_of (state_of (ModelViewer.loadModel rev a path (v, e)))
  = if debugging rev && ModelViewer.testCube v
    then Scene.remove Scene.test_cube <$> ModelViewer.scene v
    else ModelViewer.scene v.
Proof.
  unfold ModelViewer.loadModel.
  unfold bind at 1. unfold ModelViewer.this at 1. cbn [fst].
  unfold bind at 1.
  destruct (debugging rev && ModelViewer.testCube v); cbn [when].
  - unfold ModelViewer.scene_remove_, bind at 1 2, ModelViewer.this. cbn [fst].
    destruct (ModelViewer.scene v) as [sc|] eqn:Hsc; [|cbn; exact Hsc].
    cbn. rewrite (keeps_scene_start_load rev a path). reflexivity.
  - cbn. rewrite (keeps_scene_start_load rev a path). reflexivity.
Qed.

(** X4: Starting a load, a progress notification, a failed load, a resize and
    the touch events change neither the current model (its nodes and
    materials included), nor the models attached to the scene, nor the
    render loop: until a new model arrives, and when the load fails, the
    previous model stays as it is.  The scene itself is unchanged as well,
    but for one case: in the second document of part_000, starting a load
    on a viewer that still has the test cube of init takes the cube out of
    the scene. *)
Theorem passive_events_keep_the_model (rev : revision) (a : addr) (ev : event)
    (s : ModelViewer.state) :
  passive ev = true ->
  let s' := state_of (step rev a ev s) in
  ModelViewer.model (fst s') = ModelViewer.model (fst s) /\
  attached (fst s') = attached (fst s) /\
  ModelViewer.scene (fst s')
  = (if drops_cube rev ev (fst s)
     then Scene.remove Scene.test_cube <$> ModelViewer.scene (fst s)
     else ModelViewer.scene (fst s)) /\
  ModelViewer.animationId (fst s') = ModelViewer.animationId (fst s) /\
  Env.frames (snd s') = Env.frames (snd s).
Proof.
  intros Hp s'.
  assert (keeps core (step rev a ev)) as K.
  { destruct ev; try discriminate; cbn [step].
    - apply keeps_loadModel.
    - apply keeps_onProgress.
    - apply keeps_onError.
    - apply keeps_dispatch. auto with keeps.
    - apply keeps_dispatch, keeps_touchstart.
    - apply keeps_dispatch, keeps_touchmove.
    - apply keeps_dispatch, keeps_touchend. }
  specialize (K s). fold s' in K. unfold core in K.
  injection K as K1 K2 K3 K4.
  repeat (split; [assumption|]). split; [|split; assumption].
  change (scene_of s' = if drops_cube rev ev (fst s)
                        then Scene.remove Scene.test_cube <$> scene_of s
                        else scene_of s).
  subst s'.
  destruct ev as [path| | | |loaded total| | | | |ts|ts| ]; try discriminate;
    cbn [step drops_cube].
  - destruct s as [v e]. apply loadModel_scene.
  - assert (keeps scene_of (ModelViewer.onProgress rev loaded total)) as H
      by scene_auto. apply H.
  - assert (keeps scene_of (ModelViewer.onError rev)) as H
      by (destruct rev; scene_auto). apply H.
  - assert (keeps scene_of
              (dispatch a "resize" "handleResize" (ModelViewer.handleResize rev a)))
      as H by (destruct rev; scene_auto). apply H.
  - assert (keeps scene_of
              (dispatch a "touchstart" "touchstart" (ModelViewer.touchstart ts)))
      as H by scene_auto. apply H.
  - assert (keeps scene_of
              (dispatch a "touchmove" "touchmove" (ModelViewer.touchmove ts)))
      as H by scene_auto. apply H.
  - assert (keeps scene_of
              (dispatch a "touchend" "touchend" ModelViewer.touchend))
      as H by scene_auto. apply H.
Qed.

(** X5: animate always returns, and always asks for exactly one more frame,
    whose handle it stores; while the document is hidden that is all it
    does: it neither updates the controls nor renders.  While the document
    is visible it renders exactly when renderer, scene and camera are all
    there. *)
Theorem animate_reschedules (a : addr) (v : ModelViewer.t) (e : Env.t) :
  exists e' calls,
    ModelViewer.animate a (v, e)
    = Return tt (ModelViewer.set_animationId (Some (Env.next_frame e)) v, e') /\
    Env.frames e' = Env.frames e ++ [(Env.next_frame e, a)] /\
    Env.trace e' = Env.trace e ++ requestAnimationFrame a (Env.next_frame e) :: calls /\
    (Env.hidden e = true -> calls = []) /\
    (Env.hidden e = false ->
     calls = (match ModelViewer.controls v with
              | Some _ => [controls_update a]
              | None => []
              end)
             ++ (match ModelViewer.renderer v, ModelViewer.scene v,
                       ModelViewer.camera v with
                 | Some _, Some _, Some _ => [renderer_render a]
                 | _, _, _ => []
                 end)).
Proof.
  cut (wp (ModelViewer.animate a)
          (fun _ s' =>
             fst s' = ModelViewer.set_animationId (Some (Env.next_frame e)) v /\
             exists calls,
               Env.frames (snd s') = Env.frames e ++ [(Env.next_frame e, a)] /\
               Env.trace (snd s')
               = Env.trace e ++ requestAnimationFrame a (Env.next_frame e) :: calls /\
               (Env.hidden e = true -> calls = []) /\
               (Env.hidden e = false ->
                calls = (match ModelViewer.controls v with
                         | Some _ => [controls_update a]
                         | None => []
                         end)
                        ++ (match ModelViewer.renderer v, ModelViewer.scene v,
                                  ModelViewer.camera v with
                            | Some _, Some _, Some _ => [renderer_render a]
                            | _, _, _ => []
                            end)))
          (fun _ => False) (v, e)).
  { intros H. apply wp_result in H as ([] & [v' e'] & H1 & H2 & calls & H3).
    cbn [fst snd] in *. subst v'. eauto. }
  wp_run; (split; [reflexivity|]); rewrite <- ?app_assoc;
    (eexists; split; [reflexivity|]; split; [reflexivity|]);
    repeat match goal with
           | H : _ = _ |- _ => rewrite H
           end;
    split; intros; first [discriminate | reflexivity].
Qed.

(** ** Resizing *)

Lemma or_else_400_nonzero (a b : Z) :
  ModelViewer.or_else (ModelViewer.or_else a b) 400 <> 0%Z.
Proof.
  unfold ModelViewer.or_else.
  destruct (a =? 0)%Z eqn:Ha; [destruct (b =? 0)%Z eqn:Hb|];
    rewrite ?Hb, ?Ha; try discriminate.
  - apply Z.eqb_neq, Hb.
  - apply Z.eqb_neq, Ha.
Qed.

(** X6: In the two documents of part_000, handleResize on a viewer with camera,
    renderer and canvas returns, and gives the canvas style, the renderer
    and the camera one and the same measured width and height, neither of
    which is 0, whatever the container reports: the aspect ratio is never a
    division by zero. *)
Theorem handleResize_never_zero (rev : revision) (a : addr) (v : ModelViewer.t)
    (e : Env.t) (cam : Camera.t) (r : Renderer.t) (id : string)
    (canvas : Canvas.t) (box : Container.t) :
  guarded rev = true ->
  ModelViewer.camera v = Some cam ->
  ModelViewer.renderer v = Some r ->
  ModelViewer.canvas v = Some id ->
  Env.document e !! id = Some canvas ->
  Canvas.parentElement canvas = Some box ->
  exists w h s' canvas',
    ModelViewer.handleResize rev a (v, e) = Return tt s' /\
    w <> 0%Z /\ h <> 0%Z /\
    ModelViewer.camera (fst s')
    = Some (Camera.set_aspect (number_of_Z w / number_of_Z h)%float cam) /\
    ModelViewer.renderer (fst s') = Some (Renderer.setSize w h r) /\
    Env.document (snd s') !! id = Some canvas' /\
    Canvas.style_width canvas' = Some w /\ Canvas.style_height canvas' = Some h.
Proof.
  intros Hg Hcam Hr Hc Hd Hp.
  set (w := ModelViewer.or_else
              (ModelViewer.or_else (Container.clientWidth box)
                 (Container.offsetWidth box)) 400).
  set (h := ModelViewer.or_else
              (ModelViewer.or_else (Container.clientHeight box)
                 (Container.offsetHeight box)) 400).
  cut (wp (ModelViewer.handleResize rev a)
          (fun _ s' =>
             ModelViewer.camera (fst s')
             = Some (Camera.set_aspect (number_of_Z w / number_of_Z h)%float cam) /\
             ModelViewer.renderer (fst s') = Some (Renderer.setSize w h r) /\
             exists canvas',
               Env.document (snd s') !! id = Some canvas' /\
               Canvas.style_width canvas' = Some w /\
               Canvas.style_height canvas' = Some h)
          (fun _ => False) (v, e)).
  { intros H. apply wp_result in H as ([] & s' & H1 & H2 & H3 & canvas' & H4).
    exists w, h, s', canvas'.
    split; [exact H1|]. split; [apply or_else_400_nonzero|].
    split; [apply or_else_400_nonzero|]. auto. }
  destruct rev; [discriminate| |];
    wp_run; (split; [reflexivity|]); (split; [reflexivity|]);
    eexists; (split; [apply lookup_insert_eq|]); split; reflexivity.
Qed.

(** Without a camera or without a renderer (before init, after a failed
    init, after dispose) handleResize does nothing at all. *)
Lemma handleResize_unready (rev : revision) (a : addr) (v : ModelViewer.t)
    (e : Env.t) :
  ModelViewer.camera v = None \/ ModelViewer.renderer v = None ->
  ModelViewer.handleResize rev a (v, e) = Return tt (v, e).
Proof.
  intros H. unfold ModelViewer.handleResize, bind, ModelViewer.this. cbn [fst].
  destruct H as [-> | ->]; [reflexivity|].
  destruct (ModelViewer.camera v); reflexivity.
Qed.

(** ** The overlays *)

Lemma env_set_document_same (e : Env.t) : Env.set_document (Env.document e) e = e.
Proof. destruct e. reflexivity. Qed.

Lemma canvas_set_parent_same (c : Canvas.t) box :
  Canvas.parentElement c = Some box -> Canvas.set_parentElement (Some box) c = c.
Proof. destruct c. cbn. intros ->. reflexivity. Qed.

Lemma container_set_loading_same (box : Container.t) :
  Container.loading box = None -> Container.set_loading None box = box.
Proof. destruct box. cbn. intros ->. reflexivity. Qed.

Lemma wp_returns {S A} (m : M S A) (s s' : S) (a : A) :
  wp m (fun x s'' => x = a /\ s'' = s') (fun _ => False) s -> m s = Return a s'.
Proof. intros H. apply wp_result in H as (x & s'' & H1 & -> & ->). exact H1. Qed.

Lemma showLoading_spec (show : bool) (v : ModelViewer.t) (e : Env.t)
    (id : string) (canvas : Canvas.t) (box : Container.t) :
  ModelViewer.canvas v = Some id ->
  Env.document e !! id = Some canvas ->
  Canvas.parentElement canvas = Some box ->
  ModelViewer.showLoading show (v, e)
  = Return tt
      (v, match show, Container.loading box with
          | true, None => with_loading (Some 0%float) id canvas box e
          | false, Some _ => with_loading None id canvas box e
          | _, _ => e
          end).
Proof.
  intros Hc Hd Hp. apply wp_returns.
  destruct show; wp_run; split; reflexivity.
Qed.

(** X7: showLoading works as a switch: showing the overlay a second time changes
    nothing, and on a container without an overlay, showing and then hiding
    it leaves the document, and everything else, exactly as it was. *)
Theorem showLoading_switch (v : ModelViewer.t) (e : Env.t) (id : string)
    (canvas : Canvas.t) (box : Container.t) :
  ModelViewer.canvas v = Some id ->
  Env.document e !! id = Some canvas ->
  Canvas.parentElement canvas = Some box ->
  bind (ModelViewer.showLoading true) (fun _ => ModelViewer.showLoading true) (v, e)
  = ModelViewer.showLoading true (v, e) /\
  (Container.loading box = None ->
   bind (ModelViewer.showLoading true) (fun _ => ModelViewer.showLoading false) (v, e)
   = Return tt (v, e)).
Proof.
  intros Hc Hd Hp.
  unfold bind. rewrite (showLoading_spec true v e id canvas box Hc Hd Hp).
  destruct (Container.loading box) as [p|] eqn:Hl.
  - split; [|discriminate].
    rewrite (showLoading_spec true v e id canvas box Hc Hd Hp), Hl. reflexivity.
  - set (box1 := Container.set_loading (Some 0%float) box).
    set (canvas1 := Canvas.set_parentElement (Some box1) canvas).
    assert (Env.document (with_loading (Some 0%float) id canvas box e) !! id
            = Some canvas1) as Hd1 by apply lookup_insert_eq.
    split; [|intros _].
    + rewrite (showLoading_spec true v _ id canvas1 box1 Hc Hd1 eq_refl).
      reflexivity.
    + rewrite (showLoading_spec false v _ id canvas1 box1 Hc Hd1 eq_refl).
      cbn [Container.loading Container.set_loading box1].
      f_equal. f_equal. unfold with_loading.
      cbn [Env.document Env.set_document].
      rewrite insert_insert_eq.
      replace (Canvas.set_parentElement _ canvas1) with canvas.
      * rewrite insert_id by exact Hd. destruct e; reflexivity.
      * destruct canvas as [cw ch sw sh ac pe], box as [bw bh ow oh lo er pl].
        cbn in *. subst pe lo. reflexivity.
Qed.

Ltac overlay_solve :=
  unfold loading_percent; norm_state;
  rewrite ?lookup_insert_eq; cbn;
  repeat match goal with
         | H : _ = _ |- _ => rewrite H; cbn
         end;
  try reflexivity.

(** X8: Once a load has settled, the loading overlay is gone: the success
    callback (on a viewer that has a scene) and the error callback both
    leave the container of the canvas without it, whether or not they
    return normally. *)
Theorem settled_load_hides_overlay (rev : revision) (a : addr) (gltf : Model.t)
    (v : ModelViewer.t) (e : Env.t) (id : string) (canvas : Canvas.t)
    (box : Container.t) (sc : Scene.t) :
  ModelViewer.canvas v = Some id ->
  Env.document e !! id = Some canvas ->
  Canvas.parentElement canvas = Some box ->
  ModelViewer.scene v = Some sc ->
  (forall old, ModelViewer.model v = Some old -> well_typed old = true) ->
  loading_percent (snd (state_of (ModelViewer.onLoad rev a gltf (v, e)))) id = None /\
  loading_percent (snd (state_of (ModelViewer.onError rev (v, e)))) id = None.
Proof.
  intros Hc Hd Hp Hsc Ht. split.
  - apply (wp_state_of (ModelViewer.onLoad rev a gltf)
             (fun s' => loading_percent (snd s') id = None)).
    destruct rev; wp_run; overlay_solve.
  - apply (wp_state_of (ModelViewer.onError rev)
             (fun s' => loading_percent (snd s') id = None)).
    destruct rev; wp_run; overlay_solve.
Qed.

(** X9: While an error message is displayed, further errors are dropped: a
    second showError changes nothing, so the first message stays and only
    one removal timer is set. *)
Theorem showError_first_wins (first second : string) (v : ModelViewer.t)
    (e : Env.t) (id : string) (canvas : Canvas.t) (box : Container.t) :
  ModelViewer.canvas v = Some id ->
  Env.document e !! id = Some canvas ->
  Canvas.parentElement canvas = Some box ->
  Container.error box = None ->
  exists s1 canvas1 box1,
    ModelViewer.showError first (v, e) = Return tt s1 /\
    Env.document (snd s1) !! id = Some canvas1 /\
    Canvas.parentElement canvas1 = Some box1 /\
    Container.error box1 = Some first /\
    count (fun c => match c with setTimeout _ _ => true | _ => false end)
      (Env.trace (snd s1))
    = S (count (fun c => match c with setTimeout _ _ => true | _ => false end)
           (Env.trace e)) /\
    ModelViewer.showError second s1 = Return tt s1.
Proof.
  intros Hc Hd Hp He.
  set (box1 := Container.set_error (Some first) box).
  set (canvas1 := Canvas.set_parentElement (Some box1) canvas).
  set (e1 := Env.log (setTimeout "errorEl.remove()" 5000)
               (Env.set_document (<[id := canvas1]> (Env.document e)) e)).
  assert (ModelViewer.showError first (v, e) = Return tt (v, e1)) as H1.
  { apply wp_returns. wp_run. split; reflexivity. }
  assert (Env.document e1 !! id = Some canvas1) as Hd1 by apply lookup_insert_eq.
  exists (v, e1), canvas1, box1. cbn [fst snd].
  split; [exact H1|]. split; [exact Hd1|]. split; [reflexivity|].
  split; [reflexivity|]. split.
  - unfold e1. cbn [Env.trace Env.log Env.set_trace Env.set_document].
    unfold count. rewrite List.filter_app, length_app. cbn. lia.
  - assert (Canvas.parentElement canvas1 = Some box1) as Hp1 by reflexivity.
    assert (Container.error box1 = Some first) as He1 by reflexivity.
    clearbody e1 canvas1 box1. clear H1.
    apply wp_returns. wp_run. split; reflexivity.
Qed.

(** X10: When WebGL is not available, init stops at the renderer: the viewer
    stays uninitialised, gets no renderer and no controls, and nothing is
    subscribed.  In the two documents of part_000 init returns and an error
    message is on display; in js/model-viewer.js the exception leaves
    init. *)
Theorem init_without_WebGL (rev : revision) (a : addr) (v : ModelViewer.t)
    (e : Env.t) (id : string) (canvas : Canvas.t) (box : Container.t) :
  ModelViewer.isInitialized v = false ->
  Env.THREE e = true -> Env.WebGL e = false ->
  ModelViewer.canvas v = Some id ->
  Env.document e !! id = Some canvas ->
  Canvas.parentElement canvas = Some box ->
  let r := ModelViewer.init rev a (v, e) in
  returns r = guarded rev /\
  ModelViewer.isInitialized (fst (state_of r)) = false /\
  ModelViewer.renderer (fst (state_of r)) = ModelViewer.renderer v /\
  ModelViewer.controls (fst (state_of r)) = ModelViewer.controls v /\
  Env.listeners (snd (state_of r)) = Env.listeners e /\
  Env.frames (snd (state_of r)) = Env.frames e /\
  (guarded rev = true ->
   error_message (snd (state_of r)) id
   = Some (match Container.error box with
           | Some shown => shown
           | None => "WebGL not supported"
           end)).
Proof.
  intros Hi HT HW Hc Hd Hp r.
  pose (post := fun (ok : bool) (s' : ModelViewer.state) =>
    ok = guarded rev /\
    ModelViewer.isInitialized (fst s') = false /\
    ModelViewer.renderer (fst s') = ModelViewer.renderer v /\
    ModelViewer.controls (fst s') = ModelViewer.controls v /\
    Env.listeners (snd s') = Env.listeners e /\
    Env.frames (snd s') = Env.frames e /\
    (guarded rev = true ->
     error_message (snd s') id
     = Some (match Container.error box with
             | Some shown => shown
             | None => "WebGL not supported"
             end))).
  cut (wp (ModelViewer.init rev a) (fun _ => post true) (post false) (v, e)).
  { unfold wp. fold r. destruct r; cbn [returns state_of]; intros H; exact H. }
  unfold post.
  destruct rev; wp_run;
    repeat (split; [first [reflexivity | assumption]|]);
    first [ discriminate
          | intros _; unfold error_message; norm_state;
            rewrite ?lookup_insert_eq; cbn;
            repeat match goal with
                   | H : _ = _ |- _ => rewrite H; cbn
                   end;
            reflexivity ].
Qed.

(** ** load3DModel *)

(** X11: load3DModel never retries a failed init: for an id whose viewer is
    registered but not initialised, the call leaves it uninitialised, with
    the camera, renderer and controls it had, and makes none of the calls of
    init. *)
Theorem failed_init_is_not_retried (rev : revision) (canvasId path : string)
    (b : bool) (p : Page.t) (a : addr) (v : ModelViewer.t) :
  Page.viewers p !! canvasId = Some a ->
  Page.objects p !! a = Some v ->
  ModelViewer.isInitialized v = false ->
  let p' := state_of (Page.load3DModel rev canvasId path b p) in
  Page.viewers p' !! canvasId = Some a /\
  (exists v',
     Page.objects p' !! a = Some v' /\
     ModelViewer.isInitialized v' = false /\
     ModelViewer.camera v' = ModelViewer.camera v /\
     ModelViewer.renderer v' = ModelViewer.renderer v /\
     ModelViewer.controls v' = ModelViewer.controls v) /\
  exists calls,
    Env.trace (Page.env p') = Env.trace (Page.env p) ++ calls /\
    no_init calls = true.
Proof.
  intros Hreg Ho Hi p'.
  destruct (load3DModel_registered rev canvasId path b p a v Hreg Ho)
    as (Hvs & _ & (v' & Hv' & Hc & Hr & Hcs & Hi' & _) & Htr).
  fold p' in Hvs, Hv', Htr.
  split; [rewrite Hvs; exact Hreg|]. split; [|exact Htr].
  exists v'. rewrite Hi'. auto.
Qed.

(** X12: Without Three.js, and in the two documents of part_000 also without the
    GLTF loader, load3DModel returns after reporting it: no viewer is
    created or registered, the document is not touched, and no load is
    started. *)
Theorem load3DModel_needs_the_libraries (rev : revision)
    (canvasId path : string) (b : bool) (p : Page.t) :
  Env.THREE (Page.env p) = false \/
  (guarded rev = true /\ Env.GLTFLoader (Page.env p) = false) ->
  exists p' calls,
    Page.load3DModel rev canvasId path b p = Return tt p' /\
    Page.viewers p' = Page.viewers p /\
    Page.objects p' = Page.objects p /\
    Page.next_object p' = Page.next_object p /\
    Env.document (Page.env p') = Env.document (Page.env p) /\
    Env.trace (Page.env p') = Env.trace (Page.env p) ++ calls /\
    calls <> [] /\ forallb report calls = true.
Proof.
  intros H.
  cut (wp (Page.load3DModel rev canvasId path b)
          (fun _ p' =>
             Page.viewers p' = Page.viewers p /\
             Page.objects p' = Page.objects p /\
             Page.next_object p' = Page.next_object p /\
             Env.document (Page.env p') = Env.document (Page.env p) /\
             exists calls,
               Env.trace (Page.env p') = Env.trace (Page.env p) ++ calls /\
               calls <> [] /\ forallb report calls = true)
          (fun _ => False) p).
  { intros W.
    apply wp_result in W as ([] & p' & H1 & H2 & H3 & H4 & H5 & calls & H6 & H7 & H8).
    exists p', calls. repeat (split; [assumption|]). assumption. }
  destruct p as [vs os n e]. cbn [Page.env] in H.
  destruct (Env.THREE e) eqn:H3, (guarded rev) eqn:Hg,
    (Env.GLTFLoader e) eqn:Hl;
    try (exfalso; destruct H as [H|[H H']]; discriminate);
    unfold Page.load3DModel; rewrite ?Hg;
    wp_run; rewrite <- ?app_assoc;
    repeat (split; [reflexivity|]);
    (eexists; split; [reflexivity|]; split; [discriminate|reflexivity]).
Qed.

(** X19: When THREE.GLTFLoader is missing, loadModel on a viewer that has a
    scene starts no load.  In the two documents of part_000 it returns,
    with an error message on display and no loading overlay left; in
    js/model-viewer.js the constructor call throws after the loading
    overlay was put up, and the overlay stays.  The viewer is as it was,
    except that the second document of part_000 has taken the test cube of
    init, if it was still there, out of the scene. *)
Theorem loadModel_without_loader (rev : revision) (a : addr) (path : string)
    (v : ModelViewer.t) (e : Env.t) (id : string) (canvas : Canvas.t)
    (box : Container.t) (sc : Scene.t) :
  Env.GLTFLoader e = false ->
  ModelViewer.scene v = Some sc ->
  ModelViewer.canvas v = Some id ->
  Env.document e !! id = Some canvas ->
  Canvas.parentElement canvas = Some box ->
  let r := ModelViewer.loadModel rev a path (v, e) in
  returns r = guarded rev /\
  fst (state_of r)
  = (if debugging rev && ModelViewer.testCube v
     then ModelViewer.set_testCube false
            (ModelViewer.set_scene (Some (Scene.remove Scene.test_cube sc)) v)
     else v) /\
  (exists calls, Env.trace (snd (state_of r)) = Env.trace e ++ calls /\
                 forallb (fun c => negb (starts_load c)) calls = true) /\
  (if guarded rev
   then loading_percent (snd (state_of r)) id = None /\
        error_message (snd (state_of r)) id <> None
   else loading_percent (snd (state_of r)) id <> None).
Proof.
  intros Hl Hsc Hc Hd Hp r.
  pose (post := fun (ok : bool) (s' : ModelViewer.state) =>
    ok = guarded rev /\
    fst s' = (if debugging rev && ModelViewer.testCube v
              then ModelViewer.set_testCube false
                     (ModelViewer.set_scene
                        (Some (Scene.remove Scene.test_cube sc)) v)
              else v) /\
    (exists calls, Env.trace (snd s') = Env.trace e ++ calls /\
                   forallb (fun c => negb (starts_load c)) calls = true) /\
    (if guarded rev
     then loading_percent (snd s') id = None /\ error_message (snd s') id <> None
     else loading_percent (snd s') id <> None)).
  cut (wp (ModelViewer.loadModel rev a path) (fun _ => post true) (post false) (v, e)).
  { unfold wp. fold r. destruct r; cbn [returns state_of]; intros H; exact H. }
  unfold post.
  destruct (ModelViewer.testCube v) eqn:Hcube;
  destruct rev; unfold ModelViewer.loadModel; cbn [debugging guarded andb];
    wp_run; rewrite ?Hcube; cbn [andb when];
    wp_run;
    (split; [reflexivity|]); (split; [reflexivity|]);
    (split;
     [rewrite <- ?app_assoc;
      first [ exists []; split; [symmetry; apply app_nil_r|reflexivity]
            | eexists; split; [reflexivity|reflexivity] ]
     |]);
    unfold loading_percent, error_message; norm_state;
    rewrite ?lookup_insert_eq; cbn;
    repeat match goal with
           | H : _ = _ |- _ => rewrite H; cbn
           end;
    try (split; [reflexivity|]); discriminate.
Qed.

(** ** Canvas ids that name a member of Object.prototype *)

(** X13: A canvas whose id names a member of Object.prototype (constructor,
    toString, ...) never gets a viewer: with the libraries loaded and the
    canvas in the document, load3DModel for such an id marks the canvas
    active and then throws a TypeError; it creates and registers nothing
    and makes no call on the backend.  The global setViewMode throws for
    such an id as well, changing nothing. *)
Theorem load3DModel_inherited_id (rev : revision) (canvasId path mode : string)
    (b b' : bool) (p : Page.t) (canvas : Canvas.t) (box : Container.t) :
  Page.viewers p !! canvasId = None ->
  inherited canvasId = true ->
  Env.THREE (Page.env p) = true ->
  Env.GLTFLoader (Page.env p) = true ->
  Env.document (Page.env p) !! canvasId = Some canvas ->
  Canvas.parentElement canvas = Some box ->
  (exists p',
     Page.load3DModel rev canvasId path b p
     = Throw "TypeError: viewers[canvasId].loadModel is not a function" p' /\
     Page.viewers p' = Page.viewers p /\
     Page.objects p' = Page.objects p /\
     Page.next_object p' = Page.next_object p /\
     Env.trace (Page.env p') = Env.trace (Page.env p) /\
     Env.listeners (Page.env p') = Env.listeners (Page.env p) /\
     Canvas.active <$> Env.document (Page.env p') !! canvasId = Some true) /\
  Page.setViewMode rev canvasId mode b' p
  = Throw "TypeError: viewers[canvasId].setViewMode is not a function" p.
Proof.
  intros Hv Hi H3 Hg Hd Hp. split.
  - destruct p as [vs os n e]. cbn [Page.viewers Page.env] in *.
    cbv beta iota delta [Page.load3DModel bind get Page.read Page.show_canvas
      Page.update_env modify throw ret Page.env Page.viewers Page.objects
      Page.next_object].
    rewrite H3, Hg, Hv, Hi, andb_false_r. cbv beta iota delta [negb].
    rewrite Hd, Hp. cbv beta iota zeta. rewrite ?Hv, ?Hi. cbv beta iota zeta.
    eexists. split; [reflexivity|].
    cbn. rewrite lookup_insert_eq. repeat split.
  - unfold Page.setViewMode, bind, get, Page.read. rewrite Hv, Hi. reflexivity.
Qed.

(** ** What solid mode leaves behind *)

(* a walk keeps an invariant of the state, and what a visit has established
   of a node still holds at the end, when every later visit keeps it *)
Lemma traverse_visited {S : Type} (cb : Object3D.t -> M S Object3D.t)
    (I : S -> Prop) (V : Object3D.t -> S -> Prop) :
  (forall child s, I s -> I (state_of (cb child s))) ->
  (forall child other s, V child s -> V child (state_of (cb other s))) ->
  (forall child s, I s -> returns (cb child s) = true ->
     V child (state_of (cb child s))) ->
  forall nodes s,
    I s ->
    I (state_of (snd (ModelViewer.traverse cb nodes s))) /\
    (returns (snd (ModelViewer.traverse cb nodes s)) = true ->
     Forall (fun child => V child (state_of (snd (ModelViewer.traverse cb nodes s))))
       nodes).
Proof.
  intros HI HV Hvisit nodes.
  assert (forall nodes child s, V child s ->
            V child (state_of (snd (ModelViewer.traverse cb nodes s)))) as HV'.
  { clear nodes. intros nodes child. induction nodes as [|other rest IH]; intros s Hs.
    - exact Hs.
    - cbn [ModelViewer.traverse]. specialize (HV child other s Hs).
      destruct (cb other s) as [c' s'|msg s']; cbn [fst snd state_of] in *; auto. }
  induction nodes as [|child rest IH]; intros s Hs; cbn [ModelViewer.traverse].
  - cbn. auto.
  - pose proof (HI child s Hs) as HI1. pose proof (Hvisit child s Hs) as Hv1.
    destruct (cb child s) as [c' s'|msg s']; cbn [fst snd state_of returns] in *.
    + destruct (IH s' HI1) as [IH1 IH2]. split; [exact IH1|].
      intros Hr. constructor; [|exact (IH2 Hr)].
      apply HV'. apply Hv1. reflexivity.
    + split; [exact HI1|discriminate].
Qed.

Lemma grayed_alter f store id id' :
  (forall mat, Material.color mat = gray -> Material.color (f mat) = gray) ->
  grayed store id' -> grayed (alter f id store) id'.
Proof.
  intros Hf (mat & H1 & H2).
  destruct (decide (id = id')) as [->|Hne].
  - exists (f mat). rewrite lookup_alter_eq, H1. auto.
  - exists mat. rewrite lookup_alter_ne by exact Hne. auto.
Qed.

Lemma solid_single child id (store : material_store) :
  Object3D.isMesh child = true -> Object3D.material child = single id ->
  ModelViewer.setViewMode_child "solid" child store
  = Return child
      (let store1 := alter (Material.set_wireframe false) id store in
       if truthy (ModelViewer.material_map store1 (single id))
       then alter (Material.set_needsUpdate true) id
              (alter (Material.set_color 0x808080) id
                 (alter (Material.set_map js_null) id store1))
       else store1).
Proof.
  intros Hmesh Hmat. unfold ModelViewer.setViewMode_child. rewrite Hmesh. cbn [negb].
  change (String.eqb "solid" "wireframe") with false.
  change (String.eqb "solid" "solid") with true. cbv iota.
  rewrite (bind_Return _ _ _ _ _ (assign_single _ _ child id store Hmat)).
  unfold bind at 1, get at 1. rewrite Hmat. cbv zeta.
  destruct (truthy _).
  - rewrite (bind_Return _ _ _ _ _ (assign_single _ _ child id _ Hmat)).
    rewrite (bind_Return _ _ _ _ _ (assign_single _ _ child id _ Hmat)).
    rewrite (assign_single _ _ child id _ Hmat). reflexivity.
  - reflexivity.
Qed.

Lemma textured_single child id (store : material_store) :
  Object3D.isMesh child = true -> Object3D.material child = single id ->
  ModelViewer.setViewMode_child "textured" child store
  = Return child
      (let store1 := alter (Material.set_wireframe false) id store in
       match Object3D.userData_originalMap child with
       | Some original =>
           if truthy original
           then alter (Material.set_needsUpdate true) id
                  (alter (Material.set_map original) id store1)
           else store1
       | None => store1
       end).
Proof.
  intros Hmesh Hmat. unfold ModelViewer.setViewMode_child. rewrite Hmesh. cbn [negb].
  change (String.eqb "textured" "wireframe") with false.
  change (String.eqb "textured" "solid") with false. cbv iota.
  rewrite (bind_Return _ _ _ _ _ (assign_single _ _ child id store Hmat)). cbv zeta.
  destruct (Object3D.userData_originalMap child) as [original|]; [|reflexivity].
  destruct (truthy original); [|reflexivity].
  rewrite (bind_Return _ _ _ _ _ (assign_single _ _ child id _ Hmat)).
  rewrite (assign_single _ _ child id _ Hmat). reflexivity.
Qed.

(* a node that does not refer to a Material leaves the Materials alone *)
Lemma setViewMode_child_other mode child (store : material_store) :
  (forall id, Object3D.isMesh child = true -> Object3D.material child <> single id) ->
  state_of (ModelViewer.setViewMode_child mode child store) = store.
Proof.
  intros H. unfold ModelViewer.setViewMode_child.
  destruct (Object3D.isMesh child) eqn:Hmesh; cbn [negb]; [|reflexivity].
  destruct (Object3D.material child) as [|id|arr] eqn:Hmat.
  - unfold ModelViewer.assign. rewrite Hmat.
    destruct (String.eqb mode "wireframe"); [reflexivity|].
    destruct (String.eqb mode "solid"); reflexivity.
  - destruct (H id eq_refl eq_refl).
  - assert (forall f g c arr' (s : material_store),
              Object3D.material c = multi arr' ->
              ModelViewer.assign f g c s
              = Return (Object3D.set_material (multi (g arr')) c) s) as Hassign.
    { intros f g c arr' s Hc. unfold ModelViewer.assign. rewrite Hc. reflexivity. }
    destruct (String.eqb mode "wireframe");
      [rewrite (Hassign _ _ _ arr) by exact Hmat; reflexivity|].
    destruct (String.eqb mode "solid").
    + rewrite (bind_Return _ _ _ _ _ (Hassign _ _ child arr store Hmat)).
      unfold bind at 1, get at 1.
      destruct (truthy _); [|reflexivity].
      erewrite bind_Return by (apply Hassign; reflexivity).
      erewrite bind_Return by (apply Hassign; reflexivity).
      erewrite Hassign by reflexivity. reflexivity.
    + rewrite (bind_Return _ _ _ _ _ (Hassign _ _ child arr store Hmat)).
      cbn [Object3D.userData_originalMap Object3D.set_material].
      destruct (Object3D.userData_originalMap child) as [o|]; [|reflexivity].
      destruct (truthy o); [|reflexivity].
      erewrite bind_Return by (apply Hassign; reflexivity).
      erewrite Hassign by reflexivity. reflexivity.
Qed.

Lemma single_or_other (child : Object3D.t) :
  (exists id, Object3D.isMesh child = true /\ Object3D.material child = single id) \/
  (forall id, Object3D.isMesh child = true -> Object3D.material child <> single id).
Proof.
  destruct (Object3D.isMesh child); [|right; intros; discriminate].
  destruct (Object3D.material child) as [|id|arr];
    [right; intros; discriminate|left; eauto|right; intros; discriminate].
Qed.

Lemma solid_keeps_gray child store id' :
  grayed store id' ->
  grayed (state_of (ModelViewer.setViewMode_child "solid" child store)) id'.
Proof.
  intros Hg. destruct (single_or_other child) as [(id & Hmesh & Hmat)|Hother].
  - rewrite (solid_single child id store Hmesh Hmat). cbn [state_of]. cbv zeta.
    destruct (truthy _); repeat apply grayed_alter; auto.
  - rewrite setViewMode_child_other by exact Hother. exact Hg.
Qed.

Lemma textured_keeps_gray child store id' :
  grayed store id' ->
  grayed (state_of (ModelViewer.setViewMode_child "textured" child store)) id'.
Proof.
  intros Hg. destruct (single_or_other child) as [(id & Hmesh & Hmat)|Hother].
  - rewrite (textured_single child id store Hmesh Hmat). cbn [state_of]. cbv zeta.
    destruct (Object3D.userData_originalMap child) as [o|];
      [destruct (truthy o)|]; repeat apply grayed_alter; auto.
  - rewrite setViewMode_child_other by exact Hother. exact Hg.
Qed.

Lemma solid_single_grays store0 child id store :
  map_or_gray store0 store ->
  Object3D.isMesh child = true -> Object3D.material child = single id ->
  textured_at_load store0 id ->
  grayed (state_of (ModelViewer.setViewMode_child "solid" child store)) id.
Proof.
  intros HJ Hmesh Hmat (mat0 & H0 & Htr).
  destruct (HJ id mat0 H0 Htr) as [(mat & H1 & Hmap)|Hg];
    [|apply solid_keeps_gray, Hg].
  rewrite (solid_single child id store Hmesh Hmat). cbn [state_of]. cbv zeta.
  cbn [ModelViewer.material_map]. rewrite lookup_alter_eq, H1. cbn.
  rewrite Hmap, Htr.
  eexists. rewrite !lookup_alter_eq, H1. cbn. split; reflexivity.
Qed.

Lemma solid_keeps_map_or_gray store0 child store :
  map_or_gray store0 store ->
  map_or_gray store0 (state_of (ModelViewer.setViewMode_child "solid" child store)).
Proof.
  intros HJ. destruct (single_or_other child) as [(id & Hmesh & Hmat)|Hother].
  2:{ rewrite setViewMode_child_other by exact Hother. exact HJ. }
  intros id' mat0 H0 Htr.
  destruct (decide (id' = id)) as [->|Hne].
  - right. apply (solid_single_grays store0 child id store HJ Hmesh Hmat).
    exists mat0. auto.
  - destruct (HJ id' mat0 H0 Htr) as [(mat & H1 & Hmap)|Hg];
      [left|right; apply solid_keeps_gray, Hg].
    rewrite (solid_single child id store Hmesh Hmat). cbn [state_of]. cbv zeta.
    exists mat. split; [|exact Hmap].
    destruct (truthy (ModelViewer.material_map _ _));
      rewrite ?lookup_alter_ne by congruence; exact H1.
Qed.

Lemma setViewMode_child_other_id mode child (store : material_store) id :
  mode = "solid" \/ mode = "textured" ->
  not_material_of id child ->
  state_of (ModelViewer.setViewMode_child mode child store) !! id = store !! id.
Proof.
  intros Hmode Hnot.
  destruct (single_or_other child) as [(id' & Hmesh & Hmat)|Hother].
  - assert (id' <> id) as Hne by (intros ->; exact (Hnot Hmesh Hmat)).
    destruct Hmode as [-> | ->].
    + rewrite (solid_single child id' store Hmesh Hmat). cbn [state_of]. cbv zeta.
      destruct (truthy _); rewrite ?lookup_alter_ne by exact Hne; reflexivity.
    + rewrite (textured_single child id' store Hmesh Hmat). cbn [state_of]. cbv zeta.
      destruct (Object3D.userData_originalMap child) as [o|];
        [destruct (truthy o)|];
        rewrite ?lookup_alter_ne by exact Hne; reflexivity.
  - rewrite setViewMode_child_other by exact Hother. reflexivity.
Qed.

Lemma traverse_other_id mode nodes (store : material_store) id :
  mode = "solid" \/ mode = "textured" ->
  Forall (not_material_of id) nodes ->
  state_of (snd (ModelViewer.traverse (ModelViewer.setViewMode_child mode) nodes store))
    !! id = store !! id.
Proof.
  intros Hmode Hn. revert store.
  induction Hn as [|child rest Hc Hn IH]; intros store; cbn [ModelViewer.traverse].
  - reflexivity.
  - pose proof (setViewMode_child_other_id mode child store id Hmode Hc) as H.
    destruct (ModelViewer.setViewMode_child mode child store) as [c' s'|msg s'];
      cbn [fst snd state_of] in *.
    + rewrite IH. exact H.
    + exact H.
Qed.

Lemma not_material_of_shape id child child' :
  shape child child' -> not_material_of id child -> not_material_of id child'.
Proof.
  intros (Hmesh & _ & Hmat) Hnot Hm' Hs. rewrite Hmesh in Hm'.
  specialize (Hnot Hm').
  destruct (Object3D.material child) as [|id0|arr].
  - congruence.
  - congruence.
  - destruct Hmat as (arr' & Harr). congruence.
Qed.

Lemma not_material_of_setup_child mobile store id child :
  not_material_of id child ->
  not_material_of id (ModelViewer.setup_child mobile store child).
Proof.
  unfold not_material_of, ModelViewer.setup_child.
  destruct (Object3D.isMesh child) eqn:Hmesh; [|rewrite Hmesh; auto].
  destruct (truthy _); cbn; rewrite Hmesh; auto.
Qed.

(** X14: The other half of the round trip: solid mode paints gray, and
    textured mode gives the map back but not the colour.  On a model as the
    success handler left it, after setViewMode('solid') and
    setViewMode('textured') every Material that is itself the material of a
    Mesh ([child.material] is that Material) and had a map when the model
    was loaded has the colour 0x808080, while a Material that is the
    material of no Mesh, such as one that only stands as an element in the
    material Arrays of Meshes, is exactly as it was delivered, with or
    without a map. *)
Theorem solid_then_textured_stays_gray (rev : revision) (mobile : bool)
    (gltf : Model.t) (v : ModelViewer.t) (e : Env.t) :
  meshes_have_material gltf = true ->
  ModelViewer.model v
  = Some (ModelViewer.setup_materials mobile (ModelViewer.normalize rev gltf)) ->
  exists s1 s2 m2,
    ModelViewer.setViewMode "solid" (v, e) = Return tt s1 /\
    ModelViewer.setViewMode "textured" s1 = Return tt s2 /\
    ModelViewer.model (fst s2) = Some m2 /\
    (forall child id mat0,
       In child (Model.nodes gltf) ->
       Object3D.isMesh child = true ->
       Object3D.material child = single id ->
       Model.materials gltf !! id = Some mat0 ->
       truthy (Material.map mat0) = true ->
       Material.color <$> Model.materials m2 !! id = Some 0x808080%Z) /\
    (forall id,
       (forall child, In child (Model.nodes gltf) ->
          Object3D.isMesh child = true -> Object3D.material child <> single id) ->
       Model.materials m2 !! id = Model.materials gltf !! id).
Proof.
  intros Hmat Hmodel.
  set (store0 := Model.materials gltf).
  set (m0 := ModelViewer.setup_materials mobile (ModelViewer.normalize rev gltf)) in *.
  pose proof (has_material_nodes gltf Hmat) as Hn.
  assert (Model.nodes m0 = List.map (ModelViewer.setup_child mobile store0) (Model.nodes gltf))
    as Hnodes0 by reflexivity.
  assert (Model.materials m0 = store0) as Hstore0 by reflexivity.
  destruct (solid_pass store0 (Model.nodes m0) store0) as (nodes1 & store1 & E1 & Hd1 & Hs1).
  { rewrite Hnodes0. apply Forall_map.
    eapply Forall_impl; [exact Hn|]. intros c. apply has_material_setup_child. }
  { apply same_dom_refl. }
  destruct (textured_pass store0 nodes1 store1) as (nodes2 & store2 & E2 & _ & _).
  { assert (Forall (recorded store0) (Model.nodes m0)) as Hr.
    { rewrite Hnodes0. apply Forall_map.
      eapply Forall_impl; [exact Hn|]. intros c. apply recorded_setup_child. }
    clear - Hr Hs1. induction Hs1; constructor.
    - inversion Hr; subst. eapply recorded_shape; eauto.
    - inversion Hr; subst. auto. }
  { exact Hd1. }
  set (m1 := Model.set_nodes nodes1 (Model.set_materials store1 m0)).
  set (m2 := Model.set_nodes nodes2 (Model.set_materials store2 m1)).
  assert (ModelViewer.applyViewMode "solid" m0 = (m1, Return tt store1)) as A1.
  { unfold ModelViewer.applyViewMode. rewrite Hstore0, E1. reflexivity. }
  assert (ModelViewer.applyViewMode "textured" m1 = (m2, Return tt store2)) as A2.
  { unfold ModelViewer.applyViewMode.
    change (Model.nodes m1) with nodes1. change (Model.materials m1) with store1.
    rewrite E2. reflexivity. }
  eexists _, _, m2.
  split; [exact (setViewMode_returns "solid" v e m0 m1 store1 Hmodel A1)|].
  split; [apply (setViewMode_returns "textured" _ e m1 m2 store2); [reflexivity|exact A2]|].
  split; [reflexivity|].
  split.
  2:{ intros id Hnone. change (Model.materials m2) with store2.
      assert (Forall (not_material_of id) (Model.nodes m0)) as Hn0.
      { rewrite Hnodes0. apply Forall_map. apply Forall_forall.
        intros c Hc. apply not_material_of_setup_child.
        intros Hm. apply (Hnone c); [apply list_elem_of_In; exact Hc|exact Hm]. }
      assert (Forall (not_material_of id) nodes1) as Hn1.
      { clear - Hn0 Hs1. induction Hs1; constructor.
        - inversion Hn0; subst. eapply not_material_of_shape; eauto.
        - inversion Hn0; subst. auto. }
      pose proof (traverse_other_id "solid" (Model.nodes m0) store0 id
                    (or_introl eq_refl) Hn0) as T1.
      rewrite E1 in T1. cbn [snd state_of] in T1.
      pose proof (traverse_other_id "textured" nodes1 store1 id
                    (or_intror eq_refl) Hn1) as T2.
      rewrite E2 in T2. cbn [snd state_of] in T2.
      rewrite T2, T1. reflexivity. }
  intros child id mat0 Hin Hmesh Hmatc H0 Htr.
  change (Model.materials m2) with store2.
  (* the solid pass grays the Material *)
  assert (grayed store1 id) as Hg1.
  { set (V := fun (c : Object3D.t) (store : material_store) =>
                forall id', Object3D.isMesh c = true ->
                  Object3D.material c = single id' ->
                  textured_at_load store0 id' -> grayed store id').
    assert (forall c other s, V c s ->
              V c (state_of (ModelViewer.setViewMode_child "solid" other s))) as HV.
    { intros c other s H id' H1 H2 H3. apply solid_keeps_gray. apply H; auto. }
    assert (forall c s, map_or_gray store0 s ->
              returns (ModelViewer.setViewMode_child "solid" c s) = true ->
              V c (state_of (ModelViewer.setViewMode_child "solid" c s))) as Hvisit.
    { intros c s HJ _ id' H1 H2 H3.
      apply (solid_single_grays store0 c id' s); auto. }
    assert (map_or_gray store0 store0) as HJ0.
    { intros id' mat' H1 H2. left. eauto. }
    destruct (traverse_visited (ModelViewer.setViewMode_child "solid")
                (map_or_gray store0) V (solid_keeps_map_or_gray store0)
                HV Hvisit (Model.nodes m0) store0 HJ0) as [_ T2].
    rewrite E1 in T2. cbn [snd state_of returns] in T2. specialize (T2 eq_refl).
    rewrite Hnodes0 in T2. rewrite Forall_forall in T2.
    assert (In (ModelViewer.setup_child mobile store0 child)
              (List.map (ModelViewer.setup_child mobile store0) (Model.nodes gltf)))
      as Hin' by (apply in_map; exact Hin).
    apply list_elem_of_In in Hin'.
    apply (T2 _ Hin' id).
    - unfold ModelViewer.setup_child. rewrite Hmesh.
      destruct (truthy (ModelViewer.material_map _ _)); cbn; exact Hmesh.
    - unfold ModelViewer.setup_child. rewrite Hmesh.
      destruct (truthy (ModelViewer.material_map _ _)); cbn; exact Hmatc.
    - exists mat0. auto. }
  (* the textured pass does not touch the colour *)
  assert (forall c s, grayed s id ->
            grayed (state_of (ModelViewer.setViewMode_child "textured" c s)) id) as HI.
  { intros c s H. apply textured_keeps_gray. exact H. }
  destruct (traverse_visited (ModelViewer.setViewMode_child "textured")
              (fun store => grayed store id) (fun _ _ => True) HI
              (fun _ _ _ _ => I) (fun _ _ _ _ => I) nodes1 store1 Hg1) as [T1 _].
  rewrite E2 in T1. cbn [snd state_of] in T1.
  destruct T1 as (mat & H1 & H2). rewrite H1. cbn. rewrite H2. reflexivity.
Qed.

(** ** A Mesh without a material *)

Lemma setViewMode_child_outcome mode child (store : material_store) :
  (Object3D.isMesh child = true /\ Object3D.material child = no_material /\
   ModelViewer.setViewMode_child mode child store
   = Throw "TypeError: child.material is undefined" store)
  \/ exists child' store',
       ModelViewer.setViewMode_child mode child store = Return child' store'.
Proof.
  unfold ModelViewer.setViewMode_child.
  destruct (Object3D.isMesh child) eqn:Hmesh; cbn [negb]; [|right; eauto].
  destruct (Object3D.material child) as [|id|arr] eqn:Hmat.
  - left. split; [reflexivity|]. split; [reflexivity|].
    unfold ModelViewer.assign. rewrite Hmat.
    destruct (String.eqb mode "wireframe"); [reflexivity|].
    destruct (String.eqb mode "solid"); reflexivity.
  - right.
    destruct (String.eqb mode "wireframe");
      [rewrite (assign_single _ _ child id store Hmat); eauto|].
    destruct (String.eqb mode "solid").
    + rewrite (bind_Return _ _ _ _ _ (assign_single _ _ child id store Hmat)).
      unfold bind at 1, get at 1.
      destruct (truthy _); [|eauto].
      rewrite (bind_Return _ _ _ _ _ (assign_single _ _ child id _ Hmat)).
      rewrite (bind_Return _ _ _ _ _ (assign_single _ _ child id _ Hmat)).
      rewrite (assign_single _ _ child id _ Hmat). eauto.
    + rewrite (bind_Return _ _ _ _ _ (assign_single _ _ child id store Hmat)).
      destruct (Object3D.userData_originalMap child) as [o|]; [|eauto].
      destruct (truthy o); [|eauto].
      rewrite (bind_Return _ _ _ _ _ (assign_single _ _ child id _ Hmat)).
      rewrite (assign_single _ _ child id _ Hmat). eauto.
  - right.
    destruct (String.eqb mode "wireframe");
      [rewrite (assign_multi _ _ child arr store Hmat); eauto|].
    destruct (String.eqb mode "solid").
    + rewrite (bind_Return _ _ _ _ _ (assign_multi _ _ child arr store Hmat)).
      unfold bind at 1, get at 1.
      destruct (truthy _); [|eauto].
      erewrite bind_Return by (apply assign_multi; reflexivity).
      erewrite bind_Return by (apply assign_multi; reflexivity).
      erewrite assign_multi by reflexivity. eauto.
    + rewrite (bind_Return _ _ _ _ _ (assign_multi _ _ child arr store Hmat)).
      cbn [Object3D.userData_originalMap Object3D.set_material].
      destruct (Object3D.userData_originalMap child) as [o|]; [|eauto].
      destruct (truthy o); [|eauto].
      erewrite bind_Return by (apply assign_multi; reflexivity).
      erewrite assign_multi by reflexivity. eauto.
Qed.

Lemma no_material_throws mode child (store : material_store) :
  Object3D.isMesh child = true -> Object3D.material child = no_material ->
  ModelViewer.setViewMode_child mode child store
  = Throw "TypeError: child.material is undefined" store.
Proof.
  intros Hm Hn. unfold ModelViewer.setViewMode_child, ModelViewer.assign.
  rewrite Hm, Hn. cbn [negb].
  destruct (String.eqb mode "wireframe"); [reflexivity|].
  destruct (String.eqb mode "solid"); reflexivity.
Qed.

Lemma traverse_throws mode nodes (store : material_store) :
  Exists (fun child => Object3D.isMesh child = true /\
                       Object3D.material child = no_material) nodes ->
  exists store',
    snd (ModelViewer.traverse (ModelViewer.setViewMode_child mode) nodes store)
    = Throw "TypeError: child.material is undefined" store'.
Proof.
  intros H. revert store. induction H as [child rest [Hm Hn]|child rest H IH];
    intros store; cbn [ModelViewer.traverse].
  - rewrite (no_material_throws mode child store Hm Hn). cbn [snd]. eauto.
  - destruct (setViewMode_child_outcome mode child store)
      as [(_ & _ & ->)|(child' & store' & ->)]; cbn [snd]; [eauto|apply IH].
Qed.

(** X15: setViewMode on a model that has a Mesh without a material throws a
    TypeError, in every mode; the mode is recorded all the same. *)
Theorem setViewMode_needs_materials (mode : string) (v : ModelViewer.t)
    (e : Env.t) (m : Model.t) :
  ModelViewer.model v = Some m ->
  meshes_have_material m = false ->
  exists s',
    ModelViewer.setViewMode mode (v, e)
    = Throw "TypeError: child.material is undefined" s' /\
    ModelViewer.viewMode (fst s') = mode /\ snd s' = e.
Proof.
  intros Hm Hmat.
  assert (Exists (fun child => Object3D.isMesh child = true /\
                               Object3D.material child = no_material)
            (Model.nodes m)) as Hex.
  { unfold meshes_have_material in Hmat.
    induction (Model.nodes m) as [|child rest IH]; cbn in Hmat; [discriminate|].
    apply andb_false_iff in Hmat as [Hc|Hr]; [left|right; auto].
    apply orb_false_iff in Hc as [Hc1 Hc2]. apply negb_false_iff in Hc1.
    split; [exact Hc1|]. destruct (Object3D.material child); congruence. }
  destruct (traverse_throws mode (Model.nodes m) (Model.materials m) Hex)
    as (store' & Hthrow).
  unfold ModelViewer.setViewMode, bind, ModelViewer.update, ModelViewer.this, modify.
  cbn [fst snd ModelViewer.model ModelViewer.set_viewMode]. rewrite Hm.
  unfold ModelViewer.applyViewMode. cbn [snd]. rewrite Hthrow.
  eexists. split; [reflexivity|]. split; reflexivity.
Qed.

Ltac subs_auto :=
  unfold ModelViewer.loadModel, ModelViewer.onProgress, ModelViewer.onError,
    ModelViewer.handleResize, ModelViewer.handleVisibilityChange,
    ModelViewer.animate, ModelViewer.request_frame, ModelViewer.cancel_frame,
    ModelViewer.touchstart, ModelViewer.touchmove, ModelViewer.touchend,
    ModelViewer.showLoading, ModelViewer.showError,
    ModelViewer.updateLoadingProgress, ModelViewer.update_container,
    ModelViewer.update_canvas, ModelViewer.measure_container,
    ModelViewer.the_container, ModelViewer.the_canvas,
    ModelViewer.scene_remove_, ModelViewer.scene_add_,
    ModelViewer.disposeModel_child, ModelViewer.disposeMaterial_at,
    ModelViewer.disposeMaterial, ModelViewer.dispose_texture;
  repeat (keeps_step; cbv beta).

Lemma keeps_subs_disposeModel m : keeps subs (ModelViewer.disposeModel m).
Proof.
  intros s. unfold ModelViewer.disposeModel. apply keeps_traverse.
  intros child. subs_auto.
Qed.

Lemma keeps_subs_setViewMode mode : keeps subs (ModelViewer.setViewMode mode).
Proof.
  unfold ModelViewer.setViewMode.
  apply keeps_bind; [keeps_leaf|]. intros ?.
  apply keeps_bind; [keeps_leaf|]. intros v.
  destruct (ModelViewer.model v) as [m|]; [|apply keeps_ret].
  destruct (ModelViewer.applyViewMode mode m) as [m' r]. cbn [fst snd].
  apply keeps_bind; [keeps_leaf|]. intros ?.
  destruct r; [apply keeps_ret|apply keeps_throw].
Qed.

Lemma keeps_subs_onLoad rev a g : keeps subs (ModelViewer.onLoad rev a g).
Proof.
  unfold ModelViewer.onLoad.
  apply keeps_bind; [keeps_leaf|]. intros v.
  apply keeps_bind.
  { destruct (ModelViewer.model v); [|apply keeps_ret].
    apply keeps_bind; [subs_auto|intros ?]. apply keeps_subs_disposeModel. }
  intros ?. destruct rev; subs_auto.
Qed.

(* every event but dispose leaves the subscriptions as they are *)
Lemma keeps_subs_step rev a ev :
  ev <> call_dispose -> keeps subs (step rev a ev).
Proof.
  intros Hev. destruct ev; cbn [step]; try congruence.
  - subs_auto.
  - apply keeps_subs_setViewMode.
  - apply keeps_subs_onLoad.
  - subs_auto.
  - destruct rev; subs_auto.
  - unfold dispatch. subs_auto.
  - unfold dispatch. subs_auto.
  - subs_auto.
  - unfold dispatch. subs_auto.
  - unfold dispatch. subs_auto.
  - unfold dispatch. subs_auto.
Qed.

Lemma In_add_listener l l0 ls :
  In l (ModelViewer.add_listener l0 ls) -> l = l0 \/ In l ls.
Proof.
  unfold ModelViewer.add_listener. destruct (existsb _ ls); [auto|].
  rewrite in_app_iff. cbn. intros [H|[H|[]]]; auto.
Qed.

Lemma unsubscribed_own a v e : unsubscribed a e -> own_subs a (v, e).
Proof.
  intros H l Hin. destruct (H l Hin) as [-> ->]. split; discriminate.
Qed.

Ltac own_subs_solve :=
  let l := fresh "l" in
  let Hin := fresh "Hin" in
  unfold own_subs, subs, own_subsC; norm_state; intros l Hin;
  repeat (apply In_add_listener in Hin as [->|Hin]);
  first [ split; intros; first [reflexivity | discriminate]
        | match goal with
          | H : unsubscribed _ _ |- _ =>
              destruct (H l Hin) as [-> ->]; split; discriminate
          end ].

Lemma init_own_subs rev a v e :
  unsubscribed a e ->
  own_subs a (state_of (ModelViewer.init rev a (v, e))).
Proof.
  intros Hu.
  apply (wp_state_of (ModelViewer.init rev a) (own_subs a)).
  destruct rev; wp_run; own_subs_solve.
Qed.

Lemma fnref_eqb_refl f : fnref_eqb f f = true.
Proof.
  destruct f; cbn; rewrite ?String.eqb_refl, ?Nat.eqb_refl; reflexivity.
Qed.

Lemma listener_eqb_refl l : listener_eqb l l = true.
Proof.
  unfold listener_eqb. rewrite !String.eqb_refl, fnref_eqb_refl. reflexivity.
Qed.

Lemma keeps_subs_hoare {A} (I : list listener * fnref * fnref -> Prop)
    (m : M ModelViewer.state A) :
  keeps subs m ->
  hoare (fun s => I (subs s)) m (fun _ s => I (subs s)) (fun s => I (subs s)).
Proof. apply hoare_keeps. Qed.

Lemma dispose_unsubscribes a :
  hoare (own_subs a) (ModelViewer.dispose a)
        (fun _ s => cleanC a (subs s)) (fun s => cleanC a (subs s)).
Proof.
  unfold ModelViewer.dispose.
  eapply hoare_bind with (R := fun v s => own_subs a s /\ v = fst s).
  { intros [v e] H. cbn. auto. }
  intros v0.
  eapply hoare_bind with
    (R := fun _ s => own_subs a s /\
            ModelViewer.handleResize_fn (fst s) = ModelViewer.handleResize_fn v0 /\
            ModelViewer.handleVisibilityChange_fn (fst s)
            = ModelViewer.handleVisibilityChange_fn v0)
    (E := fun s => cleanC a (subs s)).
  { destruct (ModelViewer.animationId v0).
    - intros [v e] [H ->]. cbn. auto.
    - intros [v e] [H ->]. cbn. auto. }
  intros ?.
  (* the two removals *)
  eapply hoare_bind with
    (R := fun _ s =>
            (forall l, In l (Env.listeners (snd s)) ->
               resize_listener a l = false /\
               (visibility_listener a l = true ->
                l = mk_listener "document" "visibilitychange"
                      (ModelViewer.handleVisibilityChange_fn v0)))).
  { intros [v e] (H & Hr & Hv). cbn [fst snd] in *.
    unfold ModelViewer.unlisten, ModelViewer.update_env, modify. cbn [fst snd].
    cbn [Env.listeners Env.log Env.set_trace Env.set_listeners].
    intros l Hin. apply filter_In in Hin as [Hin Hne].
    destruct (H l Hin) as [H1 H2]. cbn [fst snd] in H1, H2.
    rewrite Hr in H1. rewrite Hv in H2. split; [|exact H2].
    destruct (resize_listener a l) eqn:Hl; [|reflexivity].
    rewrite (H1 eq_refl), listener_eqb_refl in Hne. discriminate. }
  intros ?.
  eapply hoare_bind with (R := fun _ s => cleanC a (subs s)).
  { intros [v e] H. cbn [fst snd] in *.
    unfold ModelViewer.unlisten, ModelViewer.update_env, modify. cbn [fst snd].
    intros l Hin. cbn in Hin. apply filter_In in Hin as [Hin Hne].
    destruct (H l Hin) as [H1 H2]. split; [exact H1|].
    destruct (visibility_listener a l) eqn:Hl; [|reflexivity].
    rewrite (H2 eq_refl), listener_eqb_refl in Hne. discriminate. }
  intros ?.
  repeat (eapply hoare_bind with (R := fun _ s => cleanC a (subs s));
          [apply (keeps_subs_hoare (cleanC a));
           try destruct (ModelViewer.model v0);
           try destruct (ModelViewer.renderer v0);
           try destruct (ModelViewer.controls v0);
           first [apply keeps_subs_disposeModel | subs_auto]
          | intros ?]).
  apply (keeps_subs_hoare (cleanC a)). keeps_leaf.
Qed.

Lemma clean_own a s : cleanC a (subs s) -> own_subs a s.
Proof.
  destruct s as [v e]. intros H l Hin. destruct (H l Hin) as [H1 H2].
  rewrite H1, H2. split; discriminate.
Qed.

Lemma step_own_subs rev a ev :
  hoare (own_subs a) (step rev a ev) (fun _ => own_subs a) (own_subs a).
Proof.
  assert (ev = call_dispose \/ ev <> call_dispose) as [->|Hev]
    by (destruct ev; auto; right; discriminate).
  - cbn [step]. eapply hoare_weaken; [apply dispose_unsubscribes|..]; auto.
    + intros ? s. apply clean_own.
    + intros s. apply clean_own.
  - apply (keeps_subs_hoare (own_subsC a)). apply keeps_subs_step, Hev.
Qed.

Lemma filter_none {A} (f : A -> bool) l :
  (forall x, In x l -> f x = false) -> List.filter f l = [].
Proof.
  induction l as [|x l IH]; cbn; intros H; [reflexivity|].
  rewrite (H x) by auto. apply IH. auto.
Qed.

(** X16: dispose ends the two subscriptions of init, in whatever state the
    viewer is: afterwards no resize or visibilitychange listener of the
    viewer is left on the page, so a resize no longer reaches it and a
    visibility change only flips document.hidden. *)
Theorem dispose_ends_subscriptions (rev : revision) (a : addr)
    (canvasId : string) (e0 : Env.t) (evs : list event) :
  unsubscribed a e0 ->
  let s := run rev a evs (start rev a canvasId e0) in
  let s' := state_of (ModelViewer.dispose a s) in
  (forall l, In l (Env.listeners (snd s')) ->
     resize_listener a l = false /\ visibility_listener a l = false) /\
  step rev a resize s' = Return tt s' /\
  forall hidden,
    step rev a (visibilitychange hidden) s'
    = Return tt (fst s', Env.set_hidden hidden (snd s')).
Proof.
  intros Hu s s'.
  assert (own_subs a s) as Hs.
  { subst s. assert (own_subs a (start rev a canvasId e0)) as H0
      by (apply init_own_subs, Hu).
    revert H0. generalize (start rev a canvasId e0).
    induction evs as [|ev evs IH]; intros s0 H0; cbn [run fold_left].
    - exact H0.
    - apply IH. apply (hoare_state_of _ _ _ (step_own_subs rev a ev)). exact H0. }
  assert (cleanC a (subs s')) as Hc
    by (apply (hoare_state_of _ _ _ (dispose_unsubscribes a)), Hs).
  destruct s' as [v' e']. unfold cleanC, subs in Hc. cbn [fst snd] in *.
  split; [exact Hc|]. split.
  - cbn [step]. unfold dispatch, bind, ModelViewer.env. cbn [fst snd].
    rewrite filter_none; [reflexivity|]. intros l Hin. apply Hc, Hin.
  - intros hidden. cbn [step]. unfold dispatch, bind, ModelViewer.env, ModelViewer.update_env,
      modify. cbn [fst snd]. cbn [Env.listeners Env.set_hidden].
    rewrite filter_none; [reflexivity|]. intros l Hin. apply Hc, Hin.
Qed.



Lemma disposed_disposable p a : disposed p a -> disposable p a.
Proof.
  intros (v & H1 & H2). exists v. split; [exact H1|].
  destruct H2 as (_ & _ & _ & _ & Hm). intros m. rewrite Hm. discriminate.
Qed.

Lemma released_is_released v : is_released (released v).
Proof. repeat split. Qed.

Lemma released_keeps v : is_released v -> is_released (released v).
Proof. intros _. apply released_is_released. Qed.

Lemma invoke_dispose_step p a :
  disposable p a ->
  exists p',
    Page.invoke a (ModelViewer.dispose a) p = Return tt p' /\
    Page.viewers p' = Page.viewers p /\
    disposed p' a /\
    (forall a', disposable p a' -> disposable p' a') /\
    (forall a', disposed p a' -> disposed p' a').
Proof.
  intros (v & Ho & Ht).
  destruct (invoke_dispose p a v Ho Ht) as (e' & Hd).
  eexists. split; [exact Hd|]. split; [reflexivity|].
  assert (forall a', a' = a ->
            disposed (Page.mk (Page.viewers p) (<[a := released v]> (Page.objects p))
                        (Page.next_object p) e') a') as Hnew.
  { intros a' ->. exists (released v). split; [apply lookup_insert_eq|].
    apply released_is_released. }
  split; [apply Hnew; reflexivity|]. split.
  - intros a' (v' & H1 & H2). destruct (decide (a' = a)) as [E|Hne].
    + apply disposed_disposable, Hnew, E.
    + exists v'. cbn [Page.objects]. rewrite lookup_insert_ne by congruence. auto.
  - intros a' (v' & H1 & H2). destruct (decide (a' = a)) as [E|Hne].
    + apply Hnew, E.
    + exists v'. cbn [Page.objects]. rewrite lookup_insert_ne by congruence. auto.
Qed.

Lemma In_insert_by {A} (le : A -> A -> bool) x y l :
  In y (insert_by le x l) <-> y = x \/ In y l.
Proof.
  induction l as [|z l IH]; cbn [insert_by].
  - cbn. intuition congruence.
  - destruct (le x z); cbn [In]; [intuition congruence|].
    rewrite IH. intuition congruence.
Qed.

Lemma In_sort_by {A} (le : A -> A -> bool) y l :
  In y (sort_by le l) <-> In y l.
Proof.
  unfold sort_by. induction l as [|x l IH]; cbn [fold_right In]; [tauto|].
  rewrite In_insert_by, IH. intuition congruence.
Qed.

(* Object.values(viewers) holds the registered viewers, and nothing else *)
Lemma In_values p a :
  In a (Page.values p) <-> exists id, Page.viewers p !! id = Some a.
Proof.
  unfold Page.values. rewrite in_map_iff. split.
  - intros ([id a'] & <- & Hin). exists id.
    apply In_sort_by, list_elem_of_In, elem_of_map_to_list in Hin. exact Hin.
  - intros (id & Hreg). exists (id, a). split; [reflexivity|].
    apply In_sort_by, list_elem_of_In, elem_of_map_to_list. exact Hreg.
Qed.

Lemma dispose_each (l : list addr) (p : Page.t) :
  (forall a, In a l -> disposable p a) ->
  exists p',
    ModelViewer.forEach (fun a => Page.invoke a (ModelViewer.dispose a)) l p
    = Return tt p' /\
    Page.viewers p' = Page.viewers p /\
    (forall a, In a l -> disposed p' a) /\
    (forall a', disposed p a' -> disposed p' a').
Proof.
  revert p. induction l as [|a l IH]; intros p Hl; cbn [ModelViewer.forEach].
  - exists p. split; [reflexivity|]. split; [reflexivity|]. split; [intros ? []|auto].
  - destruct (invoke_dispose_step p a) as (p1 & E1 & Hv1 & Hd1 & Hk1 & Hr1).
    { apply Hl. left. reflexivity. }
    destruct (IH p1) as (p' & E2 & Hv2 & Hd2 & Hr2).
    { intros a' Hin. apply Hk1, Hl. right. exact Hin. }
    exists p'. unfold bind. rewrite E1, E2.
    split; [reflexivity|]. split; [congruence|]. split.
    + intros a' [<-|Hin]; [apply Hr2, Hd1|apply Hd2, Hin].
    + intros a' H. apply Hr2, Hr1, H.
Qed.

(** X18: The beforeunload handler disposes of every registered viewer: it
    returns, leaves the registry as it is, and afterwards every registered
    viewer has no scene, camera, renderer, controls or model. *)
Theorem beforeunload_releases_all (p : Page.t) :
  (forall id a, Page.viewers p !! id = Some a -> disposable p a) ->
  exists p',
    Page.beforeunload p = Return tt p' /\
    Page.viewers p' = Page.viewers p /\
    forall id a, Page.viewers p !! id = Some a ->
      exists v, Page.objects p' !! a = Some v /\
        ModelViewer.scene v = None /\ ModelViewer.camera v = None /\
        ModelViewer.renderer v = None /\ ModelViewer.controls v = None /\
        ModelViewer.model v = None.
Proof.
  intros Hp. unfold Page.beforeunload, bind, get.
  destruct (dispose_each (Page.values p) p) as (p' & E & Hv & Hd & _).
  { intros a Hin. apply In_values in Hin as (id & Hreg). apply (Hp id a Hreg). }
  exists p'. split; [exact E|]. split; [exact Hv|].
  intros id a Hreg.
  apply (Hd a). apply In_values. exists id. exact Hreg.
Qed.

(** ** Progress without a total *)

Lemma round_zero : Math.round 0 = 0%float.
Proof. vm_compute. reflexivity. Qed.

(** X2: In the two documents of part_000, a progress notification that carries
    no total (total = 0, or -0) puts 0 on the loading overlay, whatever the
    number of bytes loaded, and returns; nothing else changes. *)
Theorem progress_without_total_shows_zero (rev : revision) (a : addr)
    (loaded total q : float) (v : ModelViewer.t) (e : Env.t) (id : string)
    (canvas : Canvas.t) (box : Container.t) :
  guarded rev = true -> (total =? 0)%float = true ->
  ModelViewer.canvas v = Some id ->
  Env.document e !! id = Some canvas ->
  Canvas.parentElement canvas = Some box ->
  Container.loading box = Some q ->
  step rev a (progress loaded total) (v, e)
  = Return tt (v, with_loading (Some 0%float) id canvas box e) /\
  loading_percent (with_loading (Some 0%float) id canvas box e) id = Some 0%float.
Proof.
  intros Hg H0 Hc Hd Hp Hl. split.
  - cbn [step]. unfold ModelViewer.onProgress.
    rewrite (progress_total_zero_guarded rev loaded total Hg H0).
    apply wp_returns. wp_run. rewrite round_zero. split; reflexivity.
  - unfold loading_percent, with_loading. cbn.
    rewrite lookup_insert_eq. reflexivity.
Qed.

(** ** The further properties at concrete inputs *)

Lemma one_render_loop_witness :
  let s := run part_000_second 0
             (example_events ++ [visibilitychange true; visibilitychange false;
                                 animation_frame 3%positive; call_dispose])
             (start part_000_second 0 "viewer" (example_env false example_box)) in
  length (scheduled 0 (snd s)) <= 1 /\
  forall h, In h (scheduled 0 (snd s)) -> ModelViewer.animationId (fst s) = Some h.
Proof.
  apply (one_render_loop part_000_second 0 "viewer" (example_env false example_box)).
  reflexivity.
Defined.

Lemma passive_events_keep_the_model_witness :
  let s' := state_of (step part_000_second 0 (call_loadModel "a.glb")
                        (cube_viewer, example_env false example_box)) in
  ModelViewer.model (fst s') = ModelViewer.model cube_viewer /\
  attached (fst s') = attached cube_viewer /\
  ModelViewer.scene (fst s')
  = (if drops_cube part_000_second (call_loadModel "a.glb") cube_viewer
     then Scene.remove Scene.test_cube <$> ModelViewer.scene cube_viewer
     else ModelViewer.scene cube_viewer) /\
  ModelViewer.animationId (fst s') = ModelViewer.animationId cube_viewer /\
  Env.frames (snd s') = Env.frames (example_env false example_box).
Proof.
  apply (passive_events_keep_the_model part_000_second 0 (call_loadModel "a.glb")
           (cube_viewer, example_env false example_box)).
  reflexivity.
Defined.

Lemma handleResize_never_zero_witness :
  exists w h s' canvas',
    ModelViewer.handleResize part_000_first 0
      (ready_viewer unsized_box, example_env false unsized_box) = Return tt s' /\
    w <> 0%Z /\ h <> 0%Z /\
    ModelViewer.camera (fst s')
    = Some (Camera.set_aspect (number_of_Z w / number_of_Z h)%float example_camera) /\
    ModelViewer.renderer (fst s')
    = Some (Renderer.setSize w h
              {| Renderer.size := None; Renderer.pixelRatio := 2;
                 Renderer.antialias := true;
                 Renderer.powerPreference := "high-performance";
                 Renderer.shadowMap_enabled := true;
                 Renderer.toneMappingExposure := 1.2 |}) /\
    Env.document (snd s') !! "viewer" = Some canvas' /\
    Canvas.style_width canvas' = Some w /\ Canvas.style_height canvas' = Some h.
Proof.
  apply (handleResize_never_zero part_000_first 0 (ready_viewer unsized_box)
           (example_env false unsized_box) example_camera _ "viewer"
           (example_canvas unsized_box) unsized_box);
    reflexivity.
Defined.

Lemma showLoading_switch_witness :
  bind (ModelViewer.showLoading true) (fun _ => ModelViewer.showLoading true)
    (ready_viewer example_box, example_env false example_box)
  = ModelViewer.showLoading true
      (ready_viewer example_box, example_env false example_box) /\
  (Container.loading example_box = None ->
   bind (ModelViewer.showLoading true) (fun _ => ModelViewer.showLoading false)
     (ready_viewer example_box, example_env false example_box)
   = Return tt (ready_viewer example_box, example_env false example_box)).
Proof.
  apply (showLoading_switch (ready_viewer example_box)
           (example_env false example_box) "viewer"
           (example_canvas example_box) example_box);
    reflexivity.
Defined.

Lemma settled_load_hides_overlay_witness :
  loading_percent
    (snd (state_of (ModelViewer.onLoad js_model_viewer 0 (example_model 1)
                      (loading_viewer, example_env false loading_box))))
    "viewer" = None /\
  loading_percent
    (snd (state_of (ModelViewer.onError js_model_viewer
                      (loading_viewer, example_env false loading_box))))
    "viewer" = None.
Proof.
  apply (settled_load_hides_overlay js_model_viewer 0 (example_model 1)
           loading_viewer (example_env false loading_box) "viewer"
           (example_canvas loading_box) loading_box (Scene.mk 0x0a0e27 [])).
  - reflexivity.
  - reflexivity.
  - reflexivity.
  - reflexivity.
  - intros old H. discriminate H.
Defined.

Lemma showError_first_wins_witness :
  exists s1 canvas1 box1,
    ModelViewer.showError "first" (ready_viewer example_box,
                                   example_env false example_box) = Return tt s1 /\
    Env.document (snd s1) !! "viewer" = Some canvas1 /\
    Canvas.parentElement canvas1 = Some box1 /\
    Container.error box1 = Some "first" /\
    count (fun c => match c with setTimeout _ _ => true | _ => false end)
      (Env.trace (snd s1))
    = S (count (fun c => match c with setTimeout _ _ => true | _ => false end)
           (Env.trace (example_env false example_box))) /\
    ModelViewer.showError "second" s1 = Return tt s1.
Proof.
  apply (showError_first_wins "first" "second" (ready_viewer example_box)
           (example_env false example_box) "viewer"
           (example_canvas example_box) example_box);
    reflexivity.
Defined.

Lemma init_without_WebGL_witness :
  let r := ModelViewer.init part_000_first 0
             (ModelViewer.new "viewer" (without_WebGL example_box),
              without_WebGL example_box) in
  returns r = guarded part_000_first /\
  ModelViewer.isInitialized (fst (state_of r)) = false /\
  ModelViewer.renderer (fst (state_of r))
  = ModelViewer.renderer (ModelViewer.new "viewer" (without_WebGL example_box)) /\
  ModelViewer.controls (fst (state_of r))
  = ModelViewer.controls (ModelViewer.new "viewer" (without_WebGL example_box)) /\
  Env.listeners (snd (state_of r)) = Env.listeners (without_WebGL example_box) /\
  Env.frames (snd (state_of r)) = Env.frames (without_WebGL example_box) /\
  (guarded part_000_first = true ->
   error_message (snd (state_of r)) "viewer"
   = Some (match Container.error example_box with
           | Some shown => shown
           | None => "WebGL not supported"
           end)).
Proof.
  apply (init_without_WebGL part_000_first 0
           (ModelViewer.new "viewer" (without_WebGL example_box))
           (without_WebGL example_box) "viewer"
           (example_canvas example_box) example_box);
    reflexivity.
Defined.

Lemma failed_init_is_not_retried_witness :
  let p' := state_of (Page.load3DModel part_000_first "viewer" "b.glb" false
                        failed_page) in
  Page.viewers p' !! "viewer" = Some 0 /\
  (exists v',
     Page.objects p' !! 0 = Some v' /\
     ModelViewer.isInitialized v' = false /\
     ModelViewer.camera v'
     = ModelViewer.camera
         (default (ModelViewer.new "viewer" (without_WebGL example_box))
            (Page.objects failed_page !! 0)) /\
     ModelViewer.renderer v'
     = ModelViewer.renderer
         (default (ModelViewer.new "viewer" (without_WebGL example_box))
            (Page.objects failed_page !! 0)) /\
     ModelViewer.controls v'
     = ModelViewer.controls
         (default (ModelViewer.new "viewer" (without_WebGL example_box))
            (Page.objects failed_page !! 0))) /\
  exists calls,
    Env.trace (Page.env p') = Env.trace (Page.env failed_page) ++ calls /\
    no_init calls = true.
Proof.
  apply (failed_init_is_not_retried part_000_first "viewer" "b.glb" false
           failed_page 0
           (default (ModelViewer.new "viewer" (without_WebGL example_box))
              (Page.objects failed_page !! 0)));
    vm_compute; reflexivity.
Defined.

Lemma load3DModel_needs_the_libraries_witness :
  exists p' calls,
    Page.load3DModel js_model_viewer "viewer" "a.glb" true without_three
    = Return tt p' /\
    Page.viewers p' = Page.viewers without_three /\
    Page.objects p' = Page.objects without_three /\
    Page.next_object p' = Page.next_object without_three /\
    Env.document (Page.env p') = Env.document (Page.env without_three) /\
    Env.trace (Page.env p') = Env.trace (Page.env without_three) ++ calls /\
    calls <> [] /\ forallb report calls = true.
Proof.
  apply (load3DModel_needs_the_libraries js_model_viewer "viewer" "a.glb" true
           without_three).
  left. reflexivity.
Defined.

Lemma solid_then_textured_stays_gray_witness :
  exists s1 s2 m2,
    ModelViewer.setViewMode "solid" (loaded_viewer, example_env false example_box)
    = Return tt s1 /\
    ModelViewer.setViewMode "textured" s1 = Return tt s2 /\
    ModelViewer.model (fst s2) = Some m2 /\
    (forall child id mat0,
       In child (Model.nodes (example_model 1)) ->
       Object3D.isMesh child = true ->
       Object3D.material child = single id ->
       Model.materials (example_model 1) !! id = Some mat0 ->
       truthy (Material.map mat0) = true ->
       Material.color <$> Model.materials m2 !! id = Some 0x808080%Z) /\
    (forall id,
       (forall child, In child (Model.nodes (example_model 1)) ->
          Object3D.isMesh child = true -> Object3D.material child <> single id) ->
       Model.materials m2 !! id = Model.materials (example_model 1) !! id).
Proof.
  apply (solid_then_textured_stays_gray js_model_viewer false (example_model 1)
           loaded_viewer (example_env false example_box));
    vm_compute; reflexivity.
Defined.

Lemma setViewMode_needs_materials_witness :
  exists s',
    ModelViewer.setViewMode "wireframe"
      (ModelViewer.set_model (Some bare_model) (ready_viewer example_box),
       example_env false example_box)
    = Throw "TypeError: child.material is undefined" s' /\
    ModelViewer.viewMode (fst s') = "wireframe" /\
    snd s' = example_env false example_box.
Proof.
  apply (setViewMode_needs_materials "wireframe"
           (ModelViewer.set_model (Some bare_model) (ready_viewer example_box))
           (example_env false example_box) bare_model);
    reflexivity.
Defined.

Lemma dispose_ends_subscriptions_witness :
  let s := run js_model_viewer 0 example_events
             (start js_model_viewer 0 "viewer" (example_env true example_box)) in
  let s' := state_of (ModelViewer.dispose 0 s) in
  (forall l, In l (Env.listeners (snd s')) ->
     resize_listener 0 l = false /\ visibility_listener 0 l = false) /\
  step js_model_viewer 0 resize s' = Return tt s' /\
  forall hidden,
    step js_model_viewer 0 (visibilitychange hidden) s'
    = Return tt (fst s', Env.set_hidden hidden (snd s')).
Proof.
  apply (dispose_ends_subscriptions js_model_viewer 0 "viewer"
           (example_env true example_box) example_events).
  intros l Hin. simpl in Hin. destruct Hin.
Defined.


Lemma beforeunload_releases_all_witness :
  exists p',
    Page.beforeunload loaded_page = Return tt p' /\
    Page.viewers p' = Page.viewers loaded_page /\
    forall id a, Page.viewers loaded_page !! id = Some a ->
      exists v, Page.objects p' !! a = Some v /\
        ModelViewer.scene v = None /\ ModelViewer.camera v = None /\
        ModelViewer.renderer v = None /\ ModelViewer.controls v = None /\
        ModelViewer.model v = None.
Proof.
  apply (beforeunload_releases_all loaded_page).
  intros id a H. unfold loaded_page in H. cbn [Page.viewers] in H.
  apply lookup_singleton_Some in H as [_ <-].
  exists (fst loaded_state). split; [apply lookup_singleton_eq|].
  intros m Hm. vm_compute in Hm. injection Hm as <-. vm_compute. reflexivity.
Defined.

Lemma loadModel_without_loader_witness :
  let r := ModelViewer.loadModel part_000_second 0 "a.glb"
             (cube_viewer, without_loader example_box) in
  returns r = guarded part_000_second /\
  fst (state_of r)
  = (if debugging part_000_second && ModelViewer.testCube cube_viewer
     then ModelViewer.set_testCube false
            (ModelViewer.set_scene
               (Some (Scene.remove Scene.test_cube
                        (Scene.mk 0x0a0e27 [Scene.test_cube]))) cube_viewer)
     else cube_viewer) /\
  (exists calls,
     Env.trace (snd (state_of r)) = Env.trace (without_loader example_box) ++ calls /\
     forallb (fun c => negb (starts_load c)) calls = true) /\
  (if guarded part_000_second
   then loading_percent (snd (state_of r)) "viewer" = None /\
        error_message (snd (state_of r)) "viewer" <> None
   else loading_percent (snd (state_of r)) "viewer" <> None).
Proof.
  apply (loadModel_without_loader part_000_second 0 "a.glb"
           cube_viewer (without_loader example_box) "viewer"
           (example_canvas example_box) example_box
           (Scene.mk 0x0a0e27 [Scene.test_cube]));
    reflexivity.
Defined.

Lemma load3DModel_inherited_id_witness :
  (exists p',
     Page.load3DModel part_000_second "constructor" "a.glb" true constructor_page
     = Throw "TypeError: viewers[canvasId].loadModel is not a function" p' /\
     Page.viewers p' = Page.viewers constructor_page /\
     Page.objects p' = Page.objects constructor_page /\
     Page.next_object p' = Page.next_object constructor_page /\
     Env.trace (Page.env p') = Env.trace (Page.env constructor_page) /\
     Env.listeners (Page.env p') = Env.listeners (Page.env constructor_page) /\
     Canvas.active <$> Env.document (Page.env p') !! "constructor" = Some true) /\
  Page.setViewMode part_000_second "constructor" "solid" true constructor_page
  = Throw "TypeError: viewers[canvasId].setViewMode is not a function"
      constructor_page.
Proof.
  apply (load3DModel_inherited_id part_000_second "constructor" "a.glb" "solid"
           true true constructor_page (example_canvas example_box) example_box);
    vm_compute; reflexivity.
Defined.

Lemma progress_without_total_shows_zero_witness :
  step part_000_second 0 (progress 1024 0) (loading_viewer, example_env false loading_box)
  = Return tt (loading_viewer,
               with_loading (Some 0%float) "viewer" (example_canvas loading_box)
                 loading_box (example_env false loading_box)) /\
  loading_percent
    (with_loading (Some 0%float) "viewer" (example_canvas loading_box)
       loading_box (example_env false loading_box)) "viewer" = Some 0%float.
Proof.
  apply (progress_without_total_shows_zero part_000_second 0 1024 0 50);
    vm_compute; reflexivity.
Defined.
